(** * ZipFile: the flag display application (Zipu1.h, Zipu1.cpp)

    The application extracts a ZIP archive that is linked into the executable
    as an RCDATA resource, unpacks it into a directory below the temporary
    files root, lists the image files found there, and shows a randomly
    chosen one.  The methods of [TForm1] are embedded below as functions in a
    state-and-exception monad over the form's fields and a model of the
    environment (file system, resource table, tick counter, message boxes).

    The VCL/RTL, Win32 and C++ library calls the methods make are not part of
    the repository.  Each is given here as a small executable model of its
    documented behaviour:
    - [TPath::Combine] returns its second argument when that is rooted and
      otherwise joins both with one backslash, and raises an exception when
      a path holds a character that is invalid in a path;
      [TPath::GetDirectoryName] cuts at the last separator, [\] or [/];
    - [TDirectory::CreateDirectory] makes all missing directories on the way
      and does not report a directory it could not make;
      [TDirectory::Delete] and [TDirectory::GetFiles] throw when the
      directory does not exist, and [Delete] when something cannot be
      removed;
    - [TZipFile::Extract(FileName, Path)] runs with [CreateSubdirs = true]:
      the file is written to [Path] joined with the entry's whole stored
      name, and the directories of that name are made below [Path]; an
      entry whose local header cannot be read raises before anything is
      written, one whose data cannot be decompressed after the output file
      was created;
    - [TPicture::LoadFromFile] needs a graphic class registered for the
      file's extension (the header includes the PNG and JPEG units, none
      for GIF) and bytes that this class can decode; what decodes is a
      parameter of the environment;
    - file names are compared without regard to (ASCII) case; [.] and [..]
      are resolved lexically;
    - the file system accepts every name, of any length; which names
      Windows accepts is part of the statements ([plain_name],
      [usable_root]), not of the model;
    - [std::mt19937] and [std::uniform_int_distribution] are parameters of
      the methods that draw random numbers. *)

From Stdlib Require Import ZArith String Ascii List Bool Lia Permutation.
From Stdlib Require Import Decimal DecimalString DecimalZ.
Import ListNotations.
Local Open Scope Z_scope.
Local Open Scope string_scope.
Local Open Scope list_scope.

(* ================================================================== *)
(** ** Characters and strings *)

Module Str.

Definition is_upper (c : ascii) : bool :=
  let n := nat_of_ascii c in (Nat.leb 65 n && Nat.leb n 90)%bool.

(** ASCII case folding; file names are compared through it. *)
Definition lower_char (c : ascii) : ascii :=
  if is_upper c then ascii_of_nat (nat_of_ascii c + 32) else c.

Fixpoint lower (s : string) : string :=
  match s with
  | EmptyString => EmptyString
  | String c s' => String (lower_char c) (lower s')
  end.

(** [SameText]: equality up to ASCII case. *)
Definition same_text (a b : string) : bool := String.eqb (lower a) (lower b).

Definition char_eqb_ci (a b : ascii) : bool :=
  Ascii.eqb (lower_char a) (lower_char b).

Fixpoint last_char (s : string) : option ascii :=
  match s with
  | EmptyString => None
  | String c EmptyString => Some c
  | String _ s' => last_char s'
  end.

Fixpoint drop_last (s : string) : string :=
  match s with
  | EmptyString => EmptyString
  | String _ EmptyString => EmptyString
  | String c s' => String c (drop_last s')
  end.

Definition is_empty (s : string) : bool :=
  match s with EmptyString => true | _ => false end.

Fixpoint replace_char (from to : ascii) (s : string) : string :=
  match s with
  | EmptyString => EmptyString
  | String c s' =>
      String (if Ascii.eqb c from then to else c) (replace_char from to s')
  end.

Fixpoint contains_char (p : ascii -> bool) (s : string) : bool :=
  match s with
  | EmptyString => false
  | String c s' => (p c || contains_char p s')%bool
  end.

End Str.

(** [IntToStr]: the decimal rendering of an integer, with a leading minus
    sign for negative values. *)
Definition IntToStr (z : Z) : string := NilEmpty.string_of_int (Z.to_int z).

(** [static_cast<int>] applied to a [DWORD]: reduction to the signed 32-bit
    range. *)
Definition static_cast_int (z : Z) : Z := (z + 2 ^ 31) mod 2 ^ 32 - 2 ^ 31.

(* ================================================================== *)
(** ** Path syntax ([System.IOUtils.TPath]) *)

Module TPath.

Definition backslash : ascii := ascii_of_nat 92.
Definition slash : ascii := ascii_of_nat 47.
Definition colon : ascii := ascii_of_nat 58.
Definition dot : ascii := ascii_of_nat 46.

(** [DirectorySeparatorChar] and [AltDirectorySeparatorChar]. *)
Definition is_sep (c : ascii) : bool :=
  (Ascii.eqb c backslash || Ascii.eqb c slash)%bool.

Definition ends_with_colon (s : string) : bool :=
  match Str.last_char s with
  | Some c => Ascii.eqb c colon
  | None => false
  end.

Definition ends_with_sep (s : string) : bool :=
  match Str.last_char s with
  | Some c => is_sep c
  | None => false
  end.

(** [IsPathRooted]: the path starts at a root (a leading separator) or
    carries a drive designator. *)
Definition IsPathRooted (p : string) : bool :=
  match p with
  | String c (String d _) => (is_sep c || Ascii.eqb d colon)%bool
  | String c EmptyString => is_sep c
  | EmptyString => false
  end.

(** [TPath::GetInvalidPathChars]: the control characters, the quotation
    mark, [<], [>] and [|]. *)
Definition is_invalid_path_char (c : ascii) : bool :=
  let n := nat_of_ascii c in
  (Nat.ltb n 32 || Nat.eqb n 34 || Nat.eqb n 60 || Nat.eqb n 62
   || Nat.eqb n 124)%bool.

Definition HasValidPathChars (p : string) : bool :=
  negb (Str.contains_char is_invalid_path_char p).

(** [TPath::Combine], for paths without invalid characters: the second path
    alone when it is rooted, otherwise both joined by one separator. *)
Definition Combine (p1 p2 : string) : string :=
  if Str.is_empty p2 then p1
  else if Str.is_empty p1 then p2
  else if IsPathRooted p2 then p2
  else if (ends_with_sep p1 || ends_with_colon p1)%bool then (p1 ++ p2)%string
  else (p1 ++ String backslash p2)%string.

(** The longest prefix of [s] that ends with a separator, when [s]
    contains one. *)
Fixpoint upto_last_sep (s : string) : option string :=
  match s with
  | EmptyString => None
  | String c s' =>
      match upto_last_sep s' with
      | Some d => Some (String c d)
      | None => if is_sep c then Some (String c EmptyString) else None
      end
  end.

(** [TPath::GetDirectoryName]: what precedes the last separator; the
    separator is kept when it designates a root. *)
Definition GetDirectoryName (p : string) : string :=
  match upto_last_sep p with
  | None => EmptyString
  | Some d =>
      let d' := Str.drop_last d in
      if (Str.is_empty d' || ends_with_colon d')%bool then d else d'
  end.

(** What follows the last separator or drive colon. *)
Fixpoint GetFileName (s : string) : string :=
  match s with
  | EmptyString => EmptyString
  | String c s' =>
      if Str.contains_char (fun x => (is_sep x || Ascii.eqb x colon)%bool) s
      then GetFileName s'
      else s
  end.

(** The part of a file name before its last dot. *)
Fixpoint strip_extension (s : string) : string :=
  match s with
  | EmptyString => EmptyString
  | String c s' =>
      if Str.contains_char (Ascii.eqb dot) s'
      then String c (strip_extension s')
      else if Ascii.eqb c dot then EmptyString
      else s
  end.

Definition GetFileNameWithoutExtension (p : string) : string :=
  strip_extension (GetFileName p).

(** The part of a file name after its last dot, in lower case; empty when
    the name has no dot. *)
Fixpoint extension_of (s : string) : string :=
  match s with
  | EmptyString => EmptyString
  | String c s' =>
      if Str.contains_char (Ascii.eqb dot) s' then extension_of s'
      else if Ascii.eqb c dot then Str.lower s'
      else EmptyString
  end.

(** The segments of a path: the maximal runs of characters between
    separators, empty runs included. *)
Fixpoint raw_split (s : string) : list string :=
  match s with
  | EmptyString => [EmptyString]
  | String c s' =>
      if is_sep c then EmptyString :: raw_split s'
      else
        match raw_split s' with
        | x :: r => String c x :: r
        | [] => [String c EmptyString]
        end
  end.

Definition segments (s : string) : list string :=
  filter (fun x => negb (Str.is_empty x)) (raw_split s).

End TPath.

(** [SysUtils.ExtractFileDir], which [TZipFile] uses: only the backslash and
    the drive colon delimit. *)
Module SysUtils.

Definition is_delim (c : ascii) : bool :=
  (Ascii.eqb c TPath.backslash || Ascii.eqb c TPath.colon)%bool.

(** The longest prefix of [s] that ends with a delimiter. *)
Fixpoint upto_last_delim (s : string) : option string :=
  match s with
  | EmptyString => None
  | String c s' =>
      match upto_last_delim s' with
      | Some d => Some (String c d)
      | None => if is_delim c then Some (String c EmptyString) else None
      end
  end.

(** The final backslash is dropped unless the character before it is a
    delimiter too, or there is none. *)
Definition ExtractFileDir (p : string) : string :=
  match upto_last_delim p with
  | None => EmptyString
  | Some d =>
      match Str.last_char d, Str.last_char (Str.drop_last d) with
      | Some l, Some b =>
          if (Ascii.eqb l TPath.backslash && negb (is_delim b))%bool
          then Str.drop_last d else d
      | _, _ => d
      end
  end.

End SysUtils.

(* ================================================================== *)
(** ** The file system *)

(** A location is the list of the names that lead to it from the top of the
    name space, a drive designator such as [C:] being the first of them.
    Names keep their case and are compared without it. *)
Module Loc.

Definition t := list string.

Fixpoint eqb (a b : t) : bool :=
  match a, b with
  | [], [] => true
  | x :: a', y :: b' => (Str.same_text x y && eqb a' b')%bool
  | _, _ => false
  end.

(** [is_prefix a b]: [b] is [a] or lies below it. *)
Fixpoint is_prefix (a b : t) : bool :=
  match a, b with
  | [], _ => true
  | x :: a', y :: b' => (Str.same_text x y && is_prefix a' b')%bool
  | _ :: _, [] => false
  end.

Definition is_below (a b : t) : bool := (is_prefix a b && negb (eqb a b))%bool.

(** One step up; a drive designator is its own parent. *)
Definition parent (p : t) : t :=
  match List.rev p with
  | [] => []
  | x :: _ => if TPath.ends_with_colon x then p else removelast p
  end.

Definition enter (p : t) (seg : string) : t :=
  if String.eqb seg "." then p
  else if String.eqb seg ".." then parent p
  else p ++ [seg].

(** The location a path string designates: [.] and [..] are resolved
    lexically, as the Win32 path normaliser does. *)
Definition of_path (path : string) : t :=
  fold_left enter (TPath.segments path) [].

End Loc.

Inductive node : Type :=
| Dir
| File (data : list Byte.byte).

Definition store := list (Loc.t * node).

Module Store.

Definition lookup (s : store) (p : Loc.t) : option node :=
  match find (fun e => Loc.eqb (fst e) p) s with
  | Some e => Some (snd e)
  | None => None
  end.

Definition is_dir (s : store) (p : Loc.t) : bool :=
  match lookup s p with Some Dir => true | _ => false end.

Definition is_file (s : store) (p : Loc.t) : bool :=
  match lookup s p with Some (File _) => true | _ => false end.

Definition guarded (prot : list Loc.t) (p : Loc.t) : bool :=
  existsb (fun q => Loc.is_prefix q p) prot.

(** [ForceDirectories]: the missing directories on the way to [pre ++ rest]
    are made one after the other; the walk stops, without an error, at the
    first one that cannot be made. *)
Fixpoint force_dirs (prot : list Loc.t) (pre : Loc.t) (rest : list string)
    (s : store) : store :=
  match rest with
  | [] => s
  | seg :: rest' =>
      let p := pre ++ [seg] in
      match lookup s p with
      | Some Dir => force_dirs prot p rest' s
      | Some (File _) => s
      | None =>
          if guarded prot p then s
          else force_dirs prot p rest' (s ++ [(p, Dir)])
      end
  end.

(** Creating (or truncating) a file and writing [data] to it; [None] when
    the file cannot be created: no parent directory, a directory of that
    name, or a guarded location. *)
Definition write_file (prot : list Loc.t) (s : store) (p : Loc.t)
    (data : list Byte.byte) : option store :=
  match p with
  | [] => None
  | _ :: _ =>
      if (is_dir s (removelast p) && negb (is_dir s p)
          && negb (guarded prot p))%bool
      then Some (filter (fun e => negb (Loc.eqb (fst e) p)) s
                   ++ [(p, File data)])
      else None
  end.

Definition is_file_node (n : node) : bool :=
  match n with File _ => true | Dir => false end.

(** Removal of a tree that holds a guarded entry: the files met before
    that entry are removed, the rest stays. *)
Fixpoint remove_files_until_guarded (prot : list Loc.t) (p : Loc.t)
    (s : store) : store :=
  match s with
  | [] => []
  | e :: s' =>
      if Loc.is_prefix p (fst e) then
        if guarded prot (fst e) then e :: s'
        else if is_file_node (snd e)
             then remove_files_until_guarded prot p s'
             else e :: remove_files_until_guarded prot p s'
      else e :: remove_files_until_guarded prot p s'
  end.

Definition holds_guarded (prot : list Loc.t) (p : Loc.t) (s : store) : bool :=
  existsb (fun e => (Loc.is_prefix p (fst e) && guarded prot (fst e))%bool) s.

Definition remove_tree (p : Loc.t) (s : store) : store :=
  filter (fun e => negb (Loc.is_prefix p (fst e))) s.

End Store.

(** [TPath::MatchesPattern]: [*] stands for any run of characters, [?] for
    one character; letters match without regard to case. *)
Fixpoint matches_pattern (pat : string) (name : string) : bool :=
  match pat with
  | EmptyString => Str.is_empty name
  | String c pat' =>
      if Ascii.eqb c "*"%char then
        (fix star (n : string) : bool :=
           (matches_pattern pat' n ||
            match n with
            | EmptyString => false
            | String _ n' => star n'
            end)%bool) name
      else
        match name with
        | EmptyString => false
        | String d name' =>
            ((Ascii.eqb c "?"%char || Str.char_eqb_ci c d)
             && matches_pattern pat' name')%bool
        end
  end.

(* ================================================================== *)
(** ** Archives and resources *)

(** What [TZipFile] finds behind an entry of the central directory: data
    that decompress to [data]; a local header that cannot be read; or data
    whose decompression fails after [decoded] was produced. *)
Inductive entry_content : Type :=
| Stored (data : list Byte.byte)
| BadHeader
| BadData (decoded : list Byte.byte).

(** An archive entry: the stored name and what is behind it. *)
Record zip_entry : Type := mk_entry {
  entry_name : string;
  entry_data : entry_content
}.

(** What a byte buffer is to [TZipFile::Open]: an archive with a readable
    central directory, or not one. *)
Inductive zip_image : Type :=
| NotAZip
| ZipArchive (entries : list zip_entry).

Definition TMemoryStream := zip_image.

(** A resource of the executable's resource section. *)
Record resource : Type := mk_resource {
  res_name : Z;
  res_type : Z;
  res_loadable : bool;
  res_lockable : bool;
  res_size : Z;
  res_image : zip_image
}.

Definition RT_RCDATA : Z := 10.
Definition MAKEINTRESOURCE (i : Z) : Z := i.

(* ================================================================== *)
(** ** The environment and the form *)

Record World : Type := mk_world {
  fs : store;
  guarded_locs : list Loc.t;      (* locations that refuse changes *)
  temp_path : string;             (* what GetTempPath returns *)
  tick_counts : list Z;           (* successive readings of GetTickCount *)
  resources : list resource;      (* resource section of the executable *)
  shown : list string;            (* texts passed to ShowMessage, in order *)
  decodes : string -> list Byte.byte -> bool
    (* whether the graphic class of an extension can decode these bytes *)
}.

Definition with_fs (w : World) (s : store) : World :=
  mk_world s (guarded_locs w) (temp_path w) (tick_counts w) (resources w)
    (shown w) (decodes w).

Definition with_shown (w : World) (l : list string) : World :=
  mk_world (fs w) (guarded_locs w) (temp_path w) (tick_counts w) (resources w) l
    (decodes w).

Definition with_tick_counts (w : World) (l : list Z) : World :=
  mk_world (fs w) (guarded_locs w) (temp_path w) l (resources w) (shown w)
    (decodes w).

(** [std::mt19937], abstracted to what determines its output: the seed and
    the number of outputs already produced. *)
Record mt19937 : Type := mk_mt {
  mt_seed : Z;
  mt_calls : nat
}.

Definition default_seed : Z := 5489.

Inductive TColor : Type := clBlack | clGreen | clRed | clWindowText.

(** The fields of [TForm1] and the properties of its components that the
    methods assign. *)
Record TForm1 : Type := mk_form {
  flagFiles : list string;
  tempDirectory : string;
  randomGenerator : mt19937;
  ImageFlag_Picture : option string;   (* file the picture was loaded from *)
  LabelFlagName_Caption : string;
  LabelStatus_Caption : string;
  LabelStatus_Font_Color : TColor
}.

Definition with_flagFiles (f : TForm1) (l : list string) : TForm1 :=
  mk_form l (tempDirectory f) (randomGenerator f) (ImageFlag_Picture f)
    (LabelFlagName_Caption f) (LabelStatus_Caption f) (LabelStatus_Font_Color f).

Definition with_tempDirectory (f : TForm1) (d : string) : TForm1 :=
  mk_form (flagFiles f) d (randomGenerator f) (ImageFlag_Picture f)
    (LabelFlagName_Caption f) (LabelStatus_Caption f) (LabelStatus_Font_Color f).

Definition with_randomGenerator (f : TForm1) (g : mt19937) : TForm1 :=
  mk_form (flagFiles f) (tempDirectory f) g (ImageFlag_Picture f)
    (LabelFlagName_Caption f) (LabelStatus_Caption f) (LabelStatus_Font_Color f).

Definition with_Picture (f : TForm1) (p : option string) : TForm1 :=
  mk_form (flagFiles f) (tempDirectory f) (randomGenerator f) p
    (LabelFlagName_Caption f) (LabelStatus_Caption f) (LabelStatus_Font_Color f).

Definition with_FlagName (f : TForm1) (c : string) : TForm1 :=
  mk_form (flagFiles f) (tempDirectory f) (randomGenerator f)
    (ImageFlag_Picture f) c (LabelStatus_Caption f) (LabelStatus_Font_Color f).

Definition with_Status (f : TForm1) (c : string) : TForm1 :=
  mk_form (flagFiles f) (tempDirectory f) (randomGenerator f)
    (ImageFlag_Picture f) (LabelFlagName_Caption f) c (LabelStatus_Font_Color f).

Definition with_Status_Color (f : TForm1) (c : TColor) : TForm1 :=
  mk_form (flagFiles f) (tempDirectory f) (randomGenerator f)
    (ImageFlag_Picture f) (LabelFlagName_Caption f) (LabelStatus_Caption f) c.

(** The form as the .dfm file and the member initialisers leave it, before
    the constructor body runs. *)
Definition form_from_dfm : TForm1 :=
  mk_form [] "" (mk_mt default_seed 0) None "Flag Name" "Status: Ready" clGreen.

Record Machine : Type := mk_machine {
  this : TForm1;
  env : World
}.

(* ================================================================== *)
(** ** State and exceptions *)

Inductive outcome (A : Type) : Type :=
| Returned (a : A)
| Thrown (message : string).
Arguments Returned {A} a.
Arguments Thrown {A} message.

(** A computation runs on the machine and either returns a value or throws
    an [Exception] with a message; what it did to the machine before
    throwing stays done. *)
Definition M (A : Type) : Type := Machine -> outcome A * Machine.

Definition ret {A} (a : A) : M A := fun m => (Returned a, m).

Definition bind {A B} (c : M A) (k : A -> M B) : M B :=
  fun m =>
    match c m with
    | (Returned a, m') => k a m'
    | (Thrown e, m') => (Thrown e, m')
    end.

Definition throw {A} (e : string) : M A := fun m => (Thrown e, m).

(** [try { body } catch (Exception &e) { handler }] *)
Definition try_catch {A} (body : M A) (handler : string -> M A) : M A :=
  fun m =>
    match body m with
    | (Returned a, m') => (Returned a, m')
    | (Thrown e, m') => handler e m'
    end.

Declare Scope monad_scope.
Delimit Scope monad_scope with monad.
Notation "x <- c1 ;; c2" := (bind c1 (fun x => c2))
  (at level 61, c1 at next level, right associativity) : monad_scope.
Notation "c1 ;; c2" := (bind c1 (fun _ => c2))
  (at level 61, right associativity) : monad_scope.
Local Open Scope monad_scope.

Definition get_this : M TForm1 := fun m => (Returned (this m), m).
Definition get_env : M World := fun m => (Returned (env m), m).
Definition update_this (f : TForm1 -> TForm1) : M unit :=
  fun m => (Returned tt, mk_machine (f (this m)) (env m)).
Definition update_env (f : World -> World) : M unit :=
  fun m => (Returned tt, mk_machine (this m) (f (env m))).

(** [for (int i = 0; i < n; i++) body(i)], started at index [i]. *)
Fixpoint for_loop (n : nat) (i : nat) (body : nat -> M unit) : M unit :=
  match n with
  | O => ret tt
  | S n' => body i ;; for_loop n' (S i) body
  end.

(* ================================================================== *)
(** ** The library calls *)

Definition ShowMessage (text : string) : M unit :=
  update_env (fun w => with_shown w (shown w ++ [text])).

(** [GetTickCount]: the next reading of the millisecond counter, a DWORD. *)
Definition GetTickCount : M Z :=
  fun m =>
    match tick_counts (env m) with
    | [] => (Returned 0, m)
    | t :: later =>
        (Returned (t mod 2 ^ 32),
         mk_machine (this m) (with_tick_counts (env m) later))
    end.

Definition GetTempPath : M string :=
  w <- get_env ;; ret (temp_path w).

Definition FindResource (name type : Z) : M (option resource) :=
  w <- get_env ;;
  ret (find (fun r => (Z.eqb (res_name r) name && Z.eqb (res_type r) type)%bool)
         (resources w)).

Definition LoadResource (h : resource) : option resource :=
  if res_loadable h then Some h else None.

Definition LockResource (g : resource) : option zip_image :=
  if res_lockable g then Some (res_image g) else None.

Definition SizeofResource (h : resource) : Z := res_size h.

(** [TMemoryStream::WriteBuffer] followed by [Position = 0]: the stream
    holds the resource's bytes. *)
Definition WriteBuffer (data : zip_image) (size : Z) : M TMemoryStream :=
  ret data.

Module TDirectory.

Definition Exists (path : string) : M bool :=
  w <- get_env ;;
  ret (negb (Str.is_empty path) && Store.is_dir (fs w) (Loc.of_path path))%bool.

(** Makes the directory and its missing ancestors; a directory that cannot
    be made is not reported, only an empty path is refused. *)
Definition CreateDirectory (path : string) : M unit :=
  if Str.is_empty path then throw "Path is empty"
  else
    update_env (fun w =>
      with_fs w (Store.force_dirs (guarded_locs w) [] (Loc.of_path path) (fs w))).

(** Removes the directory, with its content when [recursive]; throws when
    the directory is missing, is not empty in the non-recursive case, or
    holds something that cannot be removed. *)
Definition Delete (path : string) (recursive : bool) : M unit :=
  w <- get_env ;;
  let p := Loc.of_path path in
  if (Str.is_empty path || negb (Store.is_dir (fs w) p))%bool
  then throw "The specified path was not found"
  else if (negb recursive
           && existsb (fun e => Loc.is_below p (fst e)) (fs w))%bool
  then throw "The directory is not empty"
  else if Store.holds_guarded (guarded_locs w) p (fs w)
  then
    update_env (fun w =>
      with_fs w (Store.remove_files_until_guarded (guarded_locs w) p (fs w))) ;;
    throw "Access is denied"
  else update_env (fun w => with_fs w (Store.remove_tree p (fs w))).

(** The files below [path], at any depth, whose name matches [pattern]:
    each is reported as [path] combined with the names that lead from it
    to the file.  They are listed in the order of the store; the order in
    which Windows enumerates a directory is not modelled. *)
Definition files_below (s : store) (path pattern : string) : list string :=
  let root := Loc.of_path path in
  flat_map (fun e =>
    let rel := skipn (length root) (fst e) in
    if (Store.is_file_node (snd e) && Loc.is_below root (fst e)
        && matches_pattern pattern (last rel ""))%bool
    then [fold_left TPath.Combine rel path] else []) s.

Definition GetFiles (path pattern : string) : M (list string) :=
  w <- get_env ;;
  if (Str.is_empty path || negb (Store.is_dir (fs w) (Loc.of_path path)))%bool
  then throw "The specified path was not found"
  else ret (files_below (fs w) path pattern).

End TDirectory.

(** [TFileStream] opened with [fmCreate], written and closed. *)
Definition TFileStream_Create_Write (path : string) (data : list Byte.byte)
  : M unit :=
  w <- get_env ;;
  match Store.write_file (guarded_locs w) (fs w) (Loc.of_path path) data with
  | Some s => update_env (fun w => with_fs w s)
  | None => throw ("Cannot create file " ++ path)%string
  end.

(** [TPath::Combine] as the methods call it: a path with an invalid
    character is refused.  ([TPath::GetDirectoryName] checks its argument
    in the same way; the methods apply it to what [Combine] returned.) *)
Definition TPath_Combine (path1 path2 : string) : M string :=
  if (TPath.HasValidPathChars path1 && TPath.HasValidPathChars path2)%bool
  then ret (TPath.Combine path1 path2)
  else throw "Invalid characters in path".

(** The extensions a graphic class is registered for: those of
    [Vcl.Graphics] and of the two imaging units the header includes,
    [Vcl.Imaging.pngimage] and [Vcl.Imaging.jpeg]. *)
Definition graphic_extensions : list string :=
  ["bmp"; "ico"; "emf"; "wmf"; "tif"; "tiff"; "png"; "jpg"; "jpeg"].

Definition graphic_extension (path : string) : string :=
  TPath.extension_of (TPath.GetFileName path).

(** [TPicture::LoadFromFile]: the graphic class is chosen by the file's
    extension; the file has to exist and the class has to decode it. *)
Definition Picture_LoadFromFile (path : string) : M unit :=
  w <- get_env ;;
  let ext := graphic_extension path in
  if negb (existsb (String.eqb ext) graphic_extensions)
  then throw ("Unknown picture file extension (." ++ ext ++ ")")%string
  else
    match Store.lookup (fs w) (Loc.of_path path) with
    | Some (File data) =>
        if decodes w ext data
        then update_this (fun f => with_Picture f (Some path))
        else throw ("Cannot decode the image in " ++ path)%string
    | _ => throw ("Cannot open file " ++ path)%string
    end.

Module TZipFile.

Definition t := list zip_entry.

Definition Open (stream : TMemoryStream) : M t :=
  match stream with
  | NotAZip => throw "Invalid Zip File"
  | ZipArchive entries => ret entries
  end.

Definition FileCount (z : t) : nat := length z.

Definition FileNames (z : t) (i : nat) : string :=
  entry_name (nth i z (mk_entry "" BadHeader)).

(** The output file is created, and the entry's data are decompressed into
    it; data that cannot be decompressed raise after the file was made. *)
Definition decompress_to (path : string) (content : entry_content) : M unit :=
  match content with
  | Stored data => TFileStream_Create_Write path data
  | BadData decoded =>
      TFileStream_Create_Write path decoded ;;
      throw "Data error"
  | BadHeader => throw "Invalid Zip Local Header signature"
  end.

(** [Extract(FileName, Path, CreateSubdirs = true)]: the local header of
    the first entry of that name is read, and the entry is written to
    [Path] combined with its stored name, directories included; an entry
    whose name ends with a separator only makes the directory.  (The
    methods pass a path and a name that [TPath::Combine] has accepted.) *)
Definition Extract (z : t) (fileName path : string) : M unit :=
  match find (fun e => String.eqb (entry_name e) fileName) z with
  | None => throw "File not found in zip"
  | Some e =>
      match entry_data e with
      | BadHeader => throw "Invalid Zip Local Header signature"
      | content =>
          let LFileName :=
            Str.replace_char TPath.slash TPath.backslash (entry_name e) in
          let LFileName := TPath.Combine path LFileName in
          let LDir := SysUtils.ExtractFileDir LFileName in
          (if Str.is_empty LDir then ret tt
           else TDirectory.CreateDirectory LDir) ;;
          match Str.last_char LFileName with
          | Some c =>
              if Ascii.eqb c TPath.backslash then ret tt
              else decompress_to LFileName content
          | None => decompress_to LFileName content
          end
      end
  end.

End TZipFile.

(* ================================================================== *)
(** ** The methods of TForm1 *)

(** The block of [ExtractZipToTemp] that makes the directory; it yields
    [Some r] where the source says [return r] and [None] where control falls
    through to the extraction. *)
Definition create_temp_directory : M (option bool) :=
  try_catch
    (f <- get_this ;;
     TDirectory.CreateDirectory (tempDirectory f) ;;
     made <- TDirectory.Exists (tempDirectory f) ;;
     if negb made
     then ShowMessage "Unable to create temporary directory" ;;
          ret (Some false)
     else ret None)
    (fun _ =>
       ShowMessage "Unable to create temporary directory" ;;
       ret (Some false)).

(** The body of the loop over the archive's entries, for index [i]. *)
Definition extract_entry (zipFile : TZipFile.t) (i : nat) : M unit :=
  f <- get_this ;;
  let fileName := TZipFile.FileNames zipFile i in
  fullPath <- TPath_Combine (tempDirectory f) fileName ;;
  let dir := TPath.GetDirectoryName fullPath in
  present <- TDirectory.Exists dir ;;
  (if negb present then TDirectory.CreateDirectory dir else ret tt) ;;
  TZipFile.Extract zipFile fileName dir.

(** The block of [ExtractZipToTemp] that opens the archive and extracts
    every entry. *)
Definition extract_all_entries (zipStream : TMemoryStream) : M bool :=
  try_catch
    (zipFile <- TZipFile.Open zipStream ;;
     for_loop (TZipFile.FileCount zipFile) 0 (extract_entry zipFile) ;;
     ret true)
    (fun e =>
       ShowMessage ("Error extracting ZIP file: " ++ e)%string ;;
       ret false).

(** [TForm1::ExtractZipToTemp] *)
Definition ExtractZipToTemp (zipStream : TMemoryStream) : M bool :=
  try_catch
    (root <- GetTempPath ;;
     ticks <- GetTickCount ;;
     update_this (fun f =>
       with_tempDirectory f
         (root ++ "FlagImages_" ++ IntToStr (static_cast_int ticks))%string) ;;
     early <- create_temp_directory ;;
     match early with
     | Some r => ret r
     | None => extract_all_entries zipStream
     end)
    (fun e =>
       ShowMessage ("Error creating temporary directory: " ++ e)%string ;;
       ret false).

(** [TForm1::ExtractResourceAsZip] *)
Definition ExtractResourceAsZip : M bool :=
  try_catch
    (hResource <- FindResource (MAKEINTRESOURCE 1) RT_RCDATA ;;
     match hResource with
     | None =>
         ShowMessage "No suitable resource found in the executable" ;;
         ret false
     | Some h =>
         match LoadResource h with
         | None => ShowMessage "Unable to load resource" ;; ret false
         | Some hLoadedResource =>
             let pResourceData := LockResource hLoadedResource in
             let resourceSize := SizeofResource h in
             match pResourceData with
             | None => ShowMessage "Invalid resource data" ;; ret false
             | Some data =>
                 if Z.eqb resourceSize 0
                 then ShowMessage "Invalid resource data" ;; ret false
                 else
                   try_catch
                     (zipStream <- WriteBuffer data resourceSize ;;
                      ExtractZipToTemp zipStream)
                     (fun e =>
                        ShowMessage ("Error processing ZIP data: " ++ e)%string ;;
                        ret false)
             end
         end
     end)
    (fun e =>
       ShowMessage ("Error extracting resource: " ++ e)%string ;;
       ret false).

Definition extensions : list string :=
  ["*.png"; "*.jpg"; "*.jpeg"; "*.bmp"; "*.gif"].

(** [TForm1::LoadFlagImages] *)
Definition LoadFlagImages : M unit :=
  update_this (fun f => with_flagFiles f []) ;;
  f <- get_this ;;
  present <- (if Str.is_empty (tempDirectory f) then ret false
              else TDirectory.Exists (tempDirectory f)) ;;
  if negb present then ret tt
  else
    try_catch
      (for_loop (length extensions) 0 (fun i =>
         files <- TDirectory.GetFiles (tempDirectory f) (nth i extensions "") ;;
         for_loop (length files) 0 (fun j =>
           update_this (fun f =>
             with_flagFiles f (flagFiles f ++ [nth j files ""])))))
      (fun e =>
         ShowMessage ("Error searching for image files: " ++ e)%string).

(** [TForm1::CleanupTempFiles] *)
Definition CleanupTempFiles : M unit :=
  f <- get_this ;;
  present <- (if Str.is_empty (tempDirectory f) then ret false
              else TDirectory.Exists (tempDirectory f)) ;;
  if present
  then try_catch (TDirectory.Delete (tempDirectory f) true) (fun _ => ret tt)
  else ret tt.

(** [TForm1::~TForm1] *)
Definition TForm1_destroy : M unit := CleanupTempFiles.

Section Random.

(** The standard library's random number facilities.  [mt_output seed k]
    is the [k]-th output of the engine seeded with [seed].  A distribution
    over [[a, b]] reads the outputs to come and yields a value and the
    number of outputs it used, which may be none. *)
Variable mt_output : Z -> nat -> Z.
Variable uniform_int_distribution : Z -> Z -> (nat -> Z) -> Z * nat.

(** [dist(randomGenerator)] for [dist(a, b)]. *)
Definition dist_call (a b : Z) (g : mt19937) : Z * mt19937 :=
  let '(v, used) :=
    uniform_int_distribution a b
      (fun i => mt_output (mt_seed g) (mt_calls g + i)%nat) in
  (v, mk_mt (mt_seed g) (mt_calls g + used)%nat).

(** The two statements that choose the index. *)
Definition pick_index : M Z :=
  f <- get_this ;;
  let '(index, g) :=
    dist_call 0 (Z.of_nat (length (flagFiles f)) - 1) (randomGenerator f) in
  update_this (fun f => with_randomGenerator f g) ;;
  ret index.

(** [TForm1::ShowRandomFlag] *)
Definition ShowRandomFlag : M unit :=
  f <- get_this ;;
  match flagFiles f with
  | [] =>
      update_this (fun f => with_FlagName f "No flag images available")
  | _ :: _ =>
      try_catch
        (index <- pick_index ;;
         let selectedFile := nth (Z.to_nat index) (flagFiles f) "" in
         Picture_LoadFromFile selectedFile ;;
         let fileName := TPath.GetFileNameWithoutExtension selectedFile in
         update_this (fun f => with_FlagName f ("Flag: " ++ fileName)%string) ;;
         update_this (fun f =>
           with_Status f
             ("Status: Displaying " ++ IntToStr (index + 1) ++ "/"
              ++ IntToStr (Z.of_nat (length (flagFiles f))) ++ " flag")%string))
        (fun e =>
           ShowMessage ("Error displaying image: " ++ e)%string ;;
           update_this (fun f => with_FlagName f "Image loading failed"))
  end.

(** [TForm1::InitializeApplication]; [Application->ProcessMessages()] only
    repaints the window and is left out. *)
Definition InitializeApplication : M unit :=
  update_this (fun f => with_Status f "Status: Extracting resource...") ;;
  extracted <- ExtractResourceAsZip ;;
  if extracted then
    LoadFlagImages ;;
    f <- get_this ;;
    if (0 <? length (flagFiles f))%nat then
      update_this (fun f =>
        with_Status f
          ("Status: Successfully loaded "
           ++ IntToStr (Z.of_nat (length (flagFiles f)))
           ++ " flag images")%string) ;;
      ShowRandomFlag
    else
      update_this (fun f => with_Status f "Status: No image files found") ;;
      update_this (fun f => with_Status_Color f clRed)
  else
    update_this (fun f => with_Status f "Status: Resource extraction failed") ;;
    update_this (fun f => with_Status_Color f clRed).

(** [TForm1::TForm1] *)
Definition TForm1_create : M unit :=
  ticks <- GetTickCount ;;
  update_this (fun f => with_randomGenerator f (mk_mt ticks 0)) ;;
  update_this (fun f => with_tempDirectory f "") ;;
  InitializeApplication.

(** [TForm1::ButtonRandomClick]; the repaint and the [Sleep(100)] between
    the assignments and [ShowRandomFlag] are left out. *)
Definition ButtonRandomClick : M unit :=
  update_this (fun f => with_Picture f None) ;;
  update_this (fun f => with_FlagName f "Loading...") ;;
  update_this (fun f => with_Status f "Status: Refreshing...") ;;
  ShowRandomFlag.

(** The life of the form: construction, [clicks] presses of the button,
    destruction. *)
Fixpoint press (clicks : nat) : M unit :=
  match clicks with
  | O => ret tt
  | S n => ButtonRandomClick ;; press n
  end.

Definition form_lifetime (clicks : nat) : M unit :=
  TForm1_create ;; press clicks ;; TForm1_destroy.

End Random.

(* ================================================================== *)
(** ** Sample environments

    A small machine on which the statements below are exercised: drive C:
    with a temporary directory, an executable that carries one RCDATA
    resource, and a stand-in for the random number library. *)

Module Sample.

Definition payload : list Byte.byte := [Byte.x89; Byte.x50; Byte.x4e; Byte.x47].

Definition archive (names : list string) : zip_image :=
  ZipArchive (map (fun n => mk_entry n (Stored payload)) names).

(** An imaging library that decodes every file that is not empty. *)
Definition decoder (ext : string) (data : list Byte.byte) : bool :=
  negb (Nat.eqb (length data) 0).

Definition disk : store := [(["C:"], Dir); (["C:"; "Temp"], Dir)].

Definition rcdata (image : zip_image) : resource :=
  mk_resource 1 RT_RCDATA true true 4096 image.

Definition world (ticks : list Z) (res : list resource) : World :=
  mk_world disk [] "C:\Temp\" ticks res [] decoder.

Definition machine (ticks : list Z) (res : list resource) : Machine :=
  mk_machine form_from_dfm (world ticks res).

(** A linear congruential sequence in place of the Mersenne Twister. *)
Definition lcg_output (seed : Z) (k : nat) : Z :=
  (seed * 1103515245 + 12345 * Z.of_nat (S k)) mod 2 ^ 32.

(** A distribution that uses one output per value. *)
Definition one_draw (a b : Z) (outputs : nat -> Z) : Z * nat :=
  (a + outputs O mod (b - a + 1), 1%nat).

(** A distribution that, like those of the common C++ libraries, asks the
    engine for nothing when the range holds one value only. *)
Definition lazy_draw (a b : Z) (outputs : nat -> Z) : Z * nat :=
  if Z.eqb a b then (a, 0%nat) else one_draw a b outputs.

(** The extraction of an archive whose only entry is [..\evil.txt]. *)
Definition dotdot_extraction : outcome bool * Machine :=
  ExtractZipToTemp (archive ["..\evil.txt"]) (machine [1000] []).

(** The extraction of an archive with [flag1.png] and one entry in a
    subdirectory. *)
Definition nested_extraction (nested : string) : outcome bool * Machine :=
  ExtractZipToTemp (archive ["flag1.png"; nested]) (machine [1000] []).

(** An archive whose second entry has a local header that cannot be
    read. *)
Definition damaged_archive : zip_image :=
  ZipArchive [mk_entry "a.png" (Stored payload); mk_entry "b.png" BadHeader].

(** A workspace that holds the three files [a.png], [b.PNG], [c.txt]. *)
Definition three_files : store :=
  disk ++
  [(["C:"; "Temp"; "ws"], Dir);
   (["C:"; "Temp"; "ws"; "a.png"], File payload);
   (["C:"; "Temp"; "ws"; "b.PNG"], File payload);
   (["C:"; "Temp"; "ws"; "c.txt"], File payload)].

Definition scanning_machine (s : store) (previous : list string) : Machine :=
  mk_machine (with_flagFiles (with_tempDirectory form_from_dfm "C:\Temp\ws") previous)
    (mk_world s [] "C:\Temp\" [] [] [] decoder).

(** A workspace that holds a text file only. *)
Definition text_only : store :=
  disk ++
  [(["C:"; "Temp"; "ws"], Dir);
   (["C:"; "Temp"; "ws"; "c.txt"], File payload)].

(** The workspace of [three_files] with [b.PNG] held open by another
    program. *)
Definition locked_machine : Machine :=
  mk_machine (with_tempDirectory form_from_dfm "C:\Temp\ws")
    (mk_world three_files [["C:"; "Temp"; "ws"; "b.PNG"]] "C:\Temp\" [] [] []
       decoder).

End Sample.

(* ================================================================== *)
(** ** Vocabulary of the statements *)

(** A computation that never lets an exception escape. *)
Definition returns {A} (c : M A) : Prop :=
  forall m, exists a, fst (c m) = Returned a.

(** A relation between the machine before and after that every run of the
    computation keeps. *)
Definition stable (R : Machine -> Machine -> Prop) {A} (c : M A) : Prop :=
  forall m, R m (snd (c m)).

Definition same_form (m m' : Machine) : Prop := this m' = this m.

Definition same_shown (m m' : Machine) : Prop :=
  shown (env m') = shown (env m).

(** The file system, its guarded locations and the form's [tempDirectory]
    are the same in both machines. *)
Definition same_workspace (m m' : Machine) : Prop :=
  fs (env m') = fs (env m)
  /\ guarded_locs (env m') = guarded_locs (env m)
  /\ tempDirectory (this m') = tempDirectory (this m).

Definition workspace_present (m : Machine) : bool :=
  (negb (Str.is_empty (tempDirectory (this m)))
   && Store.is_dir (fs (env m)) (Loc.of_path (tempDirectory (this m))))%bool.

(** The resource [FindResource(HInstance, MAKEINTRESOURCE(1), RT_RCDATA)]
    finds. *)
Definition embedded_resource (w : World) : option resource :=
  find (fun r => (Z.eqb (res_name r) (MAKEINTRESOURCE 1)
                  && Z.eqb (res_type r) RT_RCDATA)%bool) (resources w).

Definition after_message (m : Machine) (text : string) : Machine :=
  mk_machine (this m) (with_shown (env m) (shown (env m) ++ [text])).

(** The expression [ExtractZipToTemp] assigns to [tempDirectory]. *)
Definition workspace_name (root : string) (ticks : Z) : string :=
  (root ++ "FlagImages_" ++ IntToStr (static_cast_int ticks))%string.

(** The last name of that path: the fixed prefix and the tick count. *)
Definition workspace_leaf (ticks : Z) : string :=
  ("FlagImages_" ++ IntToStr (static_cast_int ticks))%string.

(** The reading [GetTickCount] gives in an environment, and the environment
    after it. *)
Definition tick_reading (w : World) : Z :=
  match tick_counts w with
  | [] => 0
  | t :: _ => t mod 2 ^ 32
  end.

Definition tick_env (w : World) : World :=
  match tick_counts w with
  | [] => w
  | _ :: later => with_tick_counts w later
  end.

Definition named_machine (m : Machine) : Machine :=
  mk_machine
    (with_tempDirectory (this m)
       (workspace_name (temp_path (env m)) (tick_reading (env m))))
    (tick_env (env m)).

(** The extensions the catalog accepts, as the specification lists them. *)
Definition image_extensions : list string := ["png"; "jpg"; "jpeg"; "bmp"; "gif"].

Definition is_wildcard (c : ascii) : bool :=
  (Ascii.eqb c "*"%char || Ascii.eqb c "?"%char)%bool.

(** No file below [root] has one of the catalogued extensions. *)
Definition no_image_files (s : store) (root : Loc.t) : Prop :=
  forall e,
    In e s ->
    Store.is_file_node (snd e) = true ->
    Loc.is_below root (fst e) = true ->
    ~ In (TPath.extension_of (last (fst e) "")) image_extensions.

(** The machine on which [InitializeApplication] calls
    [ExtractResourceAsZip]. *)
Definition extracting (m : Machine) : Machine :=
  mk_machine (with_Status (this m) "Status: Extracting resource...") (env m).

(** The entries below [root], each as the names that lead to it from [root]
    and whether it is a file. *)
Definition content_below (s : store) (root : Loc.t) : list (list string * bool) :=
  map (fun e => (skipn (length root) (fst e), Store.is_file_node (snd e)))
    (filter (fun e => Loc.is_below root (fst e)) s).

Definition listed (td pattern : string) (v : list string * bool) : list string :=
  if (snd v && matches_pattern pattern (last (fst v) ""))%bool
  then [fold_left TPath.Combine (fst v) td] else [].

(** An entry name that escapes the destination in the specification's
    sense: an absolute path, or a path with a [..] segment. *)
Definition escapes_destination (name : string) : bool :=
  (TPath.IsPathRooted name
   || existsb (String.eqb "..") (TPath.segments name))%bool.

(** A character that ends a path segment or a drive designator. *)
Definition is_sep_or_colon (c : ascii) : bool :=
  (TPath.is_sep c || Ascii.eqb c TPath.colon)%bool.

(** Characters that Windows refuses in a file name, besides the separators
    and the colon: the control characters, the quotation mark, [*], [<],
    [>], [?] and [|].  Characters outside ASCII are counted with them: how
    Windows folds their case is not modelled. *)
Definition is_reserved_char (c : ascii) : bool :=
  let n := nat_of_ascii c in
  (Nat.ltb n 32 || Nat.leb 127 n || Nat.eqb n 34 || Nat.eqb n 42
   || Nat.eqb n 60 || Nat.eqb n 62 || Nat.eqb n 63 || Nat.eqb n 124)%bool.

Definition is_dot_or_space (c : ascii) : bool :=
  (Ascii.eqb c TPath.dot || Ascii.eqb c " "%char)%bool.

(** The part of a file name before its first dot, and a string without the
    spaces at its end. *)
Fixpoint name_stem (s : string) : string :=
  match s with
  | EmptyString => EmptyString
  | String c s' => if Ascii.eqb c TPath.dot then EmptyString
                   else String c (name_stem s')
  end.

Fixpoint trim_end (s : string) : string :=
  match s with
  | EmptyString => EmptyString
  | String c s' =>
      match trim_end s' with
      | EmptyString => if Ascii.eqb c " "%char then EmptyString
                       else String c EmptyString
      | t => String c t
      end
  end.

(** The names Windows keeps for devices, with any extension. *)
Definition device_names : list string :=
  ["con"; "prn"; "aux"; "nul"; "conin$"; "conout$";
   "com0"; "com1"; "com2"; "com3"; "com4"; "com5"; "com6"; "com7"; "com8";
   "com9"; "lpt0"; "lpt1"; "lpt2"; "lpt3"; "lpt4"; "lpt5"; "lpt6"; "lpt7";
   "lpt8"; "lpt9"].

Definition is_device_name (n : string) : bool :=
  existsb (String.eqb (Str.lower (trim_end (name_stem n)))) device_names.

(** A name Windows creates as it is written: no reserved character, no dot
    or space at the end, not the name of a device. *)
Definition accepted_name (n : string) : bool :=
  (negb (Str.contains_char is_reserved_char n)
   && match Str.last_char n with
      | Some c => negb (is_dot_or_space c)
      | None => true
      end
   && negb (is_device_name n))%bool.

(** One segment of a path that Windows takes as it is written: not empty,
    without separator or colon, neither [.] nor [..], and an accepted
    name. *)
Definition segment_name (n : string) : Prop :=
  Str.is_empty n = false
  /\ Str.contains_char is_sep_or_colon n = false
  /\ String.eqb n "." = false
  /\ String.eqb n ".." = false
  /\ accepted_name n = true.

(** A plain file name: such a segment, of at most 40 characters, so that a
    path of a few of them below the temporary files root stays shorter
    than [MAX_PATH]. *)
Definition plain_name (n : string) : Prop :=
  segment_name n /\ (String.length n <= 40)%nat.

(** A temporary files root the methods can work below: no invalid
    character, at most 100 characters. *)
Definition usable_root (r : string) : Prop :=
  TPath.HasValidPathChars r = true /\ (String.length r <= 100)%nat.

(** Every directory on the way to [p], and [p] itself, exists. *)
Definition reachable (s : store) (p : Loc.t) : Prop :=
  forall k, (0 < k <= length p)%nat -> Store.is_dir s (firstn k p) = true.

(** What a press of the button leaves as it is: the catalog, the workspace
    path, the colour of the status line, the seed of the generator (the
    number of outputs it has produced can only grow), and the environment
    up to the messages shown. *)
Definition keeps_catalog (m m' : Machine) : Prop :=
  flagFiles (this m') = flagFiles (this m)
  /\ tempDirectory (this m') = tempDirectory (this m)
  /\ LabelStatus_Font_Color (this m') = LabelStatus_Font_Color (this m)
  /\ mt_seed (randomGenerator (this m')) = mt_seed (randomGenerator (this m))
  /\ (mt_calls (randomGenerator (this m))
      <= mt_calls (randomGenerator (this m')))%nat
  /\ fs (env m') = fs (env m)
  /\ tick_counts (env m') = tick_counts (env m)
  /\ resources (env m') = resources (env m).

(** The path [TDirectory::GetFiles] reports for an entry of the store that
    lies below [td]: [td] combined with the names that lead from it to the
    entry. *)
Definition reported_path (td : string) (e : Loc.t * node) : string :=
  fold_left TPath.Combine (skipn (length (Loc.of_path td)) (fst e)) td.

(** A file below [root] whose extension, in lower case, is [ext]. *)
Definition file_with_extension (root : Loc.t) (ext : string)
    (e : Loc.t * node) : bool :=
  (Store.is_file_node (snd e) && Loc.is_below root (fst e)
   && String.eqb (TPath.extension_of (last (fst e) "")) ext)%bool.

(** A file below [root] with one of the catalogued extensions. *)
Definition image_file (root : Loc.t) (e : Loc.t * node) : bool :=
  (Store.is_file_node (snd e) && Loc.is_below root (fst e)
   && existsb (String.eqb (TPath.extension_of (last (fst e) "")))
        image_extensions)%bool.

(** The bytes an entry leaves in its output file: all of them, or what
    was decompressed before the failure. *)
Definition entry_bytes (e : zip_entry) : list Byte.byte :=
  match entry_data e with
  | Stored d => d
  | BadData d => d
  | BadHeader => []
  end.

(** An entry whose data can be decompressed. *)
Definition intact (e : zip_entry) : Prop :=
  exists d, entry_data e = Stored d.

(** The file an entry stored under a plain name becomes in the directory
    [W]. *)
Definition extracted_file (W : Loc.t) (e : zip_entry) : Loc.t * node :=
  (W ++ [entry_name e], File (entry_bytes e)).

(** An archive without directories: every entry has a plain name and can be
    decompressed, and no two names are equal up to case. *)
Definition flat_archive (entries : list zip_entry) : Prop :=
  Forall (fun e => plain_name (entry_name e) /\ intact e) entries
  /\ NoDup (map (fun e => Str.lower (entry_name e)) entries).

(** The directory [ExtractZipToTemp] works in when the temporary files root
    is the directory [G\leaf]. *)
Definition workspace_loc (m : Machine) (G : Loc.t) (leaf : string) : Loc.t :=
  G ++ [leaf; workspace_leaf (tick_reading (env m))].

(** The environment in which a workspace can be set up: the temporary files
    root is [r\], the existing directory [G\leaf]; nothing exists at or
    below the workspace path yet, and nothing at or below it is guarded. *)
Definition fresh_workspace (m : Machine) (r : string) (G : Loc.t)
    (leaf : string) : Prop :=
  temp_path (env m) = (r ++ String TPath.backslash "")%string
  /\ Loc.of_path r = G ++ [leaf]
  /\ reachable (fs (env m)) (G ++ [leaf])
  /\ (forall e, In e (fs (env m)) ->
                Loc.is_prefix (workspace_loc m G leaf) (fst e) = false)
  /\ (forall p, Loc.is_prefix (workspace_loc m G leaf) p = true ->
                Store.guarded (guarded_locs (env m)) p = false).

(** Every directory of the first machine is a directory of the second. *)
Definition keeps_directories (m m' : Machine) : Prop :=
  forall q, Store.is_dir (fs (env m)) q = true ->
            Store.is_dir (fs (env m')) q = true.

(** Something keeps the directory [p] from being made: a file of that name,
    or a guard on the location. *)
Definition blocked (w : World) (p : Loc.t) : Prop :=
  (exists d, Store.lookup (fs w) p = Some (File d))
  \/ (Store.lookup (fs w) p = None
      /\ Store.guarded (guarded_locs w) p = true).

(** The machine on which the constructor calls [ExtractResourceAsZip]: the
    generator seeded with the tick count, [tempDirectory] emptied, the
    status line set. *)
Definition constructing (m0 : Machine) : Machine :=
  mk_machine
    (with_Status
       (with_tempDirectory
          (with_randomGenerator (this m0) (mk_mt (tick_reading (env m0)) 0))
          "")
       "Status: Extracting resource...")
    (tick_env (env m0)).

(** The executable carries the archive [entries] as its resource 1 of type
    RT_RCDATA, and the resource can be loaded and locked and is not
    empty. *)
Definition carries_archive (w : World) (entries : list zip_entry) : Prop :=
  exists h,
    embedded_resource w = Some h
    /\ res_loadable h = true
    /\ res_lockable h = true
    /\ res_size h <> 0
    /\ res_image h = ZipArchive entries.

(** An entry whose name has the extension [ext], and an entry whose name
    has one of the catalogued extensions. *)
Definition entry_with_extension (ext : string) (e : zip_entry) : bool :=
  String.eqb (TPath.extension_of (entry_name e)) ext.

Definition image_entry (e : zip_entry) : bool :=
  existsb (String.eqb (TPath.extension_of (entry_name e))) image_extensions.

(** [TPicture::LoadFromFile] succeeds for [path]: a graphic class is
    registered for the extension, the file exists and the class decodes
    it. *)
Definition can_load (w : World) (path : string) : bool :=
  (existsb (String.eqb (graphic_extension path)) graphic_extensions
   && match Store.lookup (fs w) (Loc.of_path path) with
      | Some (File data) => decodes w (graphic_extension path) data
      | _ => false
      end)%bool.

(** The text of the exception [TPicture::LoadFromFile] raises for a path it
    cannot load. *)
Definition load_failure (w : World) (path : string) : string :=
  if negb (existsb (String.eqb (graphic_extension path)) graphic_extensions)
  then ("Unknown picture file extension (." ++ graphic_extension path ++ ")")%string
  else
    match Store.lookup (fs w) (Loc.of_path path) with
    | Some (File _) => ("Cannot decode the image in " ++ path)%string
    | _ => ("Cannot open file " ++ path)%string
    end.

(** [TPicture::LoadFromFile] succeeds for the file an entry becomes: a
    graphic class is registered for the extension of its name and decodes
    its bytes. *)
Definition entry_loads (w : World) (e : zip_entry) : bool :=
  (existsb (String.eqb (TPath.extension_of (entry_name e))) graphic_extensions
   && decodes w (TPath.extension_of (entry_name e)) (entry_bytes e))%bool.

(** The catalog is not empty and every file in it can be loaded as a
    picture. *)
Definition catalog_on_disk (m : Machine) : Prop :=
  flagFiles (this m) <> []
  /\ forall f, In f (flagFiles (this m)) -> can_load (env m) f = true.

(** The form shows the file [f], at position [k] of a catalog of [N]. *)
Definition displays (m : Machine) (f : string) (k N : Z) : Prop :=
  ImageFlag_Picture (this m) = Some f
  /\ LabelFlagName_Caption (this m)
     = ("Flag: " ++ TPath.GetFileNameWithoutExtension f)%string
  /\ LabelStatus_Caption (this m)
     = ("Status: Displaying " ++ IntToStr k ++ "/" ++ IntToStr N
        ++ " flag")%string.

(** The environment in which an entry named [..\n] can be written above
    the temporary files root [G\leaf]: the root and the directory [G] above
    it exist, the root is no drive, the workspace is new and can be made,
    and a file [G\n], for a plain name [n], can be created. *)
Definition open_above (m : Machine) (r : string) (G : Loc.t)
    (leaf n : string) : Prop :=
  temp_path (env m) = (r ++ String TPath.backslash "")%string
  /\ usable_root r
  /\ Loc.of_path r = G ++ [leaf]
  /\ TPath.ends_with_colon leaf = false
  /\ reachable (fs (env m)) (G ++ [leaf])
  /\ Store.is_dir (fs (env m)) G = true
  /\ Store.lookup (fs (env m)) (workspace_loc m G leaf) = None
  /\ Store.guarded (guarded_locs (env m)) (workspace_loc m G leaf) = false
  /\ Store.is_dir (fs (env m)) (G ++ [n]) = false
  /\ Store.guarded (guarded_locs (env m)) (G ++ [n]) = false
  /\ plain_name n.

(** An entry name that stays in the destination: a relative path that is
    not empty and has no [..] segment. *)
Definition stays_inside (name : string) : Prop :=
  Str.is_empty name = false /\ escapes_destination name = false.

(** An exception that one of the library calls of the extraction raises,
    in some state of the machine. *)
Definition raised_by_library (zs : zip_image) (e : string) : Prop :=
  (exists m, fst (TZipFile.Open zs m) = Thrown e)
  \/ (exists path1 path2 m, fst (TPath_Combine path1 path2 m) = Thrown e)
  \/ (exists path m, fst (TDirectory.CreateDirectory path m) = Thrown e)
  \/ (exists z name path m, fst (TZipFile.Extract z name path m) = Thrown e).

(** No segment of the path is [..]. *)
Definition dotdot_free (s : string) : Prop :=
  Forall (fun x => x <> "..") (TPath.raw_split s).

(** [p] is [ws] or a path below it that has no [..]. *)
Definition inside (ws p : string) : Prop :=
  p = ws
  \/ exists t, p = (ws ++ String TPath.backslash t)%string /\ dotdot_free t.

(** The two stores hold the same entries outside [W]. *)
Definition same_outside (W : Loc.t) (s s' : store) : Prop :=
  forall e, Loc.is_prefix W (fst e) = false -> (In e s' <-> In e s).

(** What a computation does to the file system stays at or below [W], once
    [W] and the directories above it exist. *)
Definition confined (W : Loc.t) (m m' : Machine) : Prop :=
  reachable (fs (env m)) W ->
  reachable (fs (env m')) W
  /\ same_outside W (fs (env m)) (fs (env m')).

(* ================================================================== *)
(** * Properties *)

(** ** Running computations *)

Lemma bind_returned {A B} (c : M A) (k : A -> M B) m a m' :
  c m = (Returned a, m') -> bind c k m = k a m'.
Proof. intros H. unfold bind. rewrite H. reflexivity. Qed.

Lemma bind_thrown {A B} (c : M A) (k : A -> M B) m e m' :
  c m = (Thrown e, m') -> bind c k m = (Thrown e, m').
Proof. intros H. unfold bind. rewrite H. reflexivity. Qed.

Lemma try_catch_returned {A} (c : M A) h m a m' :
  c m = (Returned a, m') -> try_catch c h m = (Returned a, m').
Proof. intros H. unfold try_catch. rewrite H. reflexivity. Qed.

Lemma try_catch_thrown {A} (c : M A) h m e m' :
  c m = (Thrown e, m') -> try_catch c h m = h e m'.
Proof. intros H. unfold try_catch. rewrite H. reflexivity. Qed.

Lemma returns_ret {A} (a : A) : returns (ret a).
Proof. intros m. exists a. reflexivity. Qed.

Lemma returns_bind {A B} (c : M A) (k : A -> M B) :
  returns c -> (forall a, returns (k a)) -> returns (bind c k).
Proof.
  intros Hc Hk m. destruct (Hc m) as [a Ha].
  destruct (c m) as [o m'] eqn:E. simpl in Ha. subst o.
  rewrite (bind_returned _ _ _ _ _ E). apply Hk.
Qed.

Lemma returns_try_catch {A} (c : M A) h :
  (forall e, returns (h e)) -> returns (try_catch c h).
Proof.
  intros Hh m. unfold try_catch.
  destruct (c m) as [[a | e] m'].
  - exists a. reflexivity.
  - apply Hh.
Qed.

Lemma returns_update_this f : returns (update_this f).
Proof. intros m. exists tt. reflexivity. Qed.

Lemma returns_update_env f : returns (update_env f).
Proof. intros m. exists tt. reflexivity. Qed.

Lemma returns_get_this : returns get_this.
Proof. intros m. eexists. reflexivity. Qed.

Lemma returns_get_env : returns get_env.
Proof. intros m. eexists. reflexivity. Qed.

Lemma returns_ShowMessage text : returns (ShowMessage text).
Proof. apply returns_update_env. Qed.

Lemma returns_GetTickCount : returns GetTickCount.
Proof.
  intros m. unfold GetTickCount.
  destruct (tick_counts (env m)); eexists; reflexivity.
Qed.

Lemma returns_Exists path : returns (TDirectory.Exists path).
Proof. intros m. eexists. reflexivity. Qed.

Create HintDb returns.
#[local] Hint Resolve returns_ret returns_bind returns_try_catch
  returns_update_this returns_update_env returns_get_this returns_get_env
  returns_ShowMessage returns_GetTickCount returns_Exists : returns.

(** ** Relations kept by every step of a computation *)

Section Stable.

Variable R : Machine -> Machine -> Prop.
Hypothesis R_refl : forall m, R m m.
Hypothesis R_trans : forall a b c, R a b -> R b c -> R a c.

Lemma stable_ret {A} (a : A) : stable R (ret a).
Proof. intros m. apply R_refl. Qed.

Lemma stable_throw {A} e : stable R (@throw A e).
Proof. intros m. apply R_refl. Qed.

Lemma stable_get_this : stable R get_this.
Proof. intros m. apply R_refl. Qed.

Lemma stable_get_env : stable R get_env.
Proof. intros m. apply R_refl. Qed.

Lemma stable_bind {A B} (c : M A) (k : A -> M B) :
  stable R c -> (forall a, stable R (k a)) -> stable R (bind c k).
Proof.
  intros Hc Hk m. unfold bind. specialize (Hc m).
  destruct (c m) as [[a | e] m']; simpl in *.
  - eapply R_trans; [exact Hc | apply Hk].
  - exact Hc.
Qed.

Lemma stable_try_catch {A} (c : M A) h :
  stable R c -> (forall e, stable R (h e)) -> stable R (try_catch c h).
Proof.
  intros Hc Hh m. unfold try_catch. specialize (Hc m).
  destruct (c m) as [[a | e] m']; simpl in *.
  - exact Hc.
  - eapply R_trans; [exact Hc | apply Hh].
Qed.

Lemma stable_for_loop n body :
  (forall j, stable R (body j)) -> forall i, stable R (for_loop n i body).
Proof.
  intros Hb. induction n as [| n IH]; intros i; simpl.
  - apply stable_ret.
  - apply stable_bind; [apply Hb | intros _; apply IH].
Qed.

Lemma stable_if {A} (b : bool) (c1 c2 : M A) :
  stable R c1 -> stable R c2 -> stable R (if b then c1 else c2).
Proof. destruct b; auto. Qed.

End Stable.

(** ** Locations and the store *)

Lemma same_text_refl a : Str.same_text a a = true.
Proof. apply String.eqb_refl. Qed.

Lemma same_text_sym a b : Str.same_text a b = Str.same_text b a.
Proof. apply String.eqb_sym. Qed.

Lemma loc_eqb_refl p : Loc.eqb p p = true.
Proof. induction p; simpl; [reflexivity |]. now rewrite same_text_refl. Qed.

Lemma loc_eqb_sym p q : Loc.eqb p q = Loc.eqb q p.
Proof.
  revert q. induction p as [| x p IH]; intros [| y q]; simpl; try reflexivity.
  now rewrite same_text_sym, IH.
Qed.

Lemma loc_eqb_is_prefix p q : Loc.eqb p q = true -> Loc.is_prefix p q = true.
Proof.
  revert q. induction p as [| x p IH]; intros [| y q]; simpl; try easy.
  intros H. apply andb_true_iff in H as [H1 H2].
  now rewrite H1, IH.
Qed.

Lemma lookup_remove_tree p s : Store.lookup (Store.remove_tree p s) p = None.
Proof.
  unfold Store.lookup, Store.remove_tree.
  induction s as [| e s IH]; simpl; [reflexivity |].
  destruct (Loc.is_prefix p (fst e)) eqn:Hp; simpl; [exact IH |].
  destruct (Loc.eqb (fst e) p) eqn:He.
  - rewrite loc_eqb_sym in He. apply loc_eqb_is_prefix in He. congruence.
  - exact IH.
Qed.

Lemma is_dir_remove_tree p s : Store.is_dir (Store.remove_tree p s) p = false.
Proof. unfold Store.is_dir. now rewrite lookup_remove_tree. Qed.

(** ** C10: scanning without a directory *)

Lemma LoadFlagImages_without_directory_gen (m : Machine) :
  tempDirectory (this m) = "" \/
  Store.is_dir (fs (env m)) (Loc.of_path (tempDirectory (this m))) = false ->
  LoadFlagImages m
  = (Returned tt, mk_machine (with_flagFiles (this m) []) (env m)).
Proof.
  intros H. unfold LoadFlagImages, bind, update_this, get_this. simpl.
  destruct (tempDirectory (this m)) as [| c rest] eqn:Etd; simpl.
  - reflexivity.
  - destruct H as [H | H]; [discriminate |].
    unfold TDirectory.Exists, bind, get_env, ret. simpl.
    rewrite H. reflexivity.
Qed.

(** C10.  When [tempDirectory] is the empty string or names no existing
    directory, [LoadFlagImages] empties [flagFiles], whatever it held, and
    returns normally; the environment, and with it the list of shown
    messages, is untouched: no error is reported. *)
Theorem LoadFlagImages_without_directory (m : Machine) :
  tempDirectory (this m) = "" \/
  Store.is_dir (fs (env m)) (Loc.of_path (tempDirectory (this m))) = false ->
  LoadFlagImages m
  = (Returned tt, mk_machine (with_flagFiles (this m) []) (env m))
    /\ flagFiles (this (snd (LoadFlagImages m))) = []
    /\ shown (env (snd (LoadFlagImages m))) = shown (env m).
Proof.
  intros H. rewrite (LoadFlagImages_without_directory_gen m H).
  repeat split.
Qed.

(** C10 exercised: an empty [tempDirectory] with a catalog left over from an
    earlier scan. *)
Lemma LoadFlagImages_without_directory_witness :
  let m := mk_machine (with_flagFiles form_from_dfm ["old.png"])
             (Sample.world [] []) in
  LoadFlagImages m
  = (Returned tt, mk_machine (with_flagFiles (this m) []) (env m))
    /\ flagFiles (this (snd (LoadFlagImages m))) = []
    /\ shown (env (snd (LoadFlagImages m))) = shown (env m).
Proof.
  intros m. apply (LoadFlagImages_without_directory m). left. reflexivity.
Defined.

(** ** C6: cleanup *)

Lemma CleanupTempFiles_absent m :
  workspace_present m = false -> CleanupTempFiles m = (Returned tt, m).
Proof.
  unfold workspace_present, CleanupTempFiles, bind, get_this. simpl.
  destruct (tempDirectory (this m)) as [| c rest]; simpl; [reflexivity |].
  intros H. unfold TDirectory.Exists, bind, get_env, ret. simpl.
  rewrite H. reflexivity.
Qed.

Lemma CleanupTempFiles_present m :
  workspace_present m = true ->
  CleanupTempFiles m
  = try_catch (TDirectory.Delete (tempDirectory (this m)) true)
      (fun _ => ret tt) m.
Proof.
  unfold workspace_present, CleanupTempFiles, bind, get_this. simpl.
  destruct (tempDirectory (this m)) as [| c rest]; simpl; [discriminate |].
  intros H. unfold TDirectory.Exists, bind, get_env, ret. simpl.
  rewrite H. reflexivity.
Qed.

(** What [TDirectory::Delete] does to a machine whose workspace exists. *)
Lemma Delete_present m :
  workspace_present m = true ->
  let p := Loc.of_path (tempDirectory (this m)) in
  TDirectory.Delete (tempDirectory (this m)) true m
  = if Store.holds_guarded (guarded_locs (env m)) p (fs (env m))
    then (Thrown "Access is denied",
          mk_machine (this m)
            (with_fs (env m)
               (Store.remove_files_until_guarded (guarded_locs (env m)) p
                  (fs (env m)))))
    else (Returned tt,
          mk_machine (this m) (with_fs (env m) (Store.remove_tree p (fs (env m))))).
Proof.
  intros H p. unfold workspace_present in H.
  apply andb_true_iff in H as [Hne Hdir].
  unfold TDirectory.Delete, bind, get_env. simpl.
  apply negb_true_iff in Hne. subst p. rewrite Hne, Hdir. simpl.
  destruct (Store.holds_guarded _ _ _); reflexivity.
Qed.

(** C6.  [CleanupTempFiles] always returns normally, leaves the form as it
    is and shows no message.  It changes nothing when no workspace exists
    (an empty [tempDirectory] or no such directory); once the workspace has
    been removed a second call changes nothing; and an exception thrown by
    the recursive [TDirectory::Delete] does not leave the method. *)
Theorem CleanupTempFiles_idempotent_and_silent (m : Machine) :
  (exists m', CleanupTempFiles m = (Returned tt, m')
              /\ this m' = this m /\ shown (env m') = shown (env m))
  /\ (workspace_present m = false -> CleanupTempFiles m = (Returned tt, m))
  /\ (Store.holds_guarded (guarded_locs (env m))
        (Loc.of_path (tempDirectory (this m))) (fs (env m)) = false ->
      let m1 := snd (CleanupTempFiles m) in
      workspace_present m1 = false /\ CleanupTempFiles m1 = (Returned tt, m1))
  /\ (forall e m1,
        workspace_present m = true ->
        TDirectory.Delete (tempDirectory (this m)) true m = (Thrown e, m1) ->
        CleanupTempFiles m = (Returned tt, m1)).
Proof.
  assert (Hno : forall m0, workspace_present m0 = false ->
                 CleanupTempFiles m0 = (Returned tt, m0))
    by apply CleanupTempFiles_absent.
  destruct (workspace_present m) eqn:Hp.
  - pose proof (CleanupTempFiles_present m Hp) as Hc.
    pose proof (Delete_present m Hp) as Hd. simpl in Hd.
    repeat split.
    + rewrite Hc. unfold try_catch. rewrite Hd.
      destruct (Store.holds_guarded _ _ _); eexists; repeat split.
    + discriminate.
    + rewrite Hc. unfold try_catch. rewrite Hd. rewrite H. simpl.
      unfold workspace_present. simpl.
      rewrite is_dir_remove_tree. apply andb_false_r.
    + apply Hno. rewrite Hc. unfold try_catch. rewrite Hd. rewrite H. simpl.
      unfold workspace_present. simpl.
      rewrite is_dir_remove_tree. apply andb_false_r.
    + intros e m1 _ Hthrow. rewrite Hc. unfold try_catch. rewrite Hthrow.
      reflexivity.
  - repeat split.
    + exists m. rewrite (Hno m Hp). repeat split.
    + intros _. apply Hno, Hp.
    + rewrite (Hno m Hp). exact Hp.
    + rewrite (Hno m Hp). simpl. apply Hno, Hp.
    + discriminate.
Qed.

(** C6 exercised: no workspace at all; a workspace that is removed, after
    which a second call is a no-op; a workspace whose removal throws. *)
Lemma CleanupTempFiles_idempotent_and_silent_witness :
  CleanupTempFiles (Sample.machine [] []) = (Returned tt, Sample.machine [] [])
  /\ (let m1 := snd (CleanupTempFiles (Sample.scanning_machine Sample.three_files [])) in
      workspace_present m1 = false /\ CleanupTempFiles m1 = (Returned tt, m1))
  /\ CleanupTempFiles Sample.locked_machine
     = (Returned tt,
        snd (TDirectory.Delete "C:\Temp\ws" true Sample.locked_machine)).
Proof.
  split; [| split].
  - apply (proj1 (proj2
      (CleanupTempFiles_idempotent_and_silent (Sample.machine [] [])))).
    reflexivity.
  - apply (proj1 (proj2 (proj2
      (CleanupTempFiles_idempotent_and_silent
         (Sample.scanning_machine Sample.three_files []))))).
    reflexivity.
  - apply (proj2 (proj2 (proj2
      (CleanupTempFiles_idempotent_and_silent Sample.locked_machine)))
      "Access is denied").
    + reflexivity.
    + reflexivity.
Defined.

(** ** C5: reading the embedded resource *)

(** C5.  When the executable has no resource of identifier 1 and type
    RT_RCDATA, [ExtractResourceAsZip] shows "No suitable resource found in
    the executable" and returns false.  When the resource is found and
    loaded but cannot be locked, or its size is zero, it shows "Invalid
    resource data" and returns false.  In both cases the machine is
    otherwise unchanged: no directory is named or made and nothing is
    extracted. *)
Theorem ExtractResourceAsZip_resource_failures (m : Machine) :
  (embedded_resource (env m) = None ->
   ExtractResourceAsZip m
   = (Returned false,
      after_message m "No suitable resource found in the executable"))
  /\ (forall h,
        embedded_resource (env m) = Some h ->
        res_loadable h = true ->
        res_lockable h = false \/ res_size h = 0 ->
        ExtractResourceAsZip m
        = (Returned false, after_message m "Invalid resource data")).
Proof.
  unfold embedded_resource. split.
  - intros H. unfold ExtractResourceAsZip, try_catch, bind, FindResource,
      bind, get_env, ret. simpl. rewrite H. reflexivity.
  - intros h H Hload Hbad.
    unfold ExtractResourceAsZip, try_catch, bind, FindResource,
      bind, get_env, ret. simpl. rewrite H.
    unfold LoadResource, LockResource, SizeofResource. rewrite Hload.
    destruct (res_lockable h) eqn:Hlock; [| reflexivity].
    destruct Hbad as [Hbad | Hbad]; [discriminate |].
    rewrite Hbad. reflexivity.
Qed.

(** C5 exercised: an executable without resources, one whose resource cannot
    be locked, and one whose resource is empty. *)
Lemma ExtractResourceAsZip_resource_failures_witness :
  ExtractResourceAsZip (Sample.machine [5] [])
  = (Returned false,
     after_message (Sample.machine [5] [])
       "No suitable resource found in the executable")
  /\ (let m := Sample.machine [5]
                 [mk_resource 1 RT_RCDATA true false 4096 (Sample.archive ["a.png"])] in
      ExtractResourceAsZip m
      = (Returned false, after_message m "Invalid resource data"))
  /\ (let m := Sample.machine [5]
                 [mk_resource 1 RT_RCDATA true true 0 (Sample.archive ["a.png"])] in
      ExtractResourceAsZip m
      = (Returned false, after_message m "Invalid resource data")).
Proof.
  split; [| split].
  - apply (proj1 (ExtractResourceAsZip_resource_failures (Sample.machine [5] []))).
    reflexivity.
  - intros m.
    apply (proj2 (ExtractResourceAsZip_resource_failures m)
             (mk_resource 1 RT_RCDATA true false 4096 (Sample.archive ["a.png"]))).
    + reflexivity.
    + reflexivity.
    + left. reflexivity.
  - intros m.
    apply (proj2 (ExtractResourceAsZip_resource_failures m)
             (mk_resource 1 RT_RCDATA true true 0 (Sample.archive ["a.png"]))).
    + reflexivity.
    + reflexivity.
    + right. reflexivity.
Defined.

(** ** Loading a picture *)

Lemma Picture_LoadFromFile_loaded path m :
  can_load (env m) path = true ->
  Picture_LoadFromFile path m
  = (Returned tt, mk_machine (with_Picture (this m) (Some path)) (env m)).
Proof.
  unfold can_load, Picture_LoadFromFile, bind, get_env. cbn [fst snd].
  intros H. apply andb_true_iff in H as [Hext Hfile]. rewrite Hext.
  cbn [negb].
  destruct (Store.lookup (fs (env m)) (Loc.of_path path)) as [[| data] |];
    try discriminate.
  rewrite Hfile. reflexivity.
Qed.

Lemma Picture_LoadFromFile_failed path m :
  can_load (env m) path = false ->
  Picture_LoadFromFile path m = (Thrown (load_failure (env m) path), m).
Proof.
  unfold can_load, load_failure, Picture_LoadFromFile, bind, get_env.
  cbn [fst snd]. intros H.
  destruct (existsb _ graphic_extensions); cbn [negb andb] in *;
    [| reflexivity].
  destruct (Store.lookup (fs (env m)) (Loc.of_path path)) as [[| data] |];
    try reflexivity.
  now rewrite H.
Qed.

(** ** C8: the selector *)

Section Selector.

Variable mt_output : Z -> nat -> Z.
Variable uniform_int_distribution : Z -> Z -> (nat -> Z) -> Z * nat.

(** What the C++ standard promises of [uniform_int_distribution]: a value
    within the bounds.  How many outputs of the engine a value costs is left
    to the library. *)
Hypothesis distribution_in_range :
  forall a b outputs,
    a <= b -> a <= fst (uniform_int_distribution a b outputs) <= b.

(** C8, as the code has it.  With an empty catalog [ShowRandomFlag] raises
    nothing: it sets the caption "No flag images available" and returns;
    no index is chosen and the generator is not touched.  With [N >= 1]
    files the chosen index lies in [[0, N)] and is 0 when [N = 1].  The
    generator kept in the form has the same seed and has produced as many
    further outputs as the distribution used, so never fewer than before;
    [ShowRandomFlag] keeps that generator and, when the chosen file can be
    loaded, reports position [index + 1] of [N]. *)
Theorem ShowRandomFlag_selection (m : Machine) :
  let N := Z.of_nat (length (flagFiles (this m))) in
  let outputs :=
    fun i => mt_output (mt_seed (randomGenerator (this m)))
               (mt_calls (randomGenerator (this m)) + i)%nat in
  (N = 0 ->
   ShowRandomFlag mt_output uniform_int_distribution m
   = (Returned tt,
      mk_machine (with_FlagName (this m) "No flag images available") (env m)))
  /\ (1 <= N ->
      exists index g,
        pick_index mt_output uniform_int_distribution m
        = (Returned index,
           mk_machine (with_randomGenerator (this m) g) (env m))
        /\ 0 <= index < N
        /\ (N = 1 -> index = 0)
        /\ mt_seed g = mt_seed (randomGenerator (this m))
        /\ mt_calls g
           = (mt_calls (randomGenerator (this m))
              + snd (uniform_int_distribution 0 (N - 1) outputs))%nat
        /\ (mt_calls (randomGenerator (this m)) <= mt_calls g)%nat
        /\ randomGenerator
             (this (snd (ShowRandomFlag mt_output uniform_int_distribution m)))
           = g
        /\ (can_load (env m) (nth (Z.to_nat index) (flagFiles (this m)) "")
            = true ->
            LabelStatus_Caption
              (this (snd (ShowRandomFlag mt_output uniform_int_distribution m)))
            = ("Status: Displaying " ++ IntToStr (index + 1) ++ "/"
               ++ IntToStr N ++ " flag")%string)).
Proof.
  intros N outs. split.
  - intros HN. unfold ShowRandomFlag, bind, get_this. simpl.
    destruct (flagFiles (this m)) as [| x l]; [reflexivity |].
    subst N. simpl in HN. lia.
  - intros HN.
    assert (Hrange := distribution_in_range 0 (N - 1) outs ltac:(lia)).
    destruct (uniform_int_distribution 0 (N - 1) outs) as [v used] eqn:Eu.
    simpl in Hrange.
    exists v, (mk_mt (mt_seed (randomGenerator (this m)))
                 (mt_calls (randomGenerator (this m)) + used)).
    assert (Hpick :
      pick_index mt_output uniform_int_distribution m
      = (Returned v,
         mk_machine
           (with_randomGenerator (this m)
              (mk_mt (mt_seed (randomGenerator (this m)))
                 (mt_calls (randomGenerator (this m)) + used)))
           (env m))).
    { unfold pick_index, bind, get_this, dist_call. simpl.
      fold N. fold outs. rewrite Eu. reflexivity. }
    split; [exact Hpick |].
    split; [lia |].
    split; [lia |].
    split; [reflexivity |].
    split; [reflexivity |].
    split; [simpl; lia |].
    assert (Hne : exists x l, flagFiles (this m) = x :: l).
    { destruct (flagFiles (this m)) as [| x l] eqn:E; [| eauto].
      subst N. simpl in HN. lia. }
    destruct Hne as (x & l & Hfl).
    set (chosen := nth (Z.to_nat v) (flagFiles (this m)) "").
    set (m1 := mk_machine
                 (with_randomGenerator (this m)
                    (mk_mt (mt_seed (randomGenerator (this m)))
                       (mt_calls (randomGenerator (this m)) + used)))
                 (env m)) in *.
    assert (Hshow :
      ShowRandomFlag mt_output uniform_int_distribution m
      = try_catch
          (Picture_LoadFromFile chosen ;;
           update_this (fun f =>
             with_FlagName f
               ("Flag: " ++ TPath.GetFileNameWithoutExtension chosen)%string) ;;
           update_this (fun f =>
             with_Status f
               ("Status: Displaying " ++ IntToStr (v + 1) ++ "/"
                ++ IntToStr (Z.of_nat (length (flagFiles f))) ++ " flag")%string))
          (fun e =>
             ShowMessage ("Error displaying image: " ++ e)%string ;;
             update_this (fun f => with_FlagName f "Image loading failed"))
          m1).
    { unfold ShowRandomFlag, bind at 1, get_this. cbn [fst snd].
      rewrite Hfl. rewrite <- Hfl. unfold try_catch.
      rewrite (bind_returned _ _ _ _ _ Hpick). reflexivity. }
    split.
    + rewrite Hshow. unfold try_catch.
      destruct (can_load (env m) chosen) eqn:Hload.
      * rewrite (bind_returned _ _ _ _ _
                   (Picture_LoadFromFile_loaded chosen m1 Hload)).
        reflexivity.
      * rewrite (bind_thrown _ _ _ _ _
                   (Picture_LoadFromFile_failed chosen m1 Hload)).
        reflexivity.
    + intros Hload. rewrite Hshow. unfold try_catch.
      rewrite (bind_returned _ _ _ _ _
                 (Picture_LoadFromFile_loaded chosen m1 Hload)).
      reflexivity.
Qed.

End Selector.

Lemma one_draw_in_range a b outputs :
  a <= b -> a <= fst (Sample.one_draw a b outputs) <= b.
Proof.
  intros H. unfold Sample.one_draw. simpl.
  pose proof (Z.mod_pos_bound (outputs O) (b - a + 1) ltac:(lia)). lia.
Qed.

Lemma lazy_draw_in_range a b outputs :
  a <= b -> a <= fst (Sample.lazy_draw a b outputs) <= b.
Proof.
  intros H. unfold Sample.lazy_draw.
  destruct (Z.eqb a b); [simpl; lia | now apply one_draw_in_range].
Qed.

(** C8 exercised: a catalog of three files with a distribution that draws
    once, a catalog of one file with a distribution that draws nothing for
    one value, and an empty catalog. *)
Lemma ShowRandomFlag_selection_witness :
  (let m := Sample.scanning_machine Sample.three_files
              ["C:\Temp\ws\a.png"; "C:\Temp\ws\b.PNG"; "C:\Temp\ws\c.txt"] in
   exists index g,
     pick_index Sample.lcg_output Sample.one_draw m
     = (Returned index, mk_machine (with_randomGenerator (this m) g) (env m))
     /\ 0 <= index < 3
     /\ (3 = 1 -> index = 0)
     /\ mt_seed g = mt_seed (randomGenerator (this m))
     /\ mt_calls g = 1%nat
     /\ (mt_calls (randomGenerator (this m)) <= mt_calls g)%nat
     /\ randomGenerator
          (this (snd (ShowRandomFlag Sample.lcg_output Sample.one_draw m))) = g
     /\ (can_load (env m) (nth (Z.to_nat index) (flagFiles (this m)) "") = true ->
         LabelStatus_Caption
           (this (snd (ShowRandomFlag Sample.lcg_output Sample.one_draw m)))
         = ("Status: Displaying " ++ IntToStr (index + 1) ++ "/"
            ++ IntToStr 3 ++ " flag")%string))
  /\ (let m := Sample.scanning_machine Sample.three_files ["C:\Temp\ws\a.png"] in
      exists index g,
        pick_index Sample.lcg_output Sample.lazy_draw m
        = (Returned index, mk_machine (with_randomGenerator (this m) g) (env m))
        /\ 0 <= index < 1
        /\ (1 = 1 -> index = 0)
        /\ mt_seed g = mt_seed (randomGenerator (this m))
        /\ mt_calls g = 0%nat
        /\ (mt_calls (randomGenerator (this m)) <= mt_calls g)%nat
        /\ randomGenerator
             (this (snd (ShowRandomFlag Sample.lcg_output Sample.lazy_draw m))) = g
        /\ (can_load (env m) (nth (Z.to_nat index) (flagFiles (this m)) "") = true ->
            LabelStatus_Caption
              (this (snd (ShowRandomFlag Sample.lcg_output Sample.lazy_draw m)))
            = ("Status: Displaying " ++ IntToStr (index + 1) ++ "/"
               ++ IntToStr 1 ++ " flag")%string))
  /\ (let m := Sample.scanning_machine Sample.three_files [] in
      ShowRandomFlag Sample.lcg_output Sample.one_draw m
      = (Returned tt,
         mk_machine (with_FlagName (this m) "No flag images available") (env m))).
Proof.
  split; [| split].
  - intros m.
    apply (proj2 (ShowRandomFlag_selection Sample.lcg_output Sample.one_draw
                    one_draw_in_range m)).
    simpl. lia.
  - intros m.
    apply (proj2 (ShowRandomFlag_selection Sample.lcg_output Sample.lazy_draw
                    lazy_draw_in_range m)).
    simpl. lia.
  - intros m.
    apply (proj1 (ShowRandomFlag_selection Sample.lcg_output Sample.one_draw
                    one_draw_in_range m)).
    reflexivity.
Defined.

(** C8 refuted as stated.  With an empty catalog the method raises nothing:
    it returns after setting the caption.  With a catalog of one file, and a
    distribution that keeps within its bounds and, as the common C++
    libraries do, draws nothing when the bounds are equal, the file is
    chosen and shown, and the generator is in the state it was in before
    the call. *)
Lemma selection_among_one_leaves_the_generator :
  (fst (ShowRandomFlag Sample.lcg_output Sample.lazy_draw
          (Sample.scanning_machine Sample.three_files []))
   = Returned tt
   /\ LabelFlagName_Caption
        (this (snd (ShowRandomFlag Sample.lcg_output Sample.lazy_draw
                      (Sample.scanning_machine Sample.three_files []))))
      = "No flag images available")
  /\ (forall a b outputs,
        a <= b -> a <= fst (Sample.lazy_draw a b outputs) <= b)
  /\ length (flagFiles (this (Sample.scanning_machine Sample.three_files
                                ["C:\Temp\ws\a.png"]))) = 1%nat
  /\ fst (pick_index Sample.lcg_output Sample.lazy_draw
            (Sample.scanning_machine Sample.three_files ["C:\Temp\ws\a.png"]))
     = Returned 0
  /\ fst (ShowRandomFlag Sample.lcg_output Sample.lazy_draw
            (Sample.scanning_machine Sample.three_files ["C:\Temp\ws\a.png"]))
     = Returned tt
  /\ ImageFlag_Picture
       (this (snd (ShowRandomFlag Sample.lcg_output Sample.lazy_draw
                     (Sample.scanning_machine Sample.three_files
                        ["C:\Temp\ws\a.png"]))))
     = Some "C:\Temp\ws\a.png"
  /\ randomGenerator
       (this (snd (ShowRandomFlag Sample.lcg_output Sample.lazy_draw
                     (Sample.scanning_machine Sample.three_files
                        ["C:\Temp\ws\a.png"]))))
     = randomGenerator
         (this (Sample.scanning_machine Sample.three_files ["C:\Temp\ws\a.png"])).
Proof.
  split; [vm_compute; split; reflexivity |].
  split; [exact lazy_draw_in_range |]. vm_compute. repeat split.
Qed.

(** ** What the library calls leave alone *)

Lemma same_form_refl m : same_form m m.
Proof. reflexivity. Qed.

Lemma same_form_trans a b c : same_form a b -> same_form b c -> same_form a c.
Proof. unfold same_form. congruence. Qed.

Lemma same_shown_refl m : same_shown m m.
Proof. reflexivity. Qed.

Lemma same_shown_trans a b c :
  same_shown a b -> same_shown b c -> same_shown a c.
Proof. unfold same_shown. congruence. Qed.

(** Decomposes a goal [stable R c] along the structure of [c]; [leaf] closes
    what remains at the state-changing primitives. *)
Ltac unfold_library :=
  progress unfold TDirectory.Exists, TDirectory.CreateDirectory,
    TDirectory.Delete, TDirectory.GetFiles, TFileStream_Create_Write,
    TZipFile.Open, TZipFile.Extract, TZipFile.decompress_to, TPath_Combine,
    GetTempPath, FindResource, WriteBuffer.

Ltac stable_walk Hrefl Htrans leaf :=
  repeat
    (intros;
     lazymatch goal with
     | |- stable _ (ret _) => apply stable_ret; exact Hrefl
     | |- stable _ (throw _) => apply stable_throw; exact Hrefl
     | |- stable _ get_this => apply stable_get_this; exact Hrefl
     | |- stable _ get_env => apply stable_get_env; exact Hrefl
     | |- stable _ (bind _ _) => apply stable_bind; [exact Htrans | |]
     | |- stable _ (try_catch _ _) =>
         apply stable_try_catch; [exact Htrans | |]
     | |- stable _ (for_loop _ _ _) =>
         apply stable_for_loop; [exact Hrefl | exact Htrans |]
     | |- stable _ (if ?b then _ else _) => destruct b
     | |- stable _ (match ?x with _ => _ end) => destruct x
     | |- stable _ _ => first [leaf | unfold_library]
     end).

Lemma same_form_update_env f : stable same_form (update_env f).
Proof. intros m. reflexivity. Qed.

Lemma same_form_ShowMessage text : stable same_form (ShowMessage text).
Proof. apply same_form_update_env. Qed.

Lemma same_form_GetTickCount : stable same_form GetTickCount.
Proof.
  intros m. unfold GetTickCount. destruct (tick_counts (env m)); reflexivity.
Qed.

Lemma same_shown_update_this f : stable same_shown (update_this f).
Proof. intros m. reflexivity. Qed.

Lemma same_shown_with_fs (g : World -> store) :
  stable same_shown (update_env (fun w => with_fs w (g w))).
Proof. intros m. reflexivity. Qed.

Lemma same_shown_GetTickCount : stable same_shown GetTickCount.
Proof.
  intros m. unfold GetTickCount. destruct (tick_counts (env m)); reflexivity.
Qed.

Lemma same_form_create_temp_directory : stable same_form create_temp_directory.
Proof.
  unfold create_temp_directory.
  stable_walk same_form_refl same_form_trans
    ltac:(first [apply same_form_ShowMessage | apply same_form_update_env]).
Qed.

Lemma same_form_extract_entry z i : stable same_form (extract_entry z i).
Proof.
  unfold extract_entry.
  stable_walk same_form_refl same_form_trans
    ltac:(first [apply same_form_ShowMessage | apply same_form_update_env]).
Qed.

Lemma same_form_extract_all_entries zs :
  stable same_form (extract_all_entries zs).
Proof.
  unfold extract_all_entries.
  stable_walk same_form_refl same_form_trans
    ltac:(first [apply same_form_extract_entry | apply same_form_ShowMessage
                | apply same_form_update_env]).
Qed.

Lemma same_shown_extract_entry z i : stable same_shown (extract_entry z i).
Proof.
  unfold extract_entry.
  stable_walk same_shown_refl same_shown_trans
    ltac:(first [apply same_shown_with_fs | apply same_shown_update_this]).
Qed.

(** ** C7: the name of the workspace *)

Lemma ExtractZipToTemp_unfold zs m :
  ExtractZipToTemp zs m
  = try_catch
      (early <- create_temp_directory ;;
       match early with
       | Some r => ret r
       | None => extract_all_entries zs
       end)
      (fun e =>
         ShowMessage ("Error creating temporary directory: " ++ e)%string ;;
         ret false)
      (named_machine m).
Proof.
  unfold ExtractZipToTemp, named_machine, tick_reading, tick_env,
    workspace_name.
  unfold try_catch at 1. unfold bind at 1. unfold GetTempPath at 1.
  unfold bind at 1. unfold get_env at 1. unfold ret at 1.
  unfold bind at 1. unfold GetTickCount at 1.
  destruct (tick_counts (env m)) as [| t later]; reflexivity.
Qed.

Lemma same_form_after_naming zs :
  stable same_form
    (try_catch
       (early <- create_temp_directory ;;
        match early with
        | Some r => ret r
        | None => extract_all_entries zs
        end)
       (fun e =>
          ShowMessage ("Error creating temporary directory: " ++ e)%string ;;
          ret false)).
Proof.
  stable_walk same_form_refl same_form_trans
    ltac:(first [apply same_form_create_temp_directory
                | apply same_form_extract_all_entries
                | apply same_form_ShowMessage]).
Qed.

(** The only field of the form [ExtractZipToTemp] changes is
    [tempDirectory]. *)
Lemma ExtractZipToTemp_form zs m :
  this (snd (ExtractZipToTemp zs m)) = this (named_machine m).
Proof.
  rewrite ExtractZipToTemp_unfold. apply same_form_after_naming.
Qed.

Lemma append_inj_l (a b c : string) : (a ++ b = a ++ c)%string -> b = c.
Proof.
  induction a as [| x a IH]; simpl; intros H; [exact H |].
  injection H as H. auto.
Qed.

Lemma IntToStr_inj x y : IntToStr x = IntToStr y -> x = y.
Proof.
  unfold IntToStr. intros H.
  apply DecimalZ.to_int_inj.
  pose proof (NilEmpty.isi (Z.to_int x)) as Hx.
  pose proof (NilEmpty.isi (Z.to_int y)) as Hy.
  rewrite H in Hx. congruence.
Qed.

Lemma static_cast_int_congruent x y :
  static_cast_int x = static_cast_int y <-> x mod 2 ^ 32 = y mod 2 ^ 32.
Proof.
  unfold static_cast_int. split; intros H.
  - assert (H' : (x + 2 ^ 31) mod 2 ^ 32 = (y + 2 ^ 31) mod 2 ^ 32) by lia.
    assert (E : forall z,
              z mod 2 ^ 32 = ((z + 2 ^ 31) mod 2 ^ 32 + 2 ^ 31) mod 2 ^ 32).
    { intros z. rewrite Z.add_mod_idemp_l by lia.
      replace (z + 2 ^ 31 + 2 ^ 31) with (z + 1 * 2 ^ 32) by lia.
      now rewrite Z.mod_add by lia. }
    rewrite (E x), (E y), H'. reflexivity.
  - rewrite <- (Z.add_mod_idemp_l x) by lia.
    rewrite <- (Z.add_mod_idemp_l y) by lia.
    rewrite H. reflexivity.
Qed.

(** [ExtractZipToTemp] sets [tempDirectory] to the temporary files root
    followed by the fixed prefix [FlagImages_] and the decimal rendering of
    the tick count read at that moment, taken as a signed 32-bit integer.
    For one root, two names are equal exactly when the two tick counts agree
    modulo 2^32. *)
Lemma workspace_named_by_tick :
  (forall zs m,
     tempDirectory (this (snd (ExtractZipToTemp zs m)))
     = (temp_path (env m) ++ "FlagImages_"
        ++ IntToStr (static_cast_int (tick_reading (env m))))%string)
  /\ (forall root t1 t2,
        workspace_name root t1 = workspace_name root t2
        <-> t1 mod 2 ^ 32 = t2 mod 2 ^ 32).
Proof.
  split.
  - intros zs m. rewrite ExtractZipToTemp_form. reflexivity.
  - intros root t1 t2. rewrite <- static_cast_int_congruent.
    unfold workspace_name. split; intros H.
    + apply append_inj_l in H. apply append_inj_l in H.
      now apply IntToStr_inj.
    + now rewrite H.
Qed.

(** C7 at two instances of the application that read the same value of the
    millisecond counter.  The tick count is the only part of the name that
    varies, so both instances extract, successfully, into one and the same
    directory, and the cleanup of the first removes the workspace of the
    second: the name does not keep concurrent instances apart. *)
Theorem concurrent_instances_share_workspace :
  let first :=
    ExtractZipToTemp (Sample.archive ["a.png"])
      (mk_machine form_from_dfm (Sample.world [7000; 7000] [])) in
  let second :=
    ExtractZipToTemp (Sample.archive ["b.png"])
      (mk_machine form_from_dfm (env (snd first))) in
  let first_closed :=
    CleanupTempFiles (mk_machine (this (snd first)) (env (snd second))) in
  fst first = Returned true
  /\ fst second = Returned true
  /\ tempDirectory (this (snd first)) = tempDirectory (this (snd second))
  /\ workspace_present (snd second) = true
  /\ workspace_present
       (mk_machine (this (snd second)) (env (snd first_closed))) = false.
Proof. vm_compute. repeat split. Qed.

(** ** The scan: what [LoadFlagImages] collects *)

Lemma machine_eta m : mk_machine (this m) (env m) = m.
Proof. destruct m. reflexivity. Qed.

Lemma with_flagFiles_same f : with_flagFiles f (flagFiles f) = f.
Proof. destruct f. reflexivity. Qed.

(** The inner loop appends the files found, in order. *)
Lemma push_back_loop files :
  forall done m,
    for_loop (length files) (length done)
      (fun j =>
         update_this (fun f =>
           with_flagFiles f (flagFiles f ++ [nth j (done ++ files) ""]))) m
    = (Returned tt,
       mk_machine (with_flagFiles (this m) (flagFiles (this m) ++ files))
         (env m)).
Proof.
  induction files as [| x files IH]; intros done m; simpl.
  - unfold ret. rewrite app_nil_r, with_flagFiles_same, machine_eta.
    reflexivity.
  - unfold bind at 1. unfold update_this at 1.
    rewrite nth_middle.
    replace (S (length done)) with (length (done ++ [x]))
      by (rewrite length_app; simpl; lia).
    replace (done ++ x :: files) with ((done ++ [x]) ++ files)
      by (rewrite <- app_assoc; reflexivity).
    rewrite IH. simpl. rewrite <- app_assoc. reflexivity.
Qed.

(** The outer loop visits the patterns in order. *)
Lemma scan_loop td pats :
  forall done m,
    Str.is_empty td = false ->
    Store.is_dir (fs (env m)) (Loc.of_path td) = true ->
    for_loop (length pats) (length done)
      (fun i =>
         files <- TDirectory.GetFiles td (nth i (done ++ pats) "") ;;
         for_loop (length files) 0 (fun j =>
           update_this (fun f =>
             with_flagFiles f (flagFiles f ++ [nth j files ""])))) m
    = (Returned tt,
       mk_machine
         (with_flagFiles (this m)
            (flagFiles (this m)
             ++ flat_map (TDirectory.files_below (fs (env m)) td) pats))
         (env m)).
Proof.
  induction pats as [| pat pats IH]; intros done m Hne Hdir; simpl.
  - unfold ret. rewrite app_nil_r, with_flagFiles_same, machine_eta.
    reflexivity.
  - unfold bind at 1. unfold bind at 1.
    unfold TDirectory.GetFiles at 1. unfold bind at 1, get_env at 1.
    rewrite Hne, Hdir. cbn [orb negb]. unfold ret at 1.
    rewrite nth_middle.
    pose proof (push_back_loop
                  (TDirectory.files_below (fs (env m)) td pat) [] m) as Hl.
    simpl in Hl. rewrite Hl. clear Hl.
    replace (S (length done)) with (length (done ++ [pat]))
      by (rewrite length_app; simpl; lia).
    replace (done ++ pat :: pats) with ((done ++ [pat]) ++ pats)
      by (rewrite <- app_assoc; reflexivity).
    rewrite IH by assumption. simpl. rewrite <- app_assoc. reflexivity.
Qed.

Lemma LoadFlagImages_present m :
  workspace_present m = true ->
  LoadFlagImages m
  = (Returned tt,
     mk_machine
       (with_flagFiles (this m)
          (flat_map
             (TDirectory.files_below (fs (env m)) (tempDirectory (this m)))
             extensions))
       (env m)).
Proof.
  unfold workspace_present. intros H.
  apply andb_true_iff in H as [Hne Hdir]. apply negb_true_iff in Hne.
  unfold LoadFlagImages.
  set (m1 := mk_machine (with_flagFiles (this m) []) (env m)).
  rewrite (bind_returned _ _ m tt m1) by reflexivity.
  rewrite (bind_returned _ _ m1 (this m1) m1) by reflexivity.
  rewrite (bind_returned _ _ m1 true m1).
  2:{ change (tempDirectory (this m1)) with (tempDirectory (this m)).
      rewrite Hne. unfold TDirectory.Exists, bind, get_env, ret.
      change (fs (env m1)) with (fs (env m)). now rewrite Hne, Hdir. }
  cbn [negb]. unfold try_catch.
  pose proof (scan_loop (tempDirectory (this m)) extensions [] m1 Hne Hdir)
    as Hl.
  change (length (@nil string)) with O in Hl.
  change ([] ++ extensions) with extensions in Hl.
  change (tempDirectory (this m1)) with (tempDirectory (this m)).
  rewrite Hl. reflexivity.
Qed.

(** Whatever the state, the scan returns normally, changes [flagFiles] only,
    and leaves the environment alone. *)
Lemma LoadFlagImages_effect m :
  exists l,
    LoadFlagImages m
    = (Returned tt, mk_machine (with_flagFiles (this m) l) (env m)).
Proof.
  destruct (workspace_present m) eqn:Hp.
  - eexists. apply LoadFlagImages_present, Hp.
  - exists []. apply LoadFlagImages_without_directory_gen.
    unfold workspace_present in Hp.
    destruct (tempDirectory (this m)); [now left | right].
    exact Hp.
Qed.

(** ** Patterns and extensions *)

Lemma eqb_dot_lower_char c :
  Ascii.eqb TPath.dot (Str.lower_char c) = Ascii.eqb TPath.dot c.
Proof. destruct c as [[] [] [] [] [] [] [] []]; reflexivity. Qed.

Lemma contains_dot_lower s :
  Str.contains_char (Ascii.eqb TPath.dot) (Str.lower s)
  = Str.contains_char (Ascii.eqb TPath.dot) s.
Proof.
  induction s as [| c s IH]; cbn [Str.contains_char Str.lower];
    [reflexivity |].
  now rewrite eqb_dot_lower_char, IH.
Qed.

Lemma matches_star p n :
  matches_pattern (String "*" p) n = true ->
  exists pre t, n = (pre ++ t)%string /\ matches_pattern p t = true.
Proof.
  induction n as [| c n IH]; intros H.
  - exists "", "". split; [reflexivity |].
    simpl in H. now rewrite orb_false_r in H.
  - change (matches_pattern (String "*" p) (String c n))
      with (matches_pattern p (String c n)
            || matches_pattern (String "*" p) n)%bool in H.
    apply orb_true_iff in H as [H | H].
    + exists "", (String c n). split; [reflexivity | exact H].
    + destruct (IH H) as (pre & t & -> & Ht).
      exists (String c pre), t. split; [reflexivity | exact Ht].
Qed.

Lemma matches_literal p :
  Str.contains_char is_wildcard p = false ->
  forall t, matches_pattern p t = true -> Str.lower t = Str.lower p.
Proof.
  induction p as [| c p IH]; intros Hlit t H.
  - destruct t; [reflexivity | discriminate].
  - simpl in Hlit. apply orb_false_iff in Hlit as [Hc Hp].
    unfold is_wildcard in Hc. apply orb_false_iff in Hc as [Hstar Hq].
    simpl in H. rewrite Hstar in H.
    destruct t as [| d t]; [discriminate |].
    rewrite Hq in H. simpl in H.
    apply andb_true_iff in H as [Hcd Ht].
    unfold Str.char_eqb_ci in Hcd. apply Ascii.eqb_eq in Hcd.
    simpl. rewrite Hcd. f_equal. now apply IH.
Qed.

Lemma extension_of_suffix ext c t :
  Str.lower (String c t) = String TPath.dot ext ->
  Str.contains_char (Ascii.eqb TPath.dot) ext = false ->
  forall pre, TPath.extension_of (pre ++ String c t) = ext.
Proof.
  intros Hlow Hext. cbn [Str.lower] in Hlow. injection Hlow as Hc Ht.
  assert (Hdot : Ascii.eqb TPath.dot c = true).
  { rewrite <- eqb_dot_lower_char, Hc. apply Ascii.eqb_refl. }
  assert (Hnone : Str.contains_char (Ascii.eqb TPath.dot) t = false).
  { rewrite <- contains_dot_lower, Ht. exact Hext. }
  assert (Hsome : forall pre,
            Str.contains_char (Ascii.eqb TPath.dot)
              (pre ++ String c t)%string = true).
  { induction pre as [| x pre IH];
      cbn [String.append Str.contains_char].
    - now rewrite Hdot.
    - rewrite IH. apply orb_true_r. }
  induction pre as [| x pre IH].
  - cbn [String.append TPath.extension_of]. rewrite Hnone.
    rewrite Ascii.eqb_sym in Hdot. rewrite Hdot. exact Ht.
  - change ((String x pre ++ String c t)%string)
      with (String x (pre ++ String c t)%string).
    cbn [TPath.extension_of]. rewrite Hsome. exact IH.
Qed.

(** A name that matches one of the five patterns has one of the five
    extensions. *)
Lemma image_pattern_extension pat name :
  In pat extensions ->
  matches_pattern pat name = true ->
  In (TPath.extension_of name) image_extensions.
Proof.
  intros Hin Hm.
  assert (Hgen : forall ext,
            pat = String "*" (String TPath.dot ext) ->
            Str.contains_char is_wildcard (String TPath.dot ext) = false ->
            Str.lower ext = ext ->
            Str.contains_char (Ascii.eqb TPath.dot) ext = false ->
            TPath.extension_of name = ext).
  { intros ext -> Hlit Hlow Hnodot.
    destruct (matches_star _ _ Hm) as (pre & t & -> & Ht).
    pose proof (matches_literal _ Hlit _ Ht) as Hl.
    destruct t as [| c t]; [discriminate |].
    apply extension_of_suffix; [| exact Hnodot].
    rewrite Hl. simpl. now rewrite Hlow. }
  unfold extensions, image_extensions in *. simpl in Hin.
  destruct Hin as [<- | [<- | [<- | [<- | [<- | []]]]]].
  - left. symmetry. now apply Hgen.
  - right; left. symmetry. now apply Hgen.
  - do 2 right; left. symmetry. now apply Hgen.
  - do 3 right; left. symmetry. now apply Hgen.
  - do 4 right; left. symmetry. now apply Hgen.
Qed.

Lemma is_prefix_length root p :
  Loc.is_prefix root p = true -> (length root <= length p)%nat.
Proof.
  revert p. induction root as [| x root IH]; intros [| y p]; simpl;
    try lia; try discriminate.
  intros H. apply andb_true_iff in H as [_ H]. apply IH in H. lia.
Qed.

Lemma is_below_longer root p :
  Loc.is_below root p = true -> (length root < length p)%nat.
Proof.
  unfold Loc.is_below. revert p.
  induction root as [| x root IH]; intros [| y p]; simpl;
    try lia; try discriminate.
  intros H. apply andb_true_iff in H as [H1 H2].
  apply andb_true_iff in H1 as [Hxy Hp]. rewrite Hxy in H2. simpl in H2.
  assert (length root < length p)%nat by (apply IH; now rewrite Hp, H2).
  lia.
Qed.

Lemma last_skipn {A} (d : A) l :
  forall n, (n < length l)%nat -> last (skipn n l) d = last l d.
Proof.
  induction l as [| x l IH]; intros n Hn; simpl in Hn; [lia |].
  destruct n as [| n]; [reflexivity |].
  cbn [skipn]. rewrite IH by lia.
  destruct l as [| y l]; [simpl in Hn; lia | reflexivity].
Qed.

(** ** C3: a workspace without image files *)

Lemma files_below_none s td pat :
  In pat extensions ->
  no_image_files s (Loc.of_path td) ->
  TDirectory.files_below s td pat = [].
Proof.
  intros Hpat. unfold TDirectory.files_below.
  induction s as [| e s IH]; intros Hno; [reflexivity |].
  cbn [flat_map]. rewrite IH.
  2:{ intros e' Hin. apply Hno. now right. }
  rewrite app_nil_r. cbv beta zeta.
  destruct e as [p n]. cbn [fst snd].
  destruct (Store.is_file_node n) eqn:Hfile; [| reflexivity].
  destruct (Loc.is_below (Loc.of_path td) p) eqn:Hbelow; [| reflexivity].
  cbn [andb].
  destruct (matches_pattern pat _) eqn:Hm; [| reflexivity].
  exfalso. apply (Hno (p, n) (or_introl eq_refl) Hfile Hbelow).
  rewrite last_skipn in Hm by now apply is_below_longer.
  exact (image_pattern_extension _ _ Hpat Hm).
Qed.

Lemma scan_finds_nothing m :
  workspace_present m = true ->
  no_image_files (fs (env m)) (Loc.of_path (tempDirectory (this m))) ->
  LoadFlagImages m
  = (Returned tt, mk_machine (with_flagFiles (this m) []) (env m)).
Proof.
  intros Hp Hno. rewrite (LoadFlagImages_present m Hp).
  do 3 f_equal.
  assert (H : forall pats,
            incl pats extensions ->
            flat_map
              (TDirectory.files_below (fs (env m)) (tempDirectory (this m)))
              pats = []).
  { induction pats as [| pat pats IH]; intros Hincl; [reflexivity |].
    cbn [flat_map]. rewrite files_below_none; [| | exact Hno].
    - apply IH. intros x Hx. apply Hincl. now right.
    - apply Hincl. now left. }
  apply H, incl_refl.
Qed.

Section Initialization.

Variable mt_output : Z -> nat -> Z.
Variable uniform_int_distribution : Z -> Z -> (nat -> Z) -> Z * nat.

Lemma InitializeApplication_empty m m2 l :
  ExtractResourceAsZip (extracting m) = (Returned true, m2) ->
  LoadFlagImages m2
  = (Returned tt, mk_machine (with_flagFiles (this m2) l) (env m2)) ->
  l = [] ->
  InitializeApplication mt_output uniform_int_distribution m
  = (Returned tt,
     mk_machine
       (with_Status_Color
          (with_Status (with_flagFiles (this m2) [])
             "Status: No image files found") clRed)
       (env m2)).
Proof.
  intros Hx Hl ->. unfold InitializeApplication.
  rewrite (bind_returned _ _ m tt (extracting m)) by reflexivity.
  rewrite (bind_returned _ _ _ _ _ Hx).
  rewrite (bind_returned _ _ _ _ _ Hl).
  reflexivity.
Qed.

Lemma InitializeApplication_failed m m2 :
  ExtractResourceAsZip (extracting m) = (Returned false, m2) ->
  InitializeApplication mt_output uniform_int_distribution m
  = (Returned tt,
     mk_machine
       (with_Status_Color
          (with_Status (this m2) "Status: Resource extraction failed") clRed)
       (env m2)).
Proof.
  intros Hx. unfold InitializeApplication.
  rewrite (bind_returned _ _ m tt (extracting m)) by reflexivity.
  rewrite (bind_returned _ _ _ _ _ Hx).
  reflexivity.
Qed.

(** C3.  When the workspace exists and no file below it has one of the
    catalogued extensions, [LoadFlagImages] returns normally with an empty
    [flagFiles] and an untouched environment: nothing is shown.  When the
    extraction succeeded and the scan of such a workspace is empty,
    [InitializeApplication] completes with the status "Status: No image
    files found", a text of its own, different from the one a failed
    extraction gives, and shows no message for it. *)
Theorem scan_without_images :
  (forall m,
     workspace_present m = true ->
     no_image_files (fs (env m)) (Loc.of_path (tempDirectory (this m))) ->
     LoadFlagImages m
     = (Returned tt, mk_machine (with_flagFiles (this m) []) (env m)))
  /\ (forall m m2,
        ExtractResourceAsZip (extracting m) = (Returned true, m2) ->
        workspace_present m2 = true ->
        no_image_files (fs (env m2)) (Loc.of_path (tempDirectory (this m2))) ->
        let done := InitializeApplication mt_output uniform_int_distribution m in
        fst done = Returned tt
        /\ flagFiles (this (snd done)) = []
        /\ LabelStatus_Caption (this (snd done)) = "Status: No image files found"
        /\ LabelStatus_Caption (this (snd done))
           <> "Status: Resource extraction failed"
        /\ env (snd done) = env m2)
  /\ (forall m m2,
        ExtractResourceAsZip (extracting m) = (Returned false, m2) ->
        LabelStatus_Caption
          (this (snd (InitializeApplication mt_output uniform_int_distribution m)))
        = "Status: Resource extraction failed").
Proof.
  split; [| split].
  - apply scan_finds_nothing.
  - intros m m2 Hx Hp Hno done. subst done.
    rewrite (InitializeApplication_empty m m2 [] Hx
               (scan_finds_nothing m2 Hp Hno) eq_refl).
    cbn [fst snd this env]. repeat split. discriminate.
  - intros m m2 Hx. now rewrite (InitializeApplication_failed m m2 Hx).
Qed.

End Initialization.

(** Settles [no_image_files] on a store given in full. *)
Ltac settle_no_image_files :=
  let e := fresh "e" in
  let Hin := fresh "Hin" in
  let Hfile := fresh "Hfile" in
  let Hbelow := fresh "Hbelow" in
  let Hext := fresh "Hext" in
  intros e Hin Hfile Hbelow Hext;
  vm_compute in Hin;
  repeat
    (destruct Hin as [<- | Hin];
     [ vm_compute in Hfile, Hbelow, Hext;
       first [discriminate | intuition discriminate] | ]);
  destruct Hin.

Lemma text_only_has_no_images :
  no_image_files Sample.text_only (Loc.of_path "C:\Temp\ws").
Proof. settle_no_image_files. Qed.

Lemma extracted_text_has_no_images :
  let m2 := snd (ExtractResourceAsZip
                   (extracting
                      (Sample.machine [5; 6]
                         [Sample.rcdata (Sample.archive ["c.txt"])]))) in
  no_image_files (fs (env m2)) (Loc.of_path (tempDirectory (this m2))).
Proof. intros m2. settle_no_image_files. Qed.

(** C3 exercised: the scan of a workspace with a text file only, the
    initialization from an archive with a text file only, and the
    initialization of an executable without the resource. *)
Lemma scan_without_images_witness :
  (let m := Sample.scanning_machine Sample.text_only ["old.png"] in
   LoadFlagImages m
   = (Returned tt, mk_machine (with_flagFiles (this m) []) (env m)))
  /\ (let m := Sample.machine [5; 6] [Sample.rcdata (Sample.archive ["c.txt"])] in
      let done := InitializeApplication Sample.lcg_output Sample.one_draw m in
      fst done = Returned tt
      /\ flagFiles (this (snd done)) = []
      /\ LabelStatus_Caption (this (snd done)) = "Status: No image files found"
      /\ LabelStatus_Caption (this (snd done))
         <> "Status: Resource extraction failed"
      /\ env (snd done) = env (snd (ExtractResourceAsZip (extracting m))))
  /\ LabelStatus_Caption
       (this (snd (InitializeApplication Sample.lcg_output Sample.one_draw
                     (Sample.machine [5; 6] []))))
     = "Status: Resource extraction failed".
Proof.
  split; [| split].
  - intros m.
    apply (proj1 (scan_without_images Sample.lcg_output Sample.one_draw) m).
    + reflexivity.
    + exact text_only_has_no_images.
  - intros m.
    apply (proj1 (proj2 (scan_without_images Sample.lcg_output Sample.one_draw))
             m (snd (ExtractResourceAsZip (extracting m)))).
    + reflexivity.
    + reflexivity.
    + exact extracted_text_has_no_images.
  - apply (proj2 (proj2 (scan_without_images Sample.lcg_output Sample.one_draw))
             (Sample.machine [5; 6] [])
             (snd (ExtractResourceAsZip (extracting (Sample.machine [5; 6] []))))).
    reflexivity.
Defined.

(** ** C9: a workspace with a.png, b.PNG and c.txt *)

Lemma files_below_content s td pattern :
  TDirectory.files_below s td pattern
  = flat_map (listed td pattern) (content_below s (Loc.of_path td)).
Proof.
  unfold TDirectory.files_below, content_below. cbv zeta.
  induction s as [| [p n] s IH]; [reflexivity |].
  cbn [flat_map filter fst snd]. rewrite IH.
  destruct (Loc.is_below (Loc.of_path td) p) eqn:Hb.
  - cbn [map flat_map fst snd]. unfold listed at 1. cbn [fst snd].
    now rewrite andb_true_r.
  - now rewrite andb_false_r.
Qed.

(** C9.  When the workspace holds exactly the three files [a.png], [b.PNG]
    and [c.txt], [LoadFlagImages] returns normally with a catalog of length
    two that consists of the paths of [a.png] and [b.PNG]: the upper-case
    extension is matched, the text file is not listed. *)
Theorem scan_three_files (m : Machine) :
  workspace_present m = true ->
  Permutation
    (content_below (fs (env m)) (Loc.of_path (tempDirectory (this m))))
    [(["a.png"], true); (["b.PNG"], true); (["c.txt"], true)] ->
  exists catalog,
    LoadFlagImages m
    = (Returned tt, mk_machine (with_flagFiles (this m) catalog) (env m))
    /\ length catalog = 2%nat
    /\ Permutation catalog
         [TPath.Combine (tempDirectory (this m)) "a.png";
          TPath.Combine (tempDirectory (this m)) "b.PNG"].
Proof.
  intros Hp Hperm. eexists. split; [apply LoadFlagImages_present, Hp |].
  set (td := tempDirectory (this m)) in *.
  assert (Hcat :
    Permutation
      (flat_map (TDirectory.files_below (fs (env m)) td) extensions)
      [TPath.Combine td "a.png"; TPath.Combine td "b.PNG"]).
  { unfold extensions. cbn [flat_map].
    rewrite !files_below_content.
    rewrite !(Permutation_flat_map _ Hperm).
    reflexivity. }
  split; [| exact Hcat].
  now rewrite (Permutation_length Hcat).
Qed.

(** C9 exercised on the sample workspace. *)
Lemma scan_three_files_witness :
  let m := Sample.scanning_machine Sample.three_files [] in
  exists catalog,
    LoadFlagImages m
    = (Returned tt, mk_machine (with_flagFiles (this m) catalog) (env m))
    /\ length catalog = 2%nat
    /\ Permutation catalog
         [TPath.Combine (tempDirectory (this m)) "a.png";
          TPath.Combine (tempDirectory (this m)) "b.PNG"].
Proof.
  intros m. apply (scan_three_files m).
  - reflexivity.
  - vm_compute. apply Permutation_refl.
Defined.

(** ** C4: the workspace at the end of the form's life *)

Lemma same_workspace_refl m : same_workspace m m.
Proof. repeat split. Qed.

Lemma same_workspace_trans a b c :
  same_workspace a b -> same_workspace b c -> same_workspace a c.
Proof. unfold same_workspace. intuition congruence. Qed.

Lemma same_workspace_present m m' :
  same_workspace m m' -> workspace_present m' = workspace_present m.
Proof.
  intros (Hfs & _ & Htd). unfold workspace_present. now rewrite Hfs, Htd.
Qed.

Lemma returns_ExtractResourceAsZip : returns ExtractResourceAsZip.
Proof.
  apply returns_try_catch. intros e. apply returns_bind; auto with returns.
Qed.

Lemma returns_LoadFlagImages : returns LoadFlagImages.
Proof.
  intros m. destruct (LoadFlagImages_effect m) as [l Hl].
  rewrite Hl. now exists tt.
Qed.

Section Lifetime.

Variable mt_output : Z -> nat -> Z.
Variable uniform_int_distribution : Z -> Z -> (nat -> Z) -> Z * nat.

Let ShowRandomFlag' := ShowRandomFlag mt_output uniform_int_distribution.
Let press' := press mt_output uniform_int_distribution.
Let TForm1_create' := TForm1_create mt_output uniform_int_distribution.

Lemma returns_ShowRandomFlag : returns ShowRandomFlag'.
Proof.
  unfold ShowRandomFlag', ShowRandomFlag.
  apply returns_bind; [auto with returns |]. intros f.
  destruct (flagFiles f); [auto with returns |].
  apply returns_try_catch. intros e. apply returns_bind; auto with returns.
Qed.

Lemma returns_InitializeApplication :
  returns (InitializeApplication mt_output uniform_int_distribution).
Proof.
  unfold InitializeApplication.
  apply returns_bind; [auto with returns |]. intros _.
  apply returns_bind; [apply returns_ExtractResourceAsZip |].
  intros [|].
  - apply returns_bind; [apply returns_LoadFlagImages |]. intros _.
    apply returns_bind; [auto with returns |]. intros f.
    destruct (0 <? length (flagFiles f))%nat.
    + apply returns_bind; [auto with returns |]. intros _.
      apply returns_ShowRandomFlag.
    + apply returns_bind; auto with returns.
  - apply returns_bind; auto with returns.
Qed.

Lemma returns_TForm1_create : returns TForm1_create'.
Proof.
  unfold TForm1_create', TForm1_create.
  apply returns_bind; [auto with returns |]. intros ticks.
  apply returns_bind; [auto with returns |]. intros _.
  apply returns_bind; [auto with returns |]. intros _.
  apply returns_InitializeApplication.
Qed.

Lemma same_workspace_ShowRandomFlag : stable same_workspace ShowRandomFlag'.
Proof.
  unfold ShowRandomFlag', ShowRandomFlag.
  stable_walk same_workspace_refl same_workspace_trans
    ltac:(first
            [ progress unfold pick_index, dist_call, Picture_LoadFromFile,
                ShowMessage
            | intros ?; repeat split ]).
Qed.

Lemma same_workspace_ButtonRandomClick :
  stable same_workspace (ButtonRandomClick mt_output uniform_int_distribution).
Proof.
  unfold ButtonRandomClick.
  stable_walk same_workspace_refl same_workspace_trans
    ltac:(first [apply same_workspace_ShowRandomFlag
                | intros ?; repeat split ]).
Qed.

Lemma returns_ButtonRandomClick :
  returns (ButtonRandomClick mt_output uniform_int_distribution).
Proof.
  unfold ButtonRandomClick.
  apply returns_bind; [auto with returns |]. intros _.
  apply returns_bind; [auto with returns |]. intros _.
  apply returns_bind; [auto with returns |]. intros _.
  apply returns_ShowRandomFlag.
Qed.

Lemma returns_press clicks : returns (press' clicks).
Proof.
  unfold press'. induction clicks as [| n IH]; simpl; [auto with returns |].
  apply returns_bind; [apply returns_ButtonRandomClick | intros _; exact IH].
Qed.

Lemma same_workspace_press clicks : stable same_workspace (press' clicks).
Proof.
  unfold press'. induction clicks as [| n IH]; simpl.
  - apply stable_ret, same_workspace_refl.
  - apply stable_bind;
      [exact same_workspace_trans | apply same_workspace_ButtonRandomClick
      | intros _; exact IH].
Qed.

(** Whatever the initialization did, the destructor finds the workspace the
    constructor left and removes it. *)
Lemma lifetime_ends_with_removal clicks m0 :
  let m1 := snd (TForm1_create' m0) in
  let m2 := snd (press' clicks m1) in
  workspace_present m1 = true ->
  form_lifetime mt_output uniform_int_distribution clicks m0
  = try_catch (TDirectory.Delete (tempDirectory (this m1)) true)
      (fun _ => ret tt) m2
  /\ same_workspace m1 m2.
Proof.
  intros m1 m2 Hp.
  assert (Hsame : same_workspace m1 m2) by apply same_workspace_press.
  split; [| exact Hsame].
  unfold form_lifetime.
  destruct (returns_TForm1_create m0) as [[] Hc].
  destruct (returns_press clicks m1) as [[] Hq].
  fold TForm1_create' press'.
  rewrite (bind_returned _ _ m0 tt m1)
    by (subst m1; destruct (TForm1_create' m0); simpl in *; congruence).
  rewrite (bind_returned _ _ m1 tt m2)
    by (subst m2; destruct (press' clicks m1); simpl in *; congruence).
  unfold TForm1_destroy.
  rewrite CleanupTempFiles_present
    by (rewrite (same_workspace_present _ _ Hsame); exact Hp).
  destruct Hsame as (_ & _ & ->). reflexivity.
Qed.

(** C4.  When the constructor ends with the initialization failed ("Status:
    Resource extraction failed") and the workspace directory in place, then
    after any number of button presses the destructor runs
    [TDirectory::Delete] on that directory, recursively, and returns
    normally; when nothing below the directory refuses removal, the
    directory is gone at the end of the form's life. *)
Theorem failed_initialization_is_cleaned_up (clicks : nat) (m0 : Machine) :
  let m1 := snd (TForm1_create' m0) in
  let m2 := snd (press' clicks m1) in
  let ws := tempDirectory (this m1) in
  let life := form_lifetime mt_output uniform_int_distribution clicks m0 in
  LabelStatus_Caption (this m1) = "Status: Resource extraction failed" ->
  workspace_present m1 = true ->
  life = try_catch (TDirectory.Delete ws true) (fun _ => ret tt) m2
  /\ fst life = Returned tt
  /\ (Store.holds_guarded (guarded_locs (env m1)) (Loc.of_path ws) (fs (env m1))
      = false ->
      Store.is_dir (fs (env (snd life))) (Loc.of_path ws) = false).
Proof.
  intros m1 m2 ws life _ Hp.
  destruct (lifetime_ends_with_removal clicks m0 Hp) as [Hlife Hsame].
  fold m1 m2 ws life in Hlife, Hsame.
  assert (Hp2 : workspace_present m2 = true)
    by (rewrite (same_workspace_present _ _ Hsame); exact Hp).
  pose proof (Delete_present m2 Hp2) as Hd. cbv zeta in Hd.
  destruct Hsame as (Hfs & Hg & Htd). fold ws in Htd.
  rewrite Htd, Hfs, Hg in Hd.
  split; [exact Hlife |].
  rewrite Hlife. unfold try_catch. rewrite Hd.
  destruct (Store.holds_guarded _ _ _).
  - split; [reflexivity | discriminate].
  - split; [reflexivity |]. intros _. cbn [snd env fs with_fs].
    apply is_dir_remove_tree.
Qed.

End Lifetime.

(** C4 exercised: the resource holds an archive whose second entry cannot be
    read, so the extraction stops after the first file was written; the
    button is pressed twice before the form is destroyed. *)
Lemma failed_initialization_is_cleaned_up_witness :
  let m0 := Sample.machine [5; 6] [Sample.rcdata Sample.damaged_archive] in
  let m1 := snd (TForm1_create Sample.lcg_output Sample.one_draw m0) in
  let life := form_lifetime Sample.lcg_output Sample.one_draw 2 m0 in
  Store.is_file (fs (env m1)) (Loc.of_path "C:\Temp\FlagImages_6\a.png") = true
  /\ life
     = try_catch (TDirectory.Delete (tempDirectory (this m1)) true)
         (fun _ => ret tt)
         (snd (press Sample.lcg_output Sample.one_draw 2 m1))
  /\ fst life = Returned tt
  /\ Store.is_dir (fs (env (snd life))) (Loc.of_path "C:\Temp\FlagImages_6")
     = false.
Proof.
  intros m0 m1 life.
  pose proof (failed_initialization_is_cleaned_up
                Sample.lcg_output Sample.one_draw 2 m0) as H.
  cbv zeta in H. fold m1 life in H.
  specialize (H eq_refl eq_refl).
  destruct H as (H1 & H2 & H3).
  split; [reflexivity |]. split; [exact H1 |]. split; [exact H2 |].
  apply H3. reflexivity.
Defined.

(** ** C1: entries that leave the destination directory *)

Lemma shown_named_machine m : shown (env (named_machine m)) = shown (env m).
Proof.
  unfold named_machine, tick_env. cbn [env].
  destruct (tick_counts (env m)); reflexivity.
Qed.

Lemma create_temp_directory_effect m :
  exists m',
    (create_temp_directory m = (Returned None, m')
     /\ shown (env m') = shown (env m))
    \/ (create_temp_directory m = (Returned (Some false), m')
        /\ shown (env m')
           = shown (env m) ++ ["Unable to create temporary directory"]).
Proof.
  unfold create_temp_directory, try_catch, bind, get_this,
    TDirectory.CreateDirectory, TDirectory.Exists, bind, get_env, ret,
    ShowMessage, update_env, throw.
  cbn [env this fs with_fs shown with_shown].
  destruct (Str.is_empty (tempDirectory (this m))).
  - eexists. right. split; reflexivity.
  - cbn [negb andb].
    destruct (Store.is_dir _ _).
    + eexists. left. split; reflexivity.
    + eexists. right. split; reflexivity.
Qed.

Lemma same_shown_entries z :
  stable same_shown (for_loop (TZipFile.FileCount z) 0 (extract_entry z)).
Proof.
  stable_walk same_shown_refl same_shown_trans
    ltac:(apply same_shown_extract_entry).
Qed.

Lemma extract_all_entries_archive entries m :
  extract_all_entries (ZipArchive entries) m
  = match for_loop (TZipFile.FileCount entries) 0 (extract_entry entries) m with
    | (Returned _, m1) => (Returned true, m1)
    | (Thrown e, m1) =>
        (Returned false,
         after_message m1 ("Error extracting ZIP file: " ++ e)%string)
    end.
Proof.
  unfold extract_all_entries, try_catch, bind, TZipFile.Open, ret.
  destruct (for_loop _ _ _ m) as [[[] | e] m1]; reflexivity.
Qed.

Lemma extract_all_entries_effect zs m :
  exists m',
    (extract_all_entries zs m = (Returned true, m')
     /\ shown (env m') = shown (env m))
    \/ (exists e,
          extract_all_entries zs m = (Returned false, m')
          /\ shown (env m')
             = shown (env m) ++ [("Error extracting ZIP file: " ++ e)%string]).
Proof.
  destruct zs as [| entries].
  - eexists. right. eexists. split; reflexivity.
  - rewrite extract_all_entries_archive.
    pose proof (same_shown_entries entries m) as Hs. unfold same_shown in Hs.
    destruct (for_loop _ _ _ m) as [[[] | e] m1]; cbn [snd] in Hs.
    + exists m1. left. split; [reflexivity | exact Hs].
    + eexists. right. exists e. split; [reflexivity |].
      unfold after_message. cbn [env shown with_shown]. now rewrite Hs.
Qed.

(** [ExtractZipToTemp] returns true or false, and false only after showing
    why: the directory could not be created, or an exception was thrown
    while the archive was opened or an entry extracted. *)
Lemma ExtractZipToTemp_failure_is_reported zs m :
  exists b m',
    ExtractZipToTemp zs m = (Returned b, m')
    /\ (b = true -> shown (env m') = shown (env m))
    /\ (b = false ->
        shown (env m')
        = shown (env m) ++ ["Unable to create temporary directory"]
        \/ exists e,
            shown (env m')
            = shown (env m) ++ [("Error extracting ZIP file: " ++ e)%string]).
Proof.
  rewrite ExtractZipToTemp_unfold. unfold try_catch.
  rewrite <- (shown_named_machine m).
  destruct (create_temp_directory_effect (named_machine m))
    as [m1 [[Hc Hs] | [Hc Hs]]].
  - rewrite (bind_returned _ _ _ _ _ Hc).
    destruct (extract_all_entries_effect zs m1)
      as [m2 [[Hx Hs2] | [e [Hx Hs2]]]]; rewrite Hx.
    + exists true, m2. split; [reflexivity |].
      split; [intros _; congruence | discriminate].
    + exists false, m2. split; [reflexivity |].
      split; [discriminate |]. intros _. right. exists e. congruence.
  - rewrite (bind_returned _ _ _ _ _ Hc).
    exists false, m1. split; [reflexivity |].
    split; [discriminate |]. intros _. left. exact Hs.
Qed.


(** ** Path strings and the locations they designate *)

Lemma contains_char_app p a b :
  Str.contains_char p (a ++ b)%string
  = (Str.contains_char p a || Str.contains_char p b)%bool.
Proof.
  induction a as [| x a IH]; cbn [String.append Str.contains_char];
    [reflexivity |].
  now rewrite IH, orb_assoc.
Qed.

Lemma last_char_app a c b :
  Str.last_char (a ++ String c b)%string = Str.last_char (String c b).
Proof.
  induction a as [| x a IH]; [reflexivity |].
  change (Str.last_char (String x (a ++ String c b)%string)
          = Str.last_char (String c b)).
  cbn [Str.last_char].
  destruct (a ++ String c b)%string eqn:E; [| exact IH].
  destruct a; discriminate.
Qed.

Lemma drop_last_snoc a c : Str.drop_last (a ++ String c "")%string = a.
Proof.
  induction a as [| x a IH]; [reflexivity |].
  change (Str.drop_last (String x (a ++ String c "")%string) = String x a).
  cbn [Str.drop_last].
  destruct (a ++ String c "")%string eqn:E; [destruct a; discriminate |].
  now rewrite IH.
Qed.

Lemma is_empty_app a c b : Str.is_empty (a ++ String c b)%string = false.
Proof. destruct a; reflexivity. Qed.

Lemma append_assoc (a b c : string) :
  ((a ++ b) ++ c = a ++ (b ++ c))%string.
Proof. induction a as [| x a IH]; simpl; [reflexivity | now rewrite IH]. Qed.

(** A string without a character of some kind does not end with one. *)
Lemma last_char_not p s c :
  Str.contains_char p s = false -> Str.last_char s = Some c -> p c = false.
Proof.
  induction s as [| x s IH]; [discriminate |].
  cbn [Str.contains_char]. intros H. apply orb_false_iff in H as [Hx Hs].
  destruct s as [| y s].
  - cbn. intros [= <-]. exact Hx.
  - intros Hl. apply IH; [exact Hs | exact Hl].
Qed.

Lemma raw_split_not_nil s : TPath.raw_split s <> [].
Proof.
  destruct s as [| c s]; cbn [TPath.raw_split]; [discriminate |].
  destruct (TPath.is_sep c); [discriminate |].
  destruct (TPath.raw_split s); discriminate.
Qed.

Lemma raw_split_no_sep n :
  Str.contains_char TPath.is_sep n = false -> TPath.raw_split n = [n].
Proof.
  induction n as [| c n IH]; [reflexivity |].
  cbn [Str.contains_char TPath.raw_split]. intros H.
  apply orb_false_iff in H as [Hc Hn]. rewrite Hc, (IH Hn). reflexivity.
Qed.

Lemma raw_split_app a c b :
  TPath.is_sep c = true ->
  TPath.raw_split (a ++ String c b)
  = TPath.raw_split a ++ TPath.raw_split b.
Proof.
  intros Hc. induction a as [| x a IH].
  - cbn [String.append TPath.raw_split]. now rewrite Hc.
  - change (TPath.raw_split (String x (a ++ String c b)%string)
            = TPath.raw_split (String x a) ++ TPath.raw_split b).
    cbn [TPath.raw_split]. rewrite IH.
    destruct (TPath.is_sep x); [reflexivity |].
    destruct (TPath.raw_split a) as [| y r] eqn:E;
      [now apply raw_split_not_nil in E | reflexivity].
Qed.

Lemma segments_app a c b :
  TPath.is_sep c = true ->
  TPath.segments (a ++ String c b) = TPath.segments a ++ TPath.segments b.
Proof.
  intros Hc. unfold TPath.segments.
  now rewrite raw_split_app, filter_app.
Qed.

Lemma sep_or_colon_sep n :
  Str.contains_char is_sep_or_colon n = false ->
  Str.contains_char TPath.is_sep n = false.
Proof.
  induction n as [| c n IH]; [reflexivity |].
  cbn [Str.contains_char]. intros H. apply orb_false_iff in H as [Hc Hn].
  unfold is_sep_or_colon in Hc. apply orb_false_iff in Hc as [Hc _].
  now rewrite Hc, IH.
Qed.

Lemma sep_or_colon_delim n :
  Str.contains_char is_sep_or_colon n = false ->
  Str.contains_char SysUtils.is_delim n = false.
Proof.
  induction n as [| c n IH]; [reflexivity |].
  cbn [Str.contains_char]. intros H. apply orb_false_iff in H as [Hc Hn].
  unfold is_sep_or_colon, TPath.is_sep in Hc.
  apply orb_false_iff in Hc as [Hc Hcolon].
  apply orb_false_iff in Hc as [Hback _].
  rewrite (IH Hn). unfold SysUtils.is_delim. now rewrite Hback, Hcolon.
Qed.

Lemma segments_plain n : segment_name n -> TPath.segments n = [n].
Proof.
  intros (Hne & Hsep & _). unfold TPath.segments.
  rewrite raw_split_no_sep by now apply sep_or_colon_sep.
  cbn [filter]. now rewrite Hne.
Qed.

Lemma of_path_app a c b :
  TPath.is_sep c = true ->
  Loc.of_path (a ++ String c b)
  = fold_left Loc.enter (TPath.segments b) (Loc.of_path a).
Proof.
  intros Hc. unfold Loc.of_path. now rewrite segments_app, fold_left_app.
Qed.

Lemma of_path_plain a c n :
  TPath.is_sep c = true -> segment_name n ->
  Loc.of_path (a ++ String c n) = Loc.of_path a ++ [n].
Proof.
  intros Hc Hn. rewrite of_path_app by exact Hc.
  rewrite (segments_plain n Hn). cbn [fold_left]. unfold Loc.enter.
  destruct Hn as (_ & _ & -> & -> & _). reflexivity.
Qed.

Lemma of_path_dotdot a c :
  TPath.is_sep c = true ->
  Loc.of_path (a ++ String c "..") = Loc.parent (Loc.of_path a).
Proof. intros Hc. now rewrite of_path_app by exact Hc. Qed.

Lemma upto_last_sep_none n :
  Str.contains_char TPath.is_sep n = false -> TPath.upto_last_sep n = None.
Proof.
  induction n as [| c n IH]; [reflexivity |].
  cbn [Str.contains_char TPath.upto_last_sep]. intros H.
  apply orb_false_iff in H as [Hc Hn]. now rewrite (IH Hn), Hc.
Qed.

Lemma upto_last_sep_app a c n :
  TPath.is_sep c = true ->
  Str.contains_char TPath.is_sep n = false ->
  TPath.upto_last_sep (a ++ String c n) = Some (a ++ String c "")%string.
Proof.
  intros Hc Hn. induction a as [| x a IH].
  - cbn [String.append TPath.upto_last_sep].
    now rewrite (upto_last_sep_none n Hn), Hc.
  - change (TPath.upto_last_sep (String x (a ++ String c n)%string)
            = Some (String x (a ++ String c "")%string)).
    cbn [TPath.upto_last_sep]. now rewrite IH.
Qed.

Lemma upto_last_delim_none n :
  Str.contains_char SysUtils.is_delim n = false ->
  SysUtils.upto_last_delim n = None.
Proof.
  induction n as [| c n IH]; [reflexivity |].
  cbn [Str.contains_char SysUtils.upto_last_delim]. intros H.
  apply orb_false_iff in H as [Hc Hn]. now rewrite (IH Hn), Hc.
Qed.

Lemma upto_last_delim_app a c n :
  SysUtils.is_delim c = true ->
  Str.contains_char SysUtils.is_delim n = false ->
  SysUtils.upto_last_delim (a ++ String c n)
  = Some (a ++ String c "")%string.
Proof.
  intros Hc Hn. induction a as [| x a IH].
  - cbn [String.append SysUtils.upto_last_delim].
    now rewrite (upto_last_delim_none n Hn), Hc.
  - change (SysUtils.upto_last_delim (String x (a ++ String c n)%string)
            = Some (String x (a ++ String c "")%string)).
    cbn [SysUtils.upto_last_delim]. now rewrite IH.
Qed.

(** The directory of [x\n] is [x], for a plain [n] and an [x] that is not
    a bare drive. *)
Lemma GetDirectoryName_join x c n :
  TPath.is_sep c = true ->
  Str.contains_char TPath.is_sep n = false ->
  Str.is_empty x = false ->
  TPath.ends_with_colon x = false ->
  TPath.GetDirectoryName (x ++ String c n) = x.
Proof.
  intros Hc Hn Hx Hcolon. unfold TPath.GetDirectoryName.
  rewrite upto_last_sep_app by assumption.
  rewrite drop_last_snoc, Hx, Hcolon. reflexivity.
Qed.

Lemma ExtractFileDir_join x y n :
  Str.contains_char SysUtils.is_delim n = false ->
  Str.last_char x = Some y ->
  SysUtils.is_delim y = false ->
  SysUtils.ExtractFileDir (x ++ String TPath.backslash n) = x.
Proof.
  intros Hn Hlast Hy. unfold SysUtils.ExtractFileDir.
  rewrite upto_last_delim_app by (assumption || reflexivity).
  rewrite last_char_app, drop_last_snoc, Hlast. cbn [Str.last_char].
  rewrite Hy. reflexivity.
Qed.

Lemma Combine_join a b :
  Str.is_empty a = false ->
  Str.is_empty b = false ->
  TPath.IsPathRooted b = false ->
  TPath.ends_with_sep a = false ->
  TPath.ends_with_colon a = false ->
  TPath.Combine a b = (a ++ String TPath.backslash b)%string.
Proof.
  intros Ha Hb Hr Hs Hc. unfold TPath.Combine.
  now rewrite Hb, Ha, Hr, Hs, Hc.
Qed.

Lemma replace_slash_none n :
  Str.contains_char TPath.is_sep n = false ->
  Str.replace_char TPath.slash TPath.backslash n = n.
Proof.
  induction n as [| c n IH]; [reflexivity |].
  cbn [Str.contains_char Str.replace_char]. intros H.
  apply orb_false_iff in H as [Hc Hn]. rewrite (IH Hn).
  unfold TPath.is_sep in Hc. apply orb_false_iff in Hc as [_ Hc].
  now rewrite Hc.
Qed.

(** The decimal rendering of an integer has no separator and no colon. *)
Lemma string_of_uint_plain d :
  Str.contains_char is_sep_or_colon (NilEmpty.string_of_uint d) = false.
Proof. induction d; cbn; auto. Qed.

Lemma IntToStr_plain z :
  Str.contains_char is_sep_or_colon (IntToStr z) = false.
Proof.
  unfold IntToStr, NilEmpty.string_of_int.
  destruct (Z.to_int z); cbn [Str.contains_char];
    rewrite ?string_of_uint_plain; reflexivity.
Qed.

(** The decimal rendering is made of digits and, at most, a minus sign. *)
Definition is_digit_or_minus (c : ascii) : bool :=
  existsb (Ascii.eqb c)
    ["0"; "1"; "2"; "3"; "4"; "5"; "6"; "7"; "8"; "9"; "-"]%char.

Lemma string_of_uint_digits d :
  Str.contains_char (fun c => negb (is_digit_or_minus c))
    (NilEmpty.string_of_uint d) = false.
Proof. induction d; cbn; auto. Qed.

Lemma IntToStr_digits z :
  Str.contains_char (fun c => negb (is_digit_or_minus c)) (IntToStr z) = false.
Proof.
  unfold IntToStr, NilEmpty.string_of_int.
  destruct (Z.to_int z); cbn [Str.contains_char];
    rewrite ?string_of_uint_digits; reflexivity.
Qed.

Lemma contains_char_weaken (p q : ascii -> bool) s :
  (forall c, q c = true -> p c = true) ->
  Str.contains_char p s = false -> Str.contains_char q s = false.
Proof.
  intros Hpq. induction s as [| c s IH]; [reflexivity |].
  cbn [Str.contains_char]. intros H. apply orb_false_iff in H as [Hc Hs].
  rewrite (IH Hs), orb_false_r.
  destruct (q c) eqn:E; [| reflexivity]. now rewrite (Hpq c E) in Hc.
Qed.

Lemma IntToStr_without (q : ascii -> bool) z :
  (forall c, q c = true -> is_digit_or_minus c = false) ->
  Str.contains_char q (IntToStr z) = false.
Proof.
  intros H. apply (contains_char_weaken _ q _ ) with (2 := IntToStr_digits z).
  intros c Hc. now rewrite (H c Hc).
Qed.

Lemma reserved_no_digit c :
  is_reserved_char c = true -> is_digit_or_minus c = false.
Proof. destruct c as [[] [] [] [] [] [] [] []]; cbn; auto. Qed.

Lemma dot_or_space_no_digit c :
  is_dot_or_space c = true -> is_digit_or_minus c = false.
Proof. destruct c as [[] [] [] [] [] [] [] []]; cbn; auto. Qed.

Lemma invalid_is_reserved c :
  TPath.is_invalid_path_char c = true -> is_reserved_char c = true.
Proof. destruct c as [[] [] [] [] [] [] [] []]; cbn; auto. Qed.

Lemma HasValidPathChars_app a b :
  TPath.HasValidPathChars (a ++ b)
  = (TPath.HasValidPathChars a && TPath.HasValidPathChars b)%bool.
Proof.
  unfold TPath.HasValidPathChars. rewrite contains_char_app. apply negb_orb.
Qed.

Lemma accepted_valid n : accepted_name n = true -> TPath.HasValidPathChars n = true.
Proof.
  unfold accepted_name, TPath.HasValidPathChars. intros H.
  apply andb_true_iff in H as [H _]. apply andb_true_iff in H as [H _].
  apply negb_true_iff in H. apply negb_true_iff.
  exact (contains_char_weaken _ _ n invalid_is_reserved H).
Qed.

Lemma plain_valid n : segment_name n -> TPath.HasValidPathChars n = true.
Proof. intros (_ & _ & _ & _ & H). now apply accepted_valid. Qed.

Lemma valid_join a c b :
  TPath.HasValidPathChars a = true ->
  TPath.is_invalid_path_char c = false ->
  TPath.HasValidPathChars b = true ->
  TPath.HasValidPathChars (a ++ String c b) = true.
Proof.
  intros Ha Hc Hb. rewrite HasValidPathChars_app, Ha.
  unfold TPath.HasValidPathChars in *. cbn [Str.contains_char andb].
  rewrite Hc. exact Hb.
Qed.

Lemma TPath_Combine_valid a b m :
  TPath.HasValidPathChars a = true ->
  TPath.HasValidPathChars b = true ->
  TPath_Combine a b m = (Returned (TPath.Combine a b), m).
Proof. intros Ha Hb. unfold TPath_Combine. now rewrite Ha, Hb. Qed.

(** The name of the workspace directory is a plain name. *)
Lemma workspace_leaf_plain t : segment_name (workspace_leaf t).
Proof.
  unfold workspace_leaf.
  set (z := static_cast_int t).
  split; [reflexivity |].
  split; [rewrite contains_char_app, IntToStr_plain; reflexivity |].
  split; [reflexivity |].
  split; [reflexivity |].
  unfold accepted_name.
  assert (Hres : Str.contains_char is_reserved_char ("FlagImages_" ++ IntToStr z)
                 = false).
  { rewrite contains_char_app, (IntToStr_without _ z reserved_no_digit).
    reflexivity. }
  assert (Hend : Str.contains_char is_dot_or_space ("FlagImages_" ++ IntToStr z)
                 = false).
  { rewrite contains_char_app, (IntToStr_without _ z dot_or_space_no_digit).
    reflexivity. }
  rewrite Hres. cbn [negb andb].
  apply andb_true_iff. split.
  - destruct (Str.last_char ("FlagImages_" ++ IntToStr z)) as [y |] eqn:Hy;
      [| reflexivity].
    now rewrite (last_char_not _ _ _ Hend Hy).
  - unfold is_device_name.
    change ("FlagImages_" ++ IntToStr z)%string
      with (String "F" ("lagImages_" ++ IntToStr z)).
    cbn [name_stem]. change (Ascii.eqb "F" TPath.dot) with false. cbv iota.
    cbn [trim_end].
    destruct (trim_end _); reflexivity.
Qed.

(** ** Making directories and writing files *)

Lemma lookup_app s l p :
  Store.lookup (s ++ l) p
  = match Store.lookup s p with
    | Some x => Some x
    | None => Store.lookup l p
    end.
Proof.
  unfold Store.lookup. induction s as [| e s IH]; simpl.
  - destruct (find _ l); reflexivity.
  - destruct (Loc.eqb (fst e) p); [reflexivity | exact IH].
Qed.

Lemma is_dir_lookup s p : Store.is_dir s p = true -> Store.lookup s p = Some Dir.
Proof.
  unfold Store.is_dir. destruct (Store.lookup s p) as [[| d] |];
    (reflexivity || discriminate).
Qed.

Lemma is_dir_app s l p :
  Store.is_dir s p = true -> Store.is_dir (s ++ l) p = true.
Proof.
  intros H. unfold Store.is_dir. rewrite lookup_app.
  now rewrite (is_dir_lookup _ _ H).
Qed.

Lemma loc_eqb_length p q : Loc.eqb p q = true -> length p = length q.
Proof.
  revert q. induction p as [| x p IH]; intros [| y q]; cbn; try easy.
  intros H. apply andb_true_iff in H as [_ H]. now rewrite (IH q H).
Qed.

Lemma parent_snoc p x :
  TPath.ends_with_colon x = false -> Loc.parent (p ++ [x]) = p.
Proof.
  intros Hx. unfold Loc.parent. rewrite rev_app_distr. simpl.
  rewrite Hx. apply removelast_last.
Qed.

Lemma force_dirs_present prot rest :
  forall pre s,
    (forall k, (0 < k <= length rest)%nat ->
               Store.is_dir s (pre ++ firstn k rest) = true) ->
    Store.force_dirs prot pre rest s = s.
Proof.
  induction rest as [| seg rest IH]; intros pre s H; [reflexivity |].
  cbn [Store.force_dirs].
  rewrite (is_dir_lookup s (pre ++ [seg])) by (apply (H 1%nat); cbn; lia).
  apply IH. intros k Hk. rewrite <- app_assoc.
  apply (H (S k)). cbn [length]. lia.
Qed.

Lemma force_dirs_new prot rest :
  forall pre s x,
    (forall k, (0 < k <= length rest)%nat ->
               Store.is_dir s (pre ++ firstn k rest) = true) ->
    Store.lookup s (pre ++ rest ++ [x]) = None ->
    Store.guarded prot (pre ++ rest ++ [x]) = false ->
    Store.force_dirs prot pre (rest ++ [x]) s
    = s ++ [(pre ++ rest ++ [x], Dir)].
Proof.
  induction rest as [| seg rest IH]; intros pre s x H Hnone Hg.
  - cbn [Datatypes.app Store.force_dirs] in *. now rewrite Hnone, Hg.
  - cbn [Datatypes.app Store.force_dirs].
    rewrite (is_dir_lookup s (pre ++ [seg])) by (apply (H 1%nat); cbn; lia).
    cbn [Datatypes.app] in Hnone, Hg.
    replace (pre ++ seg :: rest ++ [x]) with ((pre ++ [seg]) ++ rest ++ [x])
      in * by (rewrite <- app_assoc; reflexivity).
    apply IH; [| exact Hnone | exact Hg].
    intros k Hk. rewrite <- app_assoc. apply (H (S k)). cbn [length]. lia.
Qed.

Lemma reachable_app_store s l p : reachable s p -> reachable (s ++ l) p.
Proof. intros H k Hk. apply is_dir_app, H, Hk. Qed.

Lemma reachable_prefix s a b : reachable s (a ++ b) -> reachable s a.
Proof.
  intros H k Hk. specialize (H k). rewrite length_app in H.
  rewrite firstn_app in H.
  replace (k - length a)%nat with O in H by lia.
  cbn [firstn] in H. rewrite app_nil_r in H. apply H. lia.
Qed.

Lemma lookup_written s p x :
  Store.lookup (filter (fun e => negb (Loc.eqb (fst e) p)) s ++ [(p, x)]) p
  = Some x.
Proof.
  rewrite lookup_app.
  assert (H : Store.lookup (filter (fun e => negb (Loc.eqb (fst e) p)) s) p
              = None).
  { unfold Store.lookup. induction s as [| e s IH]; [reflexivity |].
    cbn [filter]. destruct (Loc.eqb (fst e) p) eqn:E; cbn [negb];
      [exact IH |].
    cbn [find]. now rewrite E. }
  rewrite H. unfold Store.lookup. cbn [find fst snd].
  now rewrite loc_eqb_refl.
Qed.

Lemma write_file_new prot s g n data :
  Store.is_dir s g = true ->
  Store.is_dir s (g ++ [n]) = false ->
  Store.guarded prot (g ++ [n]) = false ->
  Store.write_file prot s (g ++ [n]) data
  = Some (filter (fun e => negb (Loc.eqb (fst e) (g ++ [n]))) s
            ++ [(g ++ [n], File data)]).
Proof.
  intros Hg Hn Hp. unfold Store.write_file.
  assert (E : exists y q, g ++ [n] = y :: q)
    by (destruct g; simpl; eauto).
  destruct E as (y & q & E). rewrite E at 1. cbv iota.
  rewrite removelast_last, Hg, Hn, Hp. reflexivity.
Qed.

Lemma fs_tick_env w : fs (tick_env w) = fs w.
Proof. unfold tick_env. destruct (tick_counts w); reflexivity. Qed.

Lemma guarded_locs_tick_env w : guarded_locs (tick_env w) = guarded_locs w.
Proof. unfold tick_env. destruct (tick_counts w); reflexivity. Qed.

Lemma shown_tick_env w : shown (tick_env w) = shown w.
Proof. unfold tick_env. destruct (tick_counts w); reflexivity. Qed.

Lemma same_text_eq a b : Str.same_text a b = true -> Str.lower a = Str.lower b.
Proof. apply String.eqb_eq. Qed.

(** Two spellings of one location lie below the same directories. *)
Lemma is_prefix_eqb w a p :
  Loc.eqb a p = true -> Loc.is_prefix w a = Loc.is_prefix w p.
Proof.
  revert a p. induction w as [| x w IH]; intros [| y a] [| z p]; simpl;
    try easy.
  intros H. apply andb_true_iff in H as [H1 H2].
  unfold Str.same_text in *. apply String.eqb_eq in H1. rewrite H1.
  now rewrite (IH _ _ H2).
Qed.

Lemma is_prefix_app p l : Loc.is_prefix p (p ++ l) = true.
Proof.
  induction p as [| x p IH]; [reflexivity |].
  cbn [Datatypes.app Loc.is_prefix]. now rewrite same_text_refl.
Qed.

Lemma reachable_snoc s p x :
  reachable s p -> Store.is_dir s (p ++ [x]) = true -> reachable s (p ++ [x]).
Proof.
  intros Hp Hx k Hk. rewrite length_app in Hk. cbn [length] in Hk.
  destruct (Nat.eq_dec k (length p + 1)) as [-> | Hne].
  - rewrite firstn_all2 by (rewrite length_app; cbn; lia). exact Hx.
  - rewrite firstn_app. replace (k - length p)%nat with O by lia.
    cbn [firstn]. rewrite app_nil_r. apply Hp. lia.
Qed.

Lemma loc_eqb_eqb a p q :
  Loc.eqb a p = true -> Loc.eqb a q = Loc.eqb p q.
Proof.
  revert p q. induction a as [| x a IH]; intros [| y p] [| z q]; simpl;
    try easy.
  intros H. apply andb_true_iff in H as [H1 H2].
  unfold Str.same_text in *. apply String.eqb_eq in H1. rewrite H1.
  now rewrite (IH _ _ H2).
Qed.

Lemma lookup_eqb s p q :
  Loc.eqb p q = true -> Store.lookup s p = Store.lookup s q.
Proof.
  intros H. unfold Store.lookup.
  induction s as [| e s IH]; [reflexivity |]. cbn [find].
  destruct (Loc.eqb (fst e) p) eqn:E1; destruct (Loc.eqb (fst e) q) eqn:E2;
    try reflexivity; try exact IH.
  - rewrite (loc_eqb_eqb _ _ q E1) in E2. congruence.
  - rewrite (loc_eqb_eqb _ _ p E2), loc_eqb_sym in E1. congruence.
Qed.

Lemma force_dirs_keeps_dir prot rest q :
  forall pre s,
    Store.is_dir s q = true ->
    Store.is_dir (Store.force_dirs prot pre rest s) q = true.
Proof.
  induction rest as [| seg rest IH]; intros pre s H; [exact H |].
  cbn [Store.force_dirs].
  destruct (Store.lookup s (pre ++ [seg])) as [[| d] |].
  - now apply IH.
  - exact H.
  - destruct (Store.guarded prot (pre ++ [seg])); [exact H |].
    apply IH. now apply is_dir_app.
Qed.

Lemma write_file_keeps_dir prot s p data s' q :
  Store.write_file prot s p data = Some s' ->
  Store.is_dir s q = true ->
  Store.is_dir s' q = true.
Proof.
  unfold Store.write_file. destruct p as [| x p]; [discriminate |].
  destruct (Store.is_dir s (removelast (x :: p))); [| discriminate].
  destruct (Store.is_dir s (x :: p)) eqn:Hp; [discriminate |].
  destruct (Store.guarded prot (x :: p)); [discriminate |].
  cbn [andb negb]. intros [= <-] Hq.
  assert (Hpq : Loc.eqb (x :: p) q = false).
  { destruct (Loc.eqb (x :: p) q) eqn:E; [| reflexivity].
    unfold Store.is_dir in Hp, Hq.
    rewrite (lookup_eqb s _ _ E) in Hp. congruence. }
  apply is_dir_app. unfold Store.is_dir in *.
  assert (Hsame :
    Store.lookup (filter (fun e => negb (Loc.eqb (fst e) (x :: p))) s) q
    = Store.lookup s q).
  { clear Hp Hq. unfold Store.lookup.
    induction s as [| e s IH]; [reflexivity |]. cbn [filter find].
    destruct (Loc.eqb (fst e) (x :: p)) eqn:E; cbn [negb].
    - rewrite (loc_eqb_eqb _ _ q E), Hpq. exact IH.
    - cbn [find]. destruct (Loc.eqb (fst e) q); [reflexivity | exact IH]. }
  now rewrite Hsame.
Qed.

(** ** An entry named [..\n] *)

Lemma last_char_some s : Str.is_empty s = false -> exists y, Str.last_char s = Some y.
Proof.
  induction s as [| c s IH]; [discriminate |]. intros _.
  destruct s as [| d s]; [now exists c |].
  destruct IH as [y Hy]; [reflexivity |]. exists y. exact Hy.
Qed.

Section DotDotEntry.

Variables (m : Machine) (r : string) (G : Loc.t) (leaf n : string).
Variable data : list Byte.byte.

Let w := env m.
Let wsname :=
  ("FlagImages_" ++ IntToStr (static_cast_int (tick_reading w)))%string.
Let ws := (r ++ String TPath.backslash wsname)%string.
Let W := G ++ [leaf; wsname].
Let T := G ++ [n].
Let name := String "." (String "." (String TPath.backslash n)).

(** [GetTempPath] gives [r\], and [r] designates the directory [leaf] in
    [G]; it and everything above it exist. *)
Hypothesis temp_root : temp_path w = (r ++ String TPath.backslash "")%string.
Hypothesis temp_root_valid : TPath.HasValidPathChars r = true.
Hypothesis temp_root_loc : Loc.of_path r = G ++ [leaf].
Hypothesis leaf_not_drive : TPath.ends_with_colon leaf = false.
Hypothesis temp_root_exists : reachable (fs w) (G ++ [leaf]).
Hypothesis above_exists : Store.is_dir (fs w) G = true.

(** The workspace is new and can be made; the place [n] in [G] is not a
    directory and can be written. *)
Hypothesis workspace_fresh : Store.lookup (fs w) W = None.
Hypothesis workspace_free : Store.guarded (guarded_locs w) W = false.
Hypothesis target_no_dir : Store.is_dir (fs w) T = false.
Hypothesis target_free : Store.guarded (guarded_locs w) T = false.
Hypothesis n_plain : segment_name n.

Lemma wsname_plain : segment_name wsname.
Proof. exact (workspace_leaf_plain (tick_reading w)). Qed.

Lemma ws_is_tempDirectory : tempDirectory (this (named_machine m)) = ws.
Proof.
  unfold named_machine, workspace_name. cbn [this tempDirectory with_tempDirectory].
  fold w. rewrite temp_root. unfold ws, wsname.
  now rewrite append_assoc.
Qed.

Lemma ws_loc : Loc.of_path ws = W.
Proof.
  unfold ws. rewrite of_path_plain by (reflexivity || apply wsname_plain).
  rewrite temp_root_loc. unfold W. now rewrite <- app_assoc.
Qed.

Lemma ws_last :
  exists y, Str.last_char ws = Some y /\ is_sep_or_colon y = false.
Proof.
  destruct wsname_plain as (Hne & Hplain & _).
  destruct (last_char_some wsname Hne) as [y Hy].
  exists y. split.
  - unfold ws. rewrite last_char_app.
    destruct wsname; [discriminate | exact Hy].
  - exact (last_char_not _ _ _ Hplain Hy).
Qed.

Lemma ws_ends :
  Str.is_empty ws = false
  /\ TPath.ends_with_sep ws = false
  /\ TPath.ends_with_colon ws = false.
Proof.
  destruct ws_last as (y & Hy & Hp).
  unfold is_sep_or_colon in Hp. apply orb_false_iff in Hp as [Hsep Hcolon].
  unfold TPath.ends_with_sep, TPath.ends_with_colon. rewrite Hy.
  repeat split; [apply is_empty_app | exact Hsep | exact Hcolon].
Qed.

Lemma ws_valid : TPath.HasValidPathChars ws = true.
Proof.
  apply valid_join;
    [exact temp_root_valid | reflexivity | apply plain_valid, wsname_plain].
Qed.

Lemma name_valid : TPath.HasValidPathChars name = true.
Proof.
  change name with (".." ++ String TPath.backslash n)%string.
  apply valid_join; [reflexivity | reflexivity | apply plain_valid, n_plain].
Qed.

Let X1 := (ws ++ String TPath.backslash "..")%string.
Let X2 := (X1 ++ String TPath.backslash "..")%string.

Lemma n_no_sep : Str.contains_char TPath.is_sep n = false.
Proof. apply sep_or_colon_sep, n_plain. Qed.

Lemma name_facts :
  Str.is_empty name = false /\ TPath.IsPathRooted name = false.
Proof. split; reflexivity. Qed.

Lemma X1_facts :
  Str.is_empty X1 = false
  /\ TPath.ends_with_sep X1 = false
  /\ TPath.ends_with_colon X1 = false.
Proof.
  unfold X1, TPath.ends_with_sep, TPath.ends_with_colon.
  rewrite last_char_app, is_empty_app. repeat split.
Qed.

Lemma fullPath_eq :
  TPath.Combine ws name = (X1 ++ String TPath.backslash n)%string.
Proof.
  destruct ws_ends as (H1 & H2 & H3). destruct name_facts as (H4 & H5).
  rewrite Combine_join by assumption.
  unfold X1, name. now rewrite append_assoc.
Qed.

Lemma dir_eq : TPath.GetDirectoryName (TPath.Combine ws name) = X1.
Proof.
  destruct X1_facts as (H1 & _ & H3).
  rewrite fullPath_eq.
  apply GetDirectoryName_join; [reflexivity | apply n_no_sep | exact H1 | exact H3].
Qed.

Lemma wsname_not_drive : TPath.ends_with_colon wsname = false.
Proof.
  destruct wsname_plain as (_ & Hplain & _).
  unfold TPath.ends_with_colon.
  destruct (Str.last_char wsname) as [y |] eqn:Hy; [| reflexivity].
  pose proof (last_char_not _ _ _ Hplain Hy) as Hp.
  unfold is_sep_or_colon in Hp. now apply orb_false_iff in Hp as [_ Hp].
Qed.

Lemma dir_loc : Loc.of_path X1 = G ++ [leaf].
Proof.
  unfold X1. rewrite of_path_dotdot by reflexivity.
  rewrite ws_loc. unfold W.
  replace (G ++ [leaf; wsname]) with ((G ++ [leaf]) ++ [wsname])
    by (now rewrite <- app_assoc).
  apply parent_snoc, wsname_not_drive.
Qed.

Lemma LFileName_eq :
  TPath.Combine X1 (Str.replace_char TPath.slash TPath.backslash name)
  = (X2 ++ String TPath.backslash n)%string.
Proof.
  destruct X1_facts as (H1 & H2 & H3). destruct name_facts as (H4 & H5).
  assert (Hrep : Str.replace_char TPath.slash TPath.backslash name = name).
  { unfold name. cbn [Str.replace_char].
    rewrite (replace_slash_none n n_no_sep). reflexivity. }
  rewrite Hrep, Combine_join by assumption.
  unfold X2, name. now rewrite append_assoc.
Qed.

Lemma X2_last : Str.last_char X2 = Some "."%char.
Proof. unfold X2. now rewrite last_char_app. Qed.

Lemma LDir_eq :
  SysUtils.ExtractFileDir (X2 ++ String TPath.backslash n) = X2.
Proof.
  apply (ExtractFileDir_join X2 "."%char n);
    [apply sep_or_colon_delim, n_plain | apply X2_last | reflexivity].
Qed.

Lemma LDir_loc : Loc.of_path X2 = G.
Proof.
  unfold X2. rewrite of_path_dotdot by reflexivity.
  rewrite dir_loc. apply parent_snoc, leaf_not_drive.
Qed.

Lemma target_loc : Loc.of_path (X2 ++ String TPath.backslash n) = T.
Proof.
  rewrite of_path_plain by (reflexivity || apply n_plain).
  now rewrite LDir_loc.
Qed.

Lemma LFileName_last :
  exists y,
    Str.last_char (X2 ++ String TPath.backslash n) = Some y
    /\ Ascii.eqb y TPath.backslash = false.
Proof.
  destruct n_plain as (Hne & _).
  destruct (last_char_some n Hne) as [y Hy]. exists y. split.
  - rewrite last_char_app. destruct n; [discriminate | exact Hy].
  - pose proof (last_char_not _ _ _ n_no_sep Hy) as Hp.
    unfold TPath.is_sep in Hp. now apply orb_false_iff in Hp as [Hp _].
Qed.

Let s1 := fs w ++ [(W, Dir)].
Let m1 := mk_machine (this (named_machine m)) (with_fs (tick_env w) s1).
Let s2 := filter (fun e => negb (Loc.eqb (fst e) T)) s1 ++ [(T, File data)].
Let m2 := mk_machine (this (named_machine m)) (with_fs (tick_env w) s2).

Lemma workspace_made : Store.is_dir s1 W = true.
Proof.
  unfold s1, Store.is_dir. rewrite lookup_app, workspace_fresh.
  unfold Store.lookup. cbn [find fst snd]. now rewrite loc_eqb_refl.
Qed.

Lemma create_run : create_temp_directory (named_machine m) = (Returned None, m1).
Proof.
  destruct ws_ends as (Hne & _).
  unfold create_temp_directory, try_catch.
  rewrite (bind_returned _ _ (named_machine m) (this (named_machine m))
             (named_machine m)) by reflexivity.
  rewrite ws_is_tempDirectory.
  rewrite (bind_returned _ _ (named_machine m) tt m1).
  2:{ unfold TDirectory.CreateDirectory. rewrite Hne.
      unfold update_env, m1, named_machine. cbn [this env].
      rewrite fs_tick_env, guarded_locs_tick_env, ws_loc. fold w.
      unfold W.
      replace (G ++ [leaf; wsname]) with ((G ++ [leaf]) ++ [wsname])
        by (now rewrite <- app_assoc).
      rewrite (force_dirs_new (guarded_locs w) (G ++ [leaf]) [] (fs w) wsname).
      - unfold s1, W. cbn [Datatypes.app]. now rewrite <- app_assoc.
      - exact temp_root_exists.
      - cbn [Datatypes.app]. rewrite <- app_assoc. exact workspace_fresh.
      - cbn [Datatypes.app]. rewrite <- app_assoc. exact workspace_free. }
  rewrite (bind_returned _ _ m1 true m1).
  2:{ unfold TDirectory.Exists, bind, get_env, ret, m1. cbn [env fs with_fs].
      now rewrite Hne, ws_loc, workspace_made. }
  reflexivity.
Qed.

Lemma entry_run :
  extract_entry [mk_entry name (Stored data)] 0 m1 = (Returned tt, m2).
Proof.
  destruct X1_facts as (HX1 & _). destruct LFileName_last as (y & Hy & Hyb).
  unfold extract_entry.
  rewrite (bind_returned _ _ m1 (this m1) m1) by reflexivity.
  change (tempDirectory (this m1)) with (tempDirectory (this (named_machine m))).
  rewrite ws_is_tempDirectory.
  change (TZipFile.FileNames [mk_entry name (Stored data)] 0) with name.
  rewrite (bind_returned _ _ _ _ _
             (TPath_Combine_valid ws name m1 ws_valid name_valid)).
  rewrite dir_eq.
  rewrite (bind_returned _ _ m1 true m1).
  2:{ unfold TDirectory.Exists, bind, get_env, ret, m1. cbn [env fs with_fs].
      rewrite HX1, dir_loc. cbn [negb andb]. f_equal. f_equal.
      unfold s1. apply is_dir_app.
      pose proof (temp_root_exists (length (G ++ [leaf]))) as H.
      rewrite firstn_all in H. apply H. rewrite length_app. cbn. lia. }
  cbn [negb].
  rewrite (bind_returned _ _ m1 tt m1) by reflexivity.
  unfold TZipFile.Extract. cbn [find entry_name]. rewrite String.eqb_refl.
  cbn [entry_data entry_name]. rewrite LFileName_eq, LDir_eq.
  assert (HX2 : Str.is_empty X2 = false) by apply is_empty_app.
  rewrite HX2.
  rewrite (bind_returned _ _ m1 tt m1).
  2:{ unfold TDirectory.CreateDirectory. rewrite HX2.
      unfold update_env, m1. cbn [this env fs with_fs guarded_locs].
      rewrite LDir_loc, guarded_locs_tick_env. fold w.
      rewrite force_dirs_present; [reflexivity |].
      intros k Hk. cbn [Datatypes.app]. unfold s1.
      apply reachable_app_store; [| exact Hk].
      exact (reachable_prefix _ _ _ temp_root_exists). }
  rewrite Hy, Hyb.
  unfold TZipFile.decompress_to, TFileStream_Create_Write, bind, get_env, m1.
  cbn [env fs with_fs guarded_locs].
  rewrite target_loc, guarded_locs_tick_env. fold w. unfold T.
  rewrite write_file_new.
  - reflexivity.
  - unfold s1. apply is_dir_app, above_exists.
  - fold T. unfold s1, Store.is_dir. rewrite lookup_app.
    unfold Store.is_dir in target_no_dir.
    destruct (Store.lookup (fs w) T) as [[| d] |];
      [discriminate | reflexivity |].
    unfold Store.lookup. cbn [find fst].
    destruct (Loc.eqb W T) eqn:E; [| reflexivity].
    apply loc_eqb_length in E. unfold W, T in E.
    rewrite !length_app in E. cbn in E. lia.
  - exact target_free.
Qed.

Lemma name_escapes : escapes_destination name = true.
Proof.
  unfold escapes_destination. apply orb_true_iff. right.
  change name with (".." ++ String TPath.backslash n)%string.
  rewrite segments_app by reflexivity.
  rewrite (segments_plain n n_plain). reflexivity.
Qed.

Lemma dotdot_run :
  ExtractZipToTemp (ZipArchive [mk_entry name (Stored data)]) m
  = (Returned true, m2).
Proof.
  rewrite ExtractZipToTemp_unfold. unfold try_catch.
  rewrite (bind_returned _ _ _ _ _ create_run).
  rewrite extract_all_entries_archive.
  change (TZipFile.FileCount [mk_entry name (Stored data)]) with 1%nat.
  cbn [for_loop].
  rewrite (bind_returned _ _ _ _ _ entry_run). reflexivity.
Qed.

(** An entry named [..\n] is written to [G\n], above the temporary files
    root [G\leaf], and the call succeeds. *)
Lemma dotdot_entry_lands_above :
  let done :=
    ExtractZipToTemp (ZipArchive [mk_entry name (Stored data)]) m in
  escapes_destination name = true
  /\ fst done = Returned true
  /\ shown (env (snd done)) = shown (env m)
  /\ Loc.of_path (tempDirectory (this (snd done))) = W
  /\ Store.lookup (fs (env (snd done))) T = Some (File data)
  /\ Loc.is_prefix (Loc.of_path (tempDirectory (this (snd done)))) T = false.
Proof.
  cbv zeta. rewrite dotdot_run. cbn [fst snd].
  assert (Hws : Loc.of_path (tempDirectory (this m2)) = W).
  { unfold m2. cbn [this]. rewrite ws_is_tempDirectory. apply ws_loc. }
  split; [apply name_escapes |].
  split; [reflexivity |].
  split; [unfold m2; cbn [env shown with_fs]; apply shown_tick_env |].
  split; [exact Hws |].
  split.
  - unfold m2, s2. cbn [env fs with_fs]. apply lookup_written.
  - rewrite Hws.
    destruct (Loc.is_prefix W T) eqn:E; [| reflexivity].
    apply is_prefix_length in E. unfold W, T in E.
    rewrite !length_app in E. cbn in E. lia.
Qed.

End DotDotEntry.

(** ** Paths that stay below a directory *)


Lemma not_escaping_dotdot_free s :
  existsb (String.eqb "..") (TPath.segments s) = false -> dotdot_free s.
Proof.
  unfold TPath.segments, dotdot_free.
  induction (TPath.raw_split s) as [| x l IH]; [constructor |].
  cbn [filter]. destruct (Str.is_empty x) eqn:E; cbn [negb existsb].
  - intros H. constructor; [| now apply IH].
    destruct x; [discriminate | discriminate].
  - intros H. apply orb_false_iff in H as [Hx Hl].
    constructor; [| now apply IH].
    intros ->. discriminate.
Qed.

Lemma dotdot_free_join a c b :
  TPath.is_sep c = true ->
  dotdot_free (a ++ String c b) <-> dotdot_free a /\ dotdot_free b.
Proof.
  intros Hc. unfold dotdot_free. rewrite raw_split_app by exact Hc.
  apply Forall_app.
Qed.

Lemma dotdot_free_empty : dotdot_free "".
Proof. repeat constructor. discriminate. Qed.

(** The segments of [u ++ v]: the last segment of [u] and the first of [v]
    are one segment. *)
Lemma raw_split_glue u v :
  TPath.raw_split (u ++ v)
  = removelast (TPath.raw_split u)
    ++ (last (TPath.raw_split u) "" ++ hd "" (TPath.raw_split v))%string
       :: tl (TPath.raw_split v).
Proof.
  induction u as [| c u IH].
  - cbn [String.append TPath.raw_split removelast last Datatypes.app].
    destruct (TPath.raw_split v) as [| x l] eqn:E;
      [now apply raw_split_not_nil in E | reflexivity].
  - change (String c u ++ v)%string with (String c (u ++ v)).
    cbn [TPath.raw_split]. rewrite IH.
    pose proof (raw_split_not_nil u) as Hne.
    destruct (TPath.is_sep c).
    + destruct (TPath.raw_split u) as [| x l]; [congruence |]. reflexivity.
    + destruct (TPath.raw_split u) as [| x l]; [congruence |].
      destruct l as [| y l]; reflexivity.
Qed.

Lemma append_colon_not_dotdot x y :
  (x ++ String TPath.colon y)%string <> "..".
Proof.
  destruct x as [| a [| b [| c x]]]; cbn; try discriminate.
Qed.

(** A prefix of a path without [..] that is cut at a colon has none
    either. *)
Lemma dotdot_free_colon u rest :
  dotdot_free ((u ++ String TPath.colon "") ++ rest) ->
  dotdot_free (u ++ String TPath.colon "").
Proof.
  unfold dotdot_free. rewrite append_assoc. rewrite !raw_split_glue.
  intros H. apply Forall_app in H as [H1 _].
  apply Forall_app. split; [exact H1 |].
  cbn [TPath.raw_split hd tl]. change (TPath.is_sep TPath.colon) with false.
  cbv iota. cbn [hd tl]. constructor; [| constructor].
  apply append_colon_not_dotdot.
Qed.


Lemma enter_dotdot_free segs :
  forall P, Forall (fun x => x <> "..") segs ->
            exists X, fold_left Loc.enter segs P = P ++ X.
Proof.
  induction segs as [| x segs IH]; intros P H.
  - exists []. now rewrite app_nil_r.
  - inversion H as [| ? ? Hx Hl]; subst. cbn [fold_left]. unfold Loc.enter at 2.
    destruct (String.eqb x ".").
    + now apply IH.
    + destruct (String.eqb x "..") eqn:E;
        [apply String.eqb_eq in E; congruence |].
      destruct (IH (P ++ [x]) Hl) as [X HX]. exists (x :: X).
      rewrite HX, <- app_assoc. reflexivity.
Qed.

Lemma segments_dotdot_free t :
  dotdot_free t -> Forall (fun x => x <> "..") (TPath.segments t).
Proof.
  unfold dotdot_free, TPath.segments. intros H.
  apply Forall_forall. intros x Hx. apply filter_In in Hx as [Hx _].
  rewrite Forall_forall in H. now apply H.
Qed.

(** A string that holds a character of some kind, cut at the last one. *)
Lemma split_at_last (p : ascii -> bool) s :
  Str.contains_char p s = true ->
  exists a c rest,
    s = (a ++ String c rest)%string
    /\ p c = true /\ Str.contains_char p rest = false.
Proof.
  induction s as [| x s IH]; [discriminate |].
  cbn [Str.contains_char]. intros H.
  destruct (Str.contains_char p s) eqn:E.
  - destruct (IH eq_refl) as (a & c & rest & -> & Hc & Hr).
    exists (String x a), c, rest. auto.
  - rewrite orb_false_r in H. exists "", x, s. auto.
Qed.

Lemma sep_not_colon c : TPath.is_sep c = true -> Ascii.eqb c TPath.colon = false.
Proof.
  unfold TPath.is_sep. intros H. apply orb_true_iff in H as [H | H];
    apply Ascii.eqb_eq in H; subst; reflexivity.
Qed.

Lemma delim_cases c :
  SysUtils.is_delim c = true -> c = TPath.backslash \/ c = TPath.colon.
Proof.
  unfold SysUtils.is_delim. intros H. apply orb_true_iff in H as [H | H];
    apply Ascii.eqb_eq in H; auto.
Qed.

Lemma last_char_split s c :
  Str.last_char s = Some c -> s = (Str.drop_last s ++ String c "")%string.
Proof.
  induction s as [| x s IH]; [discriminate |].
  destruct s as [| y s].
  - cbn. now intros [= ->].
  - intros H. change (Str.drop_last (String x (String y s)))
      with (String x (Str.drop_last (String y s))).
    cbn [String.append]. f_equal. now apply IH.
Qed.


Lemma inside_loc ws p :
  inside ws p -> Loc.is_prefix (Loc.of_path ws) (Loc.of_path p) = true.
Proof.
  intros [-> | (t & -> & Ht)].
  - rewrite <- (app_nil_r (Loc.of_path ws)) at 2. apply is_prefix_app.
  - rewrite of_path_app by reflexivity.
    destruct (enter_dotdot_free _ (Loc.of_path ws) (segments_dotdot_free t Ht))
      as [X ->].
    apply is_prefix_app.
Qed.

Section Inside.

Variable ws : string.
Variable y : ascii.
Hypothesis ws_end : Str.last_char ws = Some y.
Hypothesis y_plain : is_sep_or_colon y = false.

Lemma ws_not_empty : Str.is_empty ws = false.
Proof. destruct ws; [discriminate | reflexivity]. Qed.

Lemma ws_no_sep : TPath.ends_with_sep ws = false.
Proof.
  unfold TPath.ends_with_sep. rewrite ws_end.
  unfold is_sep_or_colon in y_plain. now apply orb_false_iff in y_plain.
Qed.

Lemma ws_no_colon : TPath.ends_with_colon ws = false.
Proof.
  unfold TPath.ends_with_colon. rewrite ws_end.
  unfold is_sep_or_colon in y_plain. now apply orb_false_iff in y_plain.
Qed.

Lemma y_no_delim : SysUtils.is_delim y = false.
Proof.
  unfold is_sep_or_colon, TPath.is_sep in y_plain.
  apply orb_false_iff in y_plain as [H1 H2].
  apply orb_false_iff in H1 as [H1 _].
  unfold SysUtils.is_delim. now rewrite H1, H2.
Qed.

(** The directory of a path below [ws]. *)
Lemma GetDirectoryName_inside name :
  dotdot_free name ->
  let dir := TPath.GetDirectoryName (ws ++ String TPath.backslash name) in
  inside ws dir
  /\ Str.is_empty dir = false
  /\ TPath.ends_with_colon dir = false.
Proof.
  intros Hname dir. subst dir.
  destruct (Str.contains_char TPath.is_sep name) eqn:E.
  - destruct (split_at_last _ _ E) as (a & c & rest & -> & Hc & Hrest).
    apply (dotdot_free_join a c rest Hc) in Hname as [Ha _].
    replace (ws ++ String TPath.backslash (a ++ String c rest))%string
      with ((ws ++ String TPath.backslash a) ++ String c rest)%string
      by (now rewrite append_assoc).
    unfold TPath.GetDirectoryName.
    rewrite upto_last_sep_app by assumption.
    rewrite drop_last_snoc, is_empty_app. cbn [orb].
    destruct (TPath.ends_with_colon (ws ++ String TPath.backslash a)) eqn:Ec.
    + split; [| split].
      * right. exists (a ++ String c "")%string. split.
        -- now rewrite append_assoc.
        -- apply (dotdot_free_join a c "" Hc). split;
             [exact Ha | apply dotdot_free_empty].
      * destruct (ws ++ String TPath.backslash a)%string; reflexivity.
      * unfold TPath.ends_with_colon. rewrite last_char_app.
        cbn [Str.last_char]. now apply sep_not_colon.
    + split; [| split].
      * right. exists a. split; [reflexivity | exact Ha].
      * apply is_empty_app.
      * exact Ec.
  - rewrite GetDirectoryName_join;
      [| reflexivity | exact E | apply ws_not_empty | apply ws_no_colon].
    split; [now left |]. split; [apply ws_not_empty | apply ws_no_colon].
Qed.

(** A path without [..] joined to a directory below [ws]. *)
Lemma Combine_inside dir name :
  inside ws dir ->
  Str.is_empty dir = false ->
  TPath.ends_with_colon dir = false ->
  Str.is_empty name = false ->
  TPath.IsPathRooted name = false ->
  dotdot_free name ->
  exists t, TPath.Combine dir name = (ws ++ String TPath.backslash t)%string
            /\ dotdot_free t.
Proof.
  intros Hin Hne Hcolon Hname Hroot Hfree. unfold TPath.Combine.
  rewrite Hname, Hne, Hroot, Hcolon, orb_false_r.
  destruct Hin as [-> | (t & -> & Ht)].
  - rewrite ws_no_sep. now exists name.
  - destruct (TPath.ends_with_sep (ws ++ String TPath.backslash t)) eqn:Es.
    + unfold TPath.ends_with_sep in Es. rewrite last_char_app in Es.
      destruct t as [| c t].
      * exists name. split; [now rewrite append_assoc | exact Hfree].
      * change (Str.last_char (String TPath.backslash (String c t)))
          with (Str.last_char (String c t)) in Es.
        destruct (Str.last_char (String c t)) as [l |] eqn:El;
          [| discriminate].
        pose proof (last_char_split _ _ El) as Hsplit.
        set (t0 := Str.drop_last (String c t)) in *.
        rewrite Hsplit in Ht.
        apply (dotdot_free_join t0 l "" Es) in Ht as [Ht0 _].
        exists (t0 ++ String l name)%string. split.
        -- clearbody t0. rewrite Hsplit, append_assoc. cbn [String.append].
           now rewrite append_assoc.
        -- apply (dotdot_free_join t0 l name Es). now split.
    + exists (t ++ String TPath.backslash name)%string. split.
      * now rewrite append_assoc.
      * apply (dotdot_free_join t TPath.backslash name eq_refl). now split.
Qed.

(** The directory [ExtractFileDir] gives for a path below [ws]. *)
Lemma ExtractFileDir_inside t :
  dotdot_free t ->
  inside ws (SysUtils.ExtractFileDir (ws ++ String TPath.backslash t)).
Proof.
  intros Ht.
  destruct (Str.contains_char SysUtils.is_delim t) eqn:E.
  - destruct (split_at_last _ _ E) as (u & l & rest & -> & Hl & Hrest).
    replace (ws ++ String TPath.backslash (u ++ String l rest))%string
      with ((ws ++ String TPath.backslash u) ++ String l rest)%string
      by (now rewrite append_assoc).
    unfold SysUtils.ExtractFileDir.
    rewrite upto_last_delim_app by assumption.
    rewrite last_char_app, drop_last_snoc. cbn [Str.last_char].
    assert (Hd : dotdot_free (u ++ String l "")).
    { destruct (delim_cases l Hl) as [-> | ->].
      - apply (dotdot_free_join u TPath.backslash rest eq_refl) in Ht as [Hu _].
        apply (dotdot_free_join u TPath.backslash "" eq_refl).
        split; [exact Hu | apply dotdot_free_empty].
      - apply (dotdot_free_colon u rest). now rewrite append_assoc. }
    assert (Hwhole :
      inside ws ((ws ++ String TPath.backslash u) ++ String l "")%string).
    { right. exists (u ++ String l "")%string.
      split; [now rewrite append_assoc | exact Hd]. }
    destruct (Str.last_char (ws ++ String TPath.backslash u)) as [b |];
      [| exact Hwhole].
    destruct (Ascii.eqb l TPath.backslash) eqn:Eb; cbn [andb];
      [| exact Hwhole].
    destruct (SysUtils.is_delim b); cbn [negb]; [exact Hwhole |].
    apply Ascii.eqb_eq in Eb. subst l.
    right. exists u. split; [reflexivity |].
    now apply (dotdot_free_join u TPath.backslash rest eq_refl) in Ht as [Hu _].
  - rewrite (ExtractFileDir_join ws y t E ws_end y_no_delim). now left.
Qed.

End Inside.

Lemma raw_split_replace s :
  TPath.raw_split (Str.replace_char TPath.slash TPath.backslash s)
  = TPath.raw_split s.
Proof.
  induction s as [| c s IH]; [reflexivity |].
  cbn [Str.replace_char TPath.raw_split]. rewrite IH.
  destruct (Ascii.eqb c TPath.slash) eqn:E.
  - apply Ascii.eqb_eq in E. subst c. reflexivity.
  - reflexivity.
Qed.

Lemma replace_facts s :
  Str.is_empty (Str.replace_char TPath.slash TPath.backslash s)
  = Str.is_empty s
  /\ TPath.IsPathRooted (Str.replace_char TPath.slash TPath.backslash s)
     = TPath.IsPathRooted s.
Proof.
  split; [destruct s; reflexivity |].
  assert (Hsep : forall c,
    TPath.is_sep (if Ascii.eqb c TPath.slash then TPath.backslash else c)
    = TPath.is_sep c).
  { intros c. destruct (Ascii.eqb c TPath.slash) eqn:E; [| reflexivity].
    apply Ascii.eqb_eq in E. now subst c. }
  assert (Hcolon : forall c,
    Ascii.eqb (if Ascii.eqb c TPath.slash then TPath.backslash else c) TPath.colon
    = Ascii.eqb c TPath.colon).
  { intros c. destruct (Ascii.eqb c TPath.slash) eqn:E; [| reflexivity].
    apply Ascii.eqb_eq in E. now subst c. }
  destruct s as [| c [| d s]]; cbn [Str.replace_char TPath.IsPathRooted];
    [reflexivity | apply Hsep | now rewrite Hsep, Hcolon].
Qed.

(** ** Changes confined to a directory *)


Lemma same_outside_refl W s : same_outside W s s.
Proof. intros e _. reflexivity. Qed.

Lemma same_outside_trans W a b c :
  same_outside W a b -> same_outside W b c -> same_outside W a c.
Proof. intros H1 H2 e He. rewrite (H2 e He). now apply H1. Qed.

Lemma same_outside_added W s p x :
  Loc.is_prefix W p = true -> same_outside W s (s ++ [(p, x)]).
Proof.
  intros Hp e He. rewrite in_app_iff. cbn [In]. split; [| tauto].
  intros [H | [<- | []]]; [exact H |]. cbn [fst] in He. congruence.
Qed.

Lemma is_prefix_short W :
  forall p q,
    Loc.is_prefix W (p ++ q) = true -> (length p <= length W)%nat ->
    Loc.eqb (firstn (length p) W) p = true.
Proof.
  induction W as [| x W IH]; intros [| z p] q H Hlen; cbn in *;
    try reflexivity; try lia.
  apply andb_true_iff in H as [H1 H2]. rewrite H1. apply (IH p q H2). lia.
Qed.

Lemma is_prefix_long W :
  forall p q,
    Loc.is_prefix W (p ++ q) = true -> (length W <= length p)%nat ->
    Loc.is_prefix W p = true.
Proof.
  induction W as [| x W IH]; intros [| z p] q H Hlen; cbn in *;
    try reflexivity; try lia.
  apply andb_true_iff in H as [H1 H2]. rewrite H1. apply (IH p q H2). lia.
Qed.

(** [ForceDirectories] for a path at or below [W], whose directories exist:
    what it makes lies below [W]. *)
Lemma force_dirs_confined prot W rest :
  forall pre s,
    Loc.is_prefix W (pre ++ rest) = true ->
    reachable s W ->
    same_outside W s (Store.force_dirs prot pre rest s).
Proof.
  induction rest as [| seg rest IH]; intros pre s Hin Hreach;
    [apply same_outside_refl |].
  cbn [Store.force_dirs].
  assert (Hin' : Loc.is_prefix W ((pre ++ [seg]) ++ rest) = true)
    by (now rewrite <- app_assoc).
  destruct (Store.lookup s (pre ++ [seg])) as [[| d] |] eqn:El.
  - now apply IH.
  - apply same_outside_refl.
  - destruct (Store.guarded prot (pre ++ [seg])); [apply same_outside_refl |].
    assert (Hp : Loc.is_prefix W (pre ++ [seg]) = true).
    { destruct (Nat.le_gt_cases (length W) (length (pre ++ [seg])))
        as [Hlong | Hshort].
      - exact (is_prefix_long W _ _ Hin' Hlong).
      - exfalso.
        pose proof (is_prefix_short W _ _ Hin' ltac:(lia)) as Heq.
        pose proof (Hreach (length (pre ++ [seg]))) as Hdir.
        rewrite length_app in Hdir, Hshort. cbn [length] in Hdir, Hshort.
        specialize (Hdir ltac:(lia)).
        rewrite length_app in Heq. cbn [length] in Heq.
        apply is_dir_lookup in Hdir.
        rewrite (lookup_eqb s _ _ Heq) in Hdir. congruence. }
    eapply same_outside_trans; [apply same_outside_added, Hp |].
    apply IH; [exact Hin' | now apply reachable_app_store].
Qed.

Lemma force_dirs_reachable prot W pre rest s :
  reachable s W -> reachable (Store.force_dirs prot pre rest s) W.
Proof. intros H k Hk. apply force_dirs_keeps_dir, H, Hk. Qed.

Lemma write_file_confined prot W s T data s' :
  Loc.is_prefix W T = true ->
  Store.write_file prot s T data = Some s' ->
  same_outside W s s'.
Proof.
  intros HT. unfold Store.write_file. destruct T as [| x T]; [discriminate |].
  destruct (_ && _ && _)%bool; [| discriminate]. intros [= <-] e He.
  rewrite in_app_iff, filter_In. cbn [In].
  assert (Hne : Loc.eqb (fst e) (x :: T) = false).
  { destruct (Loc.eqb (fst e) (x :: T)) eqn:E; [| reflexivity].
    rewrite (is_prefix_eqb W _ _ E) in He. congruence. }
  rewrite Hne. cbn [negb]. split; [| tauto].
  intros [[H _] | [<- | []]]; [exact H |]. cbn [fst] in He. congruence.
Qed.

(** The last step of [ForceDirectories], when the directories before it
    exist. *)
Lemma force_dirs_last prot rest :
  forall pre s x,
    (forall k, (0 < k <= length rest)%nat ->
               Store.is_dir s (pre ++ firstn k rest) = true) ->
    Store.force_dirs prot pre (rest ++ [x]) s
    = match Store.lookup s (pre ++ rest ++ [x]) with
      | Some _ => s
      | None => if Store.guarded prot (pre ++ rest ++ [x]) then s
                else s ++ [(pre ++ rest ++ [x], Dir)]
      end.
Proof.
  induction rest as [| seg rest IH]; intros pre s x H.
  - cbn [Datatypes.app Store.force_dirs].
    destruct (Store.lookup s (pre ++ [x])) as [[| d] |]; reflexivity.
  - cbn [Datatypes.app Store.force_dirs].
    rewrite (is_dir_lookup s (pre ++ [seg])) by (apply (H 1%nat); cbn; lia).
    replace (pre ++ seg :: rest ++ [x]) with ((pre ++ [seg]) ++ rest ++ [x])
      by (rewrite <- app_assoc; reflexivity).
    apply IH.
    intros k Hk. rewrite <- app_assoc. apply (H (S k)). cbn [length]. lia.
Qed.


Lemma confined_refl W m : confined W m m.
Proof. intros H. split; [exact H | apply same_outside_refl]. Qed.

Lemma confined_trans W a b c :
  confined W a b -> confined W b c -> confined W a c.
Proof.
  intros H1 H2 Ha. destruct (H1 Ha) as [Hb Hab].
  destruct (H2 Hb) as [Hc Hbc]. split; [exact Hc |].
  exact (same_outside_trans W _ _ _ Hab Hbc).
Qed.

Section Confined.

Variable ws : string.
Variable y : ascii.
Hypothesis ws_end : Str.last_char ws = Some y.
Hypothesis y_plain : is_sep_or_colon y = false.

Let W := Loc.of_path ws.

Lemma confined_CreateDirectory path :
  inside ws path -> stable (confined W) (TDirectory.CreateDirectory path).
Proof.
  intros Hin m. unfold TDirectory.CreateDirectory.
  destruct (Str.is_empty path); [apply confined_refl |].
  unfold update_env. cbn [snd]. intros Hreach. cbn [env fs with_fs].
  split; [now apply force_dirs_reachable |].
  apply force_dirs_confined; [| exact Hreach].
  cbn [Datatypes.app]. now apply inside_loc.
Qed.

Lemma confined_Create_Write path data :
  inside ws path -> stable (confined W) (TFileStream_Create_Write path data).
Proof.
  intros Hin m. unfold TFileStream_Create_Write, bind, get_env.
  destruct (Store.write_file _ _ _ _) as [s' |] eqn:E;
    [| apply confined_refl].
  unfold update_env. cbn [snd]. intros Hreach. cbn [env fs with_fs]. split.
  - intros k Hk. exact (write_file_keeps_dir _ _ _ _ _ _ E (Hreach k Hk)).
  - exact (write_file_confined _ W _ _ _ _ (inside_loc ws path Hin) E).
Qed.

Lemma confined_Extract z name dir :
  inside ws dir ->
  Str.is_empty dir = false ->
  TPath.ends_with_colon dir = false ->
  Str.is_empty name = false ->
  TPath.IsPathRooted name = false ->
  dotdot_free name ->
  stable (confined W) (TZipFile.Extract z name dir).
Proof.
  intros Hin Hne Hcolon Hname Hroot Hfree. unfold TZipFile.Extract.
  destruct (find _ z) as [e |] eqn:F;
    [| apply stable_throw, confined_refl].
  apply find_some in F as [_ F]. apply String.eqb_eq in F. rewrite F.
  destruct (replace_facts name) as [R1 R2].
  destruct (Combine_inside ws y ws_end y_plain dir
              (Str.replace_char TPath.slash TPath.backslash name)
              Hin Hne Hcolon)
    as (t & Hc & Ht).
  { now rewrite R1. }
  { now rewrite R2. }
  { unfold dotdot_free. now rewrite raw_split_replace. }
  rewrite Hc.
  assert (Hfile : inside ws (ws ++ String TPath.backslash t))
    by (right; now exists t).
  pose proof (ExtractFileDir_inside ws y ws_end y_plain t Ht) as Hdir.
  stable_walk (confined_refl W) (confined_trans W)
    ltac:(first [ apply confined_CreateDirectory; exact Hdir
                | apply confined_Create_Write; exact Hfile ]).
Qed.

Lemma confined_extract_entry z i m :
  tempDirectory (this m) = ws ->
  Str.is_empty (TZipFile.FileNames z i) = false ->
  escapes_destination (TZipFile.FileNames z i) = false ->
  confined W m (snd (extract_entry z i m)).
Proof.
  intros Htd Hname Hesc.
  unfold escapes_destination in Hesc. apply orb_false_iff in Hesc as [Hroot Hdd].
  apply not_escaping_dotdot_free in Hdd.
  unfold extract_entry.
  rewrite (bind_returned _ _ m (this m) m) by reflexivity. rewrite Htd.
  unfold TPath_Combine.
  destruct (_ && _)%bool.
  2:{ rewrite (bind_thrown _ _ m _ m) by reflexivity. apply confined_refl. }
  rewrite (bind_returned _ _ m _ m) by reflexivity.
  rewrite (Combine_join ws _ (ws_not_empty ws y ws_end) Hname Hroot
             (ws_no_sep ws y ws_end y_plain)
             (ws_no_colon ws y ws_end y_plain)).
  destruct (GetDirectoryName_inside ws y ws_end y_plain _ Hdd)
    as (Hin & Hne & Hcolon).
  clear Htd. revert m.
  change (stable (confined W)
            (present <- TDirectory.Exists
                          (TPath.GetDirectoryName
                             (ws ++ String TPath.backslash
                                      (TZipFile.FileNames z i))) ;;
             (if negb present
              then TDirectory.CreateDirectory
                     (TPath.GetDirectoryName
                        (ws ++ String TPath.backslash (TZipFile.FileNames z i)))
              else ret tt) ;;
             TZipFile.Extract z (TZipFile.FileNames z i)
               (TPath.GetDirectoryName
                  (ws ++ String TPath.backslash (TZipFile.FileNames z i))))).
  stable_walk (confined_refl W) (confined_trans W)
    ltac:(first [ apply confined_CreateDirectory; exact Hin
                | apply confined_Extract; assumption
                | progress unfold TDirectory.Exists ]).
Qed.

End Confined.

Lemma for_loop_thrown body n :
  forall i m e m',
    for_loop n i body m = (Thrown e, m') ->
    exists j mj, fst (body j mj) = Thrown e.
Proof.
  induction n as [| n IH]; intros i m e m' H; [discriminate |].
  cbn [for_loop] in H. unfold bind in H.
  destruct (body i m) as [[[] | e1] m1] eqn:E.
  - exact (IH _ _ _ _ H).
  - injection H as <- <-. exists i, m. now rewrite E.
Qed.

Lemma extract_entry_thrown z i m e :
  fst (extract_entry z i m) = Thrown e -> raised_by_library (ZipArchive z) e.
Proof.
  unfold extract_entry.
  rewrite (bind_returned _ _ m (this m) m) by reflexivity.
  unfold bind at 1.
  destruct (TPath_Combine _ _ m) as [[fullPath | e1] m1] eqn:E1.
  2:{ cbn [fst]. intros [= <-]. right. left.
      eexists _, _, m. now rewrite E1. }
  unfold bind at 1.
  destruct (TDirectory.Exists _ m1) as [[present | e2] m2] eqn:E2.
  2:{ unfold TDirectory.Exists, bind, get_env, ret in E2. discriminate. }
  unfold bind at 1.
  destruct (negb present).
  - destruct (TDirectory.CreateDirectory _ m2) as [[[] | e3] m3] eqn:E3.
    + intros H. right. right. right. eexists z, _, _, m3. exact H.
    + cbn [fst]. intros [= <-]. right. right. left.
      eexists _, m2. now rewrite E3.
  - cbn [ret]. intros H. right. right. right. eexists z, _, _, m2. exact H.
Qed.

(** When [ExtractZipToTemp] returns false it has said why: the directory
    could not be created, or a library call raised an exception. *)
Lemma ExtractZipToTemp_failure_origin zs m :
  exists b m',
    ExtractZipToTemp zs m = (Returned b, m')
    /\ (b = true -> shown (env m') = shown (env m))
    /\ (b = false ->
        shown (env m')
        = shown (env m) ++ ["Unable to create temporary directory"]
        \/ exists e,
            raised_by_library zs e
            /\ shown (env m')
               = shown (env m) ++ [("Error extracting ZIP file: " ++ e)%string]).
Proof.
  rewrite ExtractZipToTemp_unfold. unfold try_catch.
  rewrite <- (shown_named_machine m).
  destruct (create_temp_directory_effect (named_machine m))
    as [m1 [[Hc Hs] | [Hc Hs]]].
  - rewrite (bind_returned _ _ _ _ _ Hc).
    destruct zs as [| entries].
    + exists false. eexists. split; [reflexivity |].
      split; [discriminate |]. intros _. right. exists "Invalid Zip File".
      split; [left; exists m; reflexivity |].
      cbn [env shown with_shown]. now rewrite Hs.
    + rewrite extract_all_entries_archive.
      pose proof (same_shown_entries entries m1) as Hs2.
      unfold same_shown in Hs2.
      destruct (for_loop _ _ _ m1) as [[[] | e] m2] eqn:E; cbn [snd] in Hs2.
      * exists true, m2. split; [reflexivity |].
        split; [intros _; congruence | discriminate].
      * exists false. eexists. split; [reflexivity |].
        split; [discriminate |]. intros _. right. exists e. split.
        -- destruct (for_loop_thrown _ _ _ _ _ _ E) as (j & mj & Hj).
           exact (extract_entry_thrown entries j mj e Hj).
        -- unfold after_message. cbn [env shown with_shown]. congruence.
  - rewrite (bind_returned _ _ _ _ _ Hc).
    exists false, m1. split; [reflexivity |].
    split; [discriminate |]. intros _. left. exact Hs.
Qed.

Section ConfinedRun.

Variable ws : string.
Variable y : ascii.
Hypothesis ws_end : Str.last_char ws = Some y.
Hypothesis y_plain : is_sep_or_colon y = false.

Let W := Loc.of_path ws.

Lemma confined_entries z :
  Forall (fun e => stays_inside (entry_name e)) z ->
  forall n i m,
    (i + n <= length z)%nat ->
    tempDirectory (this m) = ws ->
    confined W m (snd (for_loop n i (extract_entry z) m)).
Proof.
  intros Hz. induction n as [| n IH]; intros i m Hi Htd;
    [apply confined_refl |].
  cbn [for_loop]. unfold bind.
  assert (Hnth : stays_inside (TZipFile.FileNames z i)).
  { unfold TZipFile.FileNames. rewrite Forall_forall in Hz.
    apply Hz, nth_In. lia. }
  destruct Hnth as [Hne Hesc].
  pose proof (confined_extract_entry ws y ws_end y_plain z i m Htd Hne Hesc)
    as Hstep.
  pose proof (same_form_extract_entry z i m) as Hform.
  unfold same_form in Hform.
  destruct (extract_entry z i m) as [[[] | e] m1]; cbn [snd] in *;
    [| exact Hstep].
  apply (confined_trans W m m1); [exact Hstep |].
  apply IH; [lia | congruence].
Qed.

Lemma create_temp_directory_confined m0 g x :
  tempDirectory (this m0) = ws ->
  Loc.of_path ws = g ++ [x] ->
  reachable (fs (env m0)) g ->
  exists o m1,
    create_temp_directory m0 = (Returned o, m1)
    /\ this m1 = this m0
    /\ same_outside W (fs (env m0)) (fs (env m1))
    /\ (o = None -> reachable (fs (env m1)) W).
Proof.
  intros Htd Hloc Hg.
  assert (Hself : Loc.is_prefix W W = true)
    by (apply loc_eqb_is_prefix, loc_eqb_refl).
  set (s1 := Store.force_dirs (guarded_locs (env m0)) [] W (fs (env m0))).
  set (m1 := mk_machine (this m0) (with_fs (env m0) s1)).
  assert (Hrun :
    create_temp_directory m0
    = if Store.is_dir s1 W then (Returned None, m1)
      else (Returned (Some false),
            after_message m1 "Unable to create temporary directory")).
  { unfold create_temp_directory, try_catch, bind, get_this,
      TDirectory.CreateDirectory, TDirectory.Exists, bind, get_env, ret,
      ShowMessage, update_env.
    cbn [env this fs with_fs shown with_shown guarded_locs fst snd].
    rewrite Htd, (ws_not_empty ws y ws_end). cbn [negb andb].
    fold W. fold s1. cbn [env fs with_fs].
    destruct (Store.is_dir s1 W); reflexivity. }
  assert (Hs1 :
    s1 = match Store.lookup (fs (env m0)) W with
         | Some _ => fs (env m0)
         | None => if Store.guarded (guarded_locs (env m0)) W
                   then fs (env m0)
                   else fs (env m0) ++ [(W, Dir)]
         end).
  { unfold s1, W. rewrite Hloc.
    exact (force_dirs_last (guarded_locs (env m0)) g [] (fs (env m0)) x Hg). }
  assert (Hout : same_outside W (fs (env m0)) s1).
  { rewrite Hs1. destruct (Store.lookup (fs (env m0)) W);
      [apply same_outside_refl |].
    destruct (Store.guarded _ W);
      [apply same_outside_refl | now apply same_outside_added]. }
  assert (Hreach : Store.is_dir s1 W = true -> reachable s1 W).
  { intros Hdir. unfold W. rewrite Hloc. apply reachable_snoc.
    - intros k Hk. unfold s1. apply force_dirs_keeps_dir, Hg, Hk.
    - rewrite <- Hloc. exact Hdir. }
  rewrite Hrun. destruct (Store.is_dir s1 W).
  - exists None, m1. split; [reflexivity |]. split; [reflexivity |].
    split; [exact Hout |]. intros _. now apply Hreach.
  - eexists (Some false), _. split; [reflexivity |]. split; [reflexivity |].
    split; [exact Hout | discriminate].
Qed.

Lemma ExtractZipToTemp_confined zs m g x :
  workspace_name (temp_path (env m)) (tick_reading (env m)) = ws ->
  Loc.of_path ws = g ++ [x] ->
  reachable (fs (env m)) g ->
  (forall entries, zs = ZipArchive entries ->
                   Forall (fun e => stays_inside (entry_name e)) entries) ->
  same_outside W (fs (env m)) (fs (env (snd (ExtractZipToTemp zs m)))).
Proof.
  intros Hws Hloc Hg Hzs.
  rewrite ExtractZipToTemp_unfold. unfold try_catch.
  assert (Htd : tempDirectory (this (named_machine m)) = ws) by exact Hws.
  assert (Hg0 : reachable (fs (env (named_machine m))) g).
  { unfold named_machine. cbn [env]. now rewrite fs_tick_env. }
  destruct (create_temp_directory_confined (named_machine m) g x Htd Hloc Hg0)
    as (o & m1 & Hc & Hform & Hout & Hreach).
  assert (Hfs : fs (env (named_machine m)) = fs (env m)).
  { unfold named_machine. cbn [env]. apply fs_tick_env. }
  rewrite Hfs in Hout.
  rewrite (bind_returned _ _ _ _ _ Hc).
  destruct o as [b |]; [exact Hout |].
  destruct zs as [| entries]; [exact Hout |].
  rewrite extract_all_entries_archive.
  pose proof (confined_entries entries (Hzs entries eq_refl)
                (TZipFile.FileCount entries) 0 m1 (Nat.le_refl _)
                ltac:(congruence) (Hreach eq_refl)) as [_ Hloop].
  destruct (for_loop _ _ _ m1) as [[[] | e] m2]; cbn [snd] in *;
    exact (same_outside_trans W _ _ _ Hout Hloop).
Qed.

End ConfinedRun.

Lemma workspace_name_last r t :
  exists y,
    Str.last_char (workspace_name (r ++ String TPath.backslash "") t) = Some y
    /\ is_sep_or_colon y = false.
Proof.
  destruct (workspace_leaf_plain t) as (Hne & Hplain & _).
  destruct (last_char_some _ Hne) as [y Hy]. exists y. split.
  - unfold workspace_name. rewrite append_assoc.
    change ("FlagImages_" ++ IntToStr (static_cast_int t))%string
      with (workspace_leaf t) in *.
    cbn [String.append].
    destruct (workspace_leaf t) as [| c s] eqn:E; [discriminate |].
    rewrite last_char_app. cbn [Str.last_char] in *.
    destruct s; [exact Hy | exact Hy].
  - exact (last_char_not _ _ _ Hplain Hy).
Qed.

Lemma workspace_name_loc r t :
  Loc.of_path (workspace_name (r ++ String TPath.backslash "") t)
  = Loc.of_path r ++ [workspace_leaf t].
Proof.
  unfold workspace_name. rewrite append_assoc. cbn [String.append].
  apply of_path_plain; [reflexivity | apply workspace_leaf_plain].
Qed.



(** ** C2: entries in subdirectories *)

(** C2 at the archive with the entries [flag1.png] and [sub/flag2.jpg].
    For the second entry the loop computes the full path
    [...\sub/flag2.jpg] and its directory [...\sub], which it creates, and
    then extracts the entry into that directory under its whole stored
    name.  The call succeeds; [flag1.png] is where its path says, but the
    second file is written one directory too deep, to
    [sub\sub\flag2.jpg], and nothing exists at [sub\flag2.jpg].  The same
    happens when the stored name is [sub\flag2.jpg]. *)
Theorem nested_entry_is_written_one_level_too_deep :
  TPath.Combine "C:\Temp\FlagImages_1000" "sub/flag2.jpg"
  = "C:\Temp\FlagImages_1000\sub/flag2.jpg"
  /\ TPath.GetDirectoryName "C:\Temp\FlagImages_1000\sub/flag2.jpg"
     = "C:\Temp\FlagImages_1000\sub"
  /\ fst (Sample.nested_extraction "sub/flag2.jpg") = Returned true
  /\ tempDirectory (this (snd (Sample.nested_extraction "sub/flag2.jpg")))
     = "C:\Temp\FlagImages_1000"
  /\ Store.is_file (fs (env (snd (Sample.nested_extraction "sub/flag2.jpg"))))
       (Loc.of_path "C:\Temp\FlagImages_1000\flag1.png") = true
  /\ Store.lookup (fs (env (snd (Sample.nested_extraction "sub/flag2.jpg"))))
       (Loc.of_path "C:\Temp\FlagImages_1000\sub\flag2.jpg") = None
  /\ Store.is_file (fs (env (snd (Sample.nested_extraction "sub/flag2.jpg"))))
       (Loc.of_path "C:\Temp\FlagImages_1000\sub\sub\flag2.jpg") = true
  /\ fst (Sample.nested_extraction "sub\flag2.jpg") = Returned true
  /\ Store.lookup (fs (env (snd (Sample.nested_extraction "sub\flag2.jpg"))))
       (Loc.of_path "C:\Temp\FlagImages_1000\sub\flag2.jpg") = None
  /\ Store.is_file (fs (env (snd (Sample.nested_extraction "sub\flag2.jpg"))))
       (Loc.of_path "C:\Temp\FlagImages_1000\sub\sub\flag2.jpg") = true.
Proof. vm_compute. repeat split. Qed.

(* ================================================================== *)
(** * Further properties of the methods *)

(** ** What the cleanup leaves alone *)

Lemma remove_tree_incl p s e : In e (Store.remove_tree p s) -> In e s.
Proof. unfold Store.remove_tree. intros H. now apply filter_In in H. Qed.

Lemma remove_tree_outside p s e :
  In e s -> Loc.is_prefix p (fst e) = false -> In e (Store.remove_tree p s).
Proof.
  intros Hin Hout. unfold Store.remove_tree. apply filter_In.
  split; [exact Hin |]. now rewrite Hout.
Qed.

Lemma remove_files_incl prot p s e :
  In e (Store.remove_files_until_guarded prot p s) -> In e s.
Proof.
  induction s as [| x s IH]; simpl; [easy |].
  destruct (Loc.is_prefix p (fst x)).
  - destruct (Store.guarded prot (fst x)); [easy |].
    destruct (Store.is_file_node (snd x)); simpl; intuition.
  - simpl. intuition.
Qed.

Lemma remove_files_outside prot p s e :
  In e s -> Loc.is_prefix p (fst e) = false ->
  In e (Store.remove_files_until_guarded prot p s).
Proof.
  intros Hin Hout. induction s as [| x s IH]; simpl; [easy |].
  destruct Hin as [-> | Hin].
  - rewrite Hout. now left.
  - destruct (Loc.is_prefix p (fst x)).
    + destruct (Store.guarded prot (fst x)); [now right |].
      destruct (Store.is_file_node (snd x)); simpl; auto.
    + simpl. auto.
Qed.

Lemma lookup_remove_tree_outside ws s p :
  Loc.is_prefix ws p = false ->
  Store.lookup (Store.remove_tree ws s) p = Store.lookup s p.
Proof.
  intros Hout. unfold Store.lookup, Store.remove_tree.
  induction s as [| e s IH]; simpl; [reflexivity |].
  destruct (Loc.eqb (fst e) p) eqn:He.
  - rewrite (is_prefix_eqb ws _ _ He), Hout. simpl. now rewrite He.
  - destruct (Loc.is_prefix ws (fst e)); simpl; [exact IH |].
    now rewrite He.
Qed.

Lemma lookup_remove_files_outside prot ws s p :
  Loc.is_prefix ws p = false ->
  Store.lookup (Store.remove_files_until_guarded prot ws s) p
  = Store.lookup s p.
Proof.
  intros Hout. unfold Store.lookup.
  induction s as [| e s IH]; simpl; [reflexivity |].
  destruct (Loc.eqb (fst e) p) eqn:He.
  - rewrite (is_prefix_eqb ws _ _ He), Hout. simpl. now rewrite He.
  - destruct (Loc.is_prefix ws (fst e)).
    + destruct (Store.guarded prot (fst e)); simpl; [now rewrite He |].
      destruct (Store.is_file_node (snd e)); simpl; [exact IH |].
      now rewrite He.
    + simpl. now rewrite He.
Qed.

(** The file system after [CleanupTempFiles], in the three cases of the
    method. *)
Lemma CleanupTempFiles_fs m :
  let ws := Loc.of_path (tempDirectory (this m)) in
  fs (env (snd (CleanupTempFiles m)))
  = if workspace_present m
    then if Store.holds_guarded (guarded_locs (env m)) ws (fs (env m))
         then Store.remove_files_until_guarded (guarded_locs (env m)) ws
                (fs (env m))
         else Store.remove_tree ws (fs (env m))
    else fs (env m).
Proof.
  intros ws. destruct (workspace_present m) eqn:Hp.
  - rewrite (CleanupTempFiles_present m Hp). unfold try_catch.
    pose proof (Delete_present m Hp) as Hd. simpl in Hd. rewrite Hd.
    subst ws. destruct (Store.holds_guarded _ _ _); reflexivity.
  - now rewrite (CleanupTempFiles_absent m Hp).
Qed.

(** X1.  [CleanupTempFiles] only removes, and only at or below the
    directory [tempDirectory] names: every entry of the file system after
    the call was there before it, every entry that does not lie at or below
    that directory is still there, and looking up any location outside it
    gives what it gave before. *)
Theorem CleanupTempFiles_spares_outside (m : Machine) :
  let ws := Loc.of_path (tempDirectory (this m)) in
  let after := fs (env (snd (CleanupTempFiles m))) in
  (forall e, In e after -> In e (fs (env m)))
  /\ (forall e, In e (fs (env m)) ->
                Loc.is_prefix ws (fst e) = false -> In e after)
  /\ (forall p, Loc.is_prefix ws p = false ->
                Store.lookup after p = Store.lookup (fs (env m)) p).
Proof.
  intros ws after. subst after. rewrite CleanupTempFiles_fs. fold ws.
  destruct (workspace_present m); [| now repeat split].
  destruct (Store.holds_guarded _ _ _); repeat split.
  - apply remove_files_incl.
  - intros e. apply remove_files_outside.
  - intros p. apply lookup_remove_files_outside.
  - apply remove_tree_incl.
  - intros e. apply remove_tree_outside.
  - intros p. apply lookup_remove_tree_outside.
Qed.

(** X1 exercised: the workspace with three files is removed, the temporary
    files root above it stays. *)
Lemma CleanupTempFiles_spares_outside_witness :
  let m := Sample.scanning_machine Sample.three_files [] in
  let after := fs (env (snd (CleanupTempFiles m))) in
  In (["C:"; "Temp"], Dir) after
  /\ Store.lookup after ["C:"; "Temp"]
     = Store.lookup (fs (env m)) ["C:"; "Temp"]
  /\ Store.lookup after ["C:"; "Temp"; "ws"; "a.png"] = None.
Proof.
  intros m after.
  destruct (CleanupTempFiles_spares_outside m) as (_ & H2 & H3).
  split; [| split].
  - apply H2; [cbn; auto | reflexivity].
  - apply H3. reflexivity.
  - reflexivity.
Defined.

(** ** The button *)

Lemma keeps_catalog_refl m : keeps_catalog m m.
Proof. unfold keeps_catalog. repeat split. apply Nat.le_refl. Qed.

Lemma keeps_catalog_trans a b c :
  keeps_catalog a b -> keeps_catalog b c -> keeps_catalog a c.
Proof.
  unfold keeps_catalog.
  intros (H1 & H2 & H3 & H4 & H5 & H6 & H7 & H8)
         (K1 & K2 & K3 & K4 & K5 & K6 & K7 & K8).
  repeat split; try congruence. eapply Nat.le_trans; eassumption.
Qed.

Section Button.

Variable mt_output : Z -> nat -> Z.
Variable uniform_int_distribution : Z -> Z -> (nat -> Z) -> Z * nat.

Let ShowRandomFlag' := ShowRandomFlag mt_output uniform_int_distribution.
Let ButtonRandomClick' := ButtonRandomClick mt_output uniform_int_distribution.
Let press' := press mt_output uniform_int_distribution.

Lemma keeps_catalog_pick_index :
  stable keeps_catalog (pick_index mt_output uniform_int_distribution).
Proof.
  intros m. unfold pick_index, dist_call, bind, get_this, update_this, ret.
  simpl. destruct (uniform_int_distribution _ _ _) as [v used]. simpl.
  unfold keeps_catalog. simpl. repeat split. apply Nat.le_add_r.
Qed.

Lemma keeps_catalog_ShowRandomFlag : stable keeps_catalog ShowRandomFlag'.
Proof.
  unfold ShowRandomFlag', ShowRandomFlag.
  stable_walk keeps_catalog_refl keeps_catalog_trans
    ltac:(first
            [ apply keeps_catalog_pick_index
            | progress unfold Picture_LoadFromFile, ShowMessage
            | intros ?; unfold keeps_catalog; simpl; repeat split;
              apply Nat.le_refl ]).
Qed.

Lemma keeps_catalog_ButtonRandomClick : stable keeps_catalog ButtonRandomClick'.
Proof.
  unfold ButtonRandomClick', ButtonRandomClick.
  stable_walk keeps_catalog_refl keeps_catalog_trans
    ltac:(first [ apply keeps_catalog_ShowRandomFlag
                | intros ?; unfold keeps_catalog; simpl; repeat split;
                  apply Nat.le_refl ]).
Qed.

Lemma keeps_catalog_press clicks : stable keeps_catalog (press' clicks).
Proof.
  unfold press'. induction clicks as [| n IH]; simpl.
  - apply stable_ret, keeps_catalog_refl.
  - apply stable_bind;
      [exact keeps_catalog_trans | apply keeps_catalog_ButtonRandomClick
      | intros _; exact IH].
Qed.

(** X2.  However often the button is pressed, the handler returns normally
    and never touches the catalog, the workspace path, the colour of the
    status line, the seed of the generator, the file system, the tick
    counter or the resources; the number of outputs the generator has
    produced never goes down. *)
Theorem presses_keep_the_catalog (clicks : nat) (m : Machine) :
  fst (press' clicks m) = Returned tt
  /\ keeps_catalog m (snd (press' clicks m)).
Proof.
  split.
  - destruct (returns_press mt_output uniform_int_distribution clicks m)
      as [[] H]. exact H.
  - apply keeps_catalog_press.
Qed.

Lemma ButtonRandomClick_empty m :
  flagFiles (this m) = [] ->
  ButtonRandomClick' m
  = (Returned tt,
     mk_machine
       (with_FlagName
          (with_Status (with_FlagName (with_Picture (this m) None) "Loading...")
             "Status: Refreshing...")
          "No flag images available")
       (env m)).
Proof.
  intros H. unfold ButtonRandomClick', ButtonRandomClick, ShowRandomFlag,
    bind, update_this, get_this. simpl. rewrite H. reflexivity.
Qed.

(** X3.  With an empty catalog a press of the button clears the picture and
    leaves the caption "No flag images available" under the status "Status:
    Refreshing..."; nothing is extracted or scanned again, no message is
    shown, and every further press gives the same form: the status never
    leaves "Refreshing...". *)
Theorem presses_on_empty_catalog (clicks : nat) (m : Machine) :
  flagFiles (this m) = [] ->
  let m1 := snd (ButtonRandomClick' m) in
  ImageFlag_Picture (this m1) = None
  /\ LabelFlagName_Caption (this m1) = "No flag images available"
  /\ LabelStatus_Caption (this m1) = "Status: Refreshing..."
  /\ LabelStatus_Font_Color (this m1) = LabelStatus_Font_Color (this m)
  /\ flagFiles (this m1) = []
  /\ env m1 = env m
  /\ press' (S clicks) m = (Returned tt, m1).
Proof.
  intros H m1. subst m1. rewrite (ButtonRandomClick_empty m H).
  cbn [snd this env]. repeat split; try exact H.
  revert m H. unfold press'. induction clicks as [| n IH]; intros m H.
  - simpl. unfold bind. fold ButtonRandomClick'.
    rewrite (ButtonRandomClick_empty m H). reflexivity.
  - change (press mt_output uniform_int_distribution (S (S n)))
      with (ButtonRandomClick' ;; press mt_output uniform_int_distribution (S n)).
    unfold bind at 1. rewrite (ButtonRandomClick_empty m H).
    rewrite IH by exact H. cbn [this env].
    destruct (this m); reflexivity.
Qed.

End Button.

(** X3 exercised: the form as designed, whose catalog is empty, pressed
    three times. *)
Lemma presses_on_empty_catalog_witness :
  let m := Sample.machine [] [] in
  let m1 := snd (ButtonRandomClick Sample.lcg_output Sample.one_draw m) in
  ImageFlag_Picture (this m1) = None
  /\ LabelFlagName_Caption (this m1) = "No flag images available"
  /\ LabelStatus_Caption (this m1) = "Status: Refreshing..."
  /\ LabelStatus_Font_Color (this m1) = LabelStatus_Font_Color (this m)
  /\ flagFiles (this m1) = []
  /\ env m1 = env m
  /\ press Sample.lcg_output Sample.one_draw 3 m = (Returned tt, m1).
Proof.
  intros m.
  apply (presses_on_empty_catalog Sample.lcg_output Sample.one_draw 2 m).
  reflexivity.
Defined.

(** ** What the selector shows *)

Section Display.

Variable mt_output : Z -> nat -> Z.
Variable uniform_int_distribution : Z -> Z -> (nat -> Z) -> Z * nat.

(** What the C++ standard promises of [uniform_int_distribution]: a value
    within the bounds. *)
Hypothesis distribution_in_range :
  forall a b outputs,
    a <= b -> a <= fst (uniform_int_distribution a b outputs) <= b.

(** The two ways [ShowRandomFlag] ends on a catalog that is not empty. *)
Lemma ShowRandomFlag_run (m : Machine) :
  flagFiles (this m) <> [] ->
  exists index used,
    0 <= index < Z.of_nat (length (flagFiles (this m)))
    /\ let f := nth (Z.to_nat index) (flagFiles (this m)) "" in
       let g := mk_mt (mt_seed (randomGenerator (this m)))
                  (mt_calls (randomGenerator (this m)) + used) in
       In f (flagFiles (this m))
       /\ ShowRandomFlag mt_output uniform_int_distribution m
          = if can_load (env m) f
            then
              (Returned tt,
               mk_machine
                 (with_Status
                    (with_FlagName
                       (with_Picture (with_randomGenerator (this m) g) (Some f))
                       ("Flag: " ++ TPath.GetFileNameWithoutExtension f))
                    ("Status: Displaying " ++ IntToStr (index + 1) ++ "/"
                     ++ IntToStr (Z.of_nat (length (flagFiles (this m))))
                     ++ " flag"))
                 (env m))
            else
              (Returned tt,
               mk_machine
                 (with_FlagName (with_randomGenerator (this m) g)
                    "Image loading failed")
                 (with_shown (env m)
                    (shown (env m)
                     ++ [("Error displaying image: "
                          ++ load_failure (env m) f)%string]))).
Proof.
  intros Hne.
  destruct (flagFiles (this m)) as [| x l] eqn:Hfl; [congruence |].
  pose (N := Z.of_nat (length (x :: l))).
  pose (outs := fun i => mt_output (mt_seed (randomGenerator (this m)))
                           (mt_calls (randomGenerator (this m)) + i)%nat).
  assert (HN : 1 <= N) by (subst N; simpl length; lia).
  assert (Hrange := distribution_in_range 0 (N - 1) outs ltac:(lia)).
  destruct (uniform_int_distribution 0 (N - 1) outs) as [v used] eqn:Eu.
  cbn [fst] in Hrange.
  exists v, used. split; [fold N; lia |]. intros f g.
  assert (Hin : In f (x :: l)).
  { subst f. apply nth_In. subst N. cbn [length] in *. lia. }
  split; [exact Hin |].
  set (m1 := mk_machine (with_randomGenerator (this m) g) (env m)).
  assert (Hpick :
    pick_index mt_output uniform_int_distribution m = (Returned v, m1)).
  { unfold pick_index, bind, get_this, dist_call. simpl. rewrite Hfl.
    fold N. fold outs. rewrite Eu. reflexivity. }
  unfold ShowRandomFlag, bind at 1, get_this. cbn [fst snd].
  rewrite Hfl. unfold try_catch.
  rewrite (bind_returned _ _ _ _ _ Hpick). fold f.
  change (can_load (env m) f) with (can_load (env m1) f).
  destruct (can_load (env m1) f) eqn:Hload.
  - rewrite (bind_returned _ _ _ _ _ (Picture_LoadFromFile_loaded f m1 Hload)).
    unfold bind, update_this, m1.
    cbn [fst snd this env flagFiles with_FlagName with_Picture
           with_randomGenerator]. rewrite Hfl. reflexivity.
  - rewrite (bind_thrown _ _ _ _ _ (Picture_LoadFromFile_failed f m1 Hload)).
    reflexivity.
Qed.

(** X4.  With a catalog that is not empty [ShowRandomFlag] returns normally
    and settles on one file [f] of the catalog.  When [f] can be loaded (a
    graphic class is registered for its extension, the file exists and the
    class decodes it), it becomes the picture, the caption is "Flag: "
    followed by its name without directory and extension, and nothing is
    shown.  When it cannot, the exception of [LoadFromFile] is caught: one
    message "Error displaying image: ..." is shown, the caption is "Image
    loading failed", and the picture and the status line stay as they
    were.  A file with the extension [gif] is of the second kind, whatever
    it holds: the catalog accepts it, and no graphic class reads it. *)
Theorem ShowRandomFlag_shows_a_catalogued_file (m : Machine) :
  flagFiles (this m) <> [] ->
  let done := ShowRandomFlag mt_output uniform_int_distribution m in
  fst done = Returned tt
  /\ (exists f,
        In f (flagFiles (this m))
        /\ (can_load (env m) f = true ->
            ImageFlag_Picture (this (snd done)) = Some f
            /\ LabelFlagName_Caption (this (snd done))
               = ("Flag: " ++ TPath.GetFileNameWithoutExtension f)%string
            /\ shown (env (snd done)) = shown (env m))
        /\ (can_load (env m) f = false ->
            ImageFlag_Picture (this (snd done)) = ImageFlag_Picture (this m)
            /\ LabelFlagName_Caption (this (snd done)) = "Image loading failed"
            /\ LabelStatus_Caption (this (snd done))
               = LabelStatus_Caption (this m)
            /\ shown (env (snd done))
               = shown (env m)
                 ++ [("Error displaying image: "
                      ++ load_failure (env m) f)%string]))
  /\ (forall f, graphic_extension f = "gif" -> can_load (env m) f = false).
Proof.
  intros Hne done. subst done.
  destruct (ShowRandomFlag_run m Hne) as (index & used & _ & Hin & Hrun).
  cbv zeta in Hin, Hrun. rewrite Hrun.
  set (f := nth (Z.to_nat index) (flagFiles (this m)) "") in *.
  assert (Hgif : forall f', graphic_extension f' = "gif" ->
                            can_load (env m) f' = false).
  { intros f' Hf'. unfold can_load. now rewrite Hf'. }
  destruct (can_load (env m) f) eqn:Hload.
  - split; [reflexivity |]. split; [| exact Hgif].
    exists f. split; [exact Hin |].
    split; intros Hf; [| congruence]. repeat split.
  - split; [reflexivity |]. split; [| exact Hgif].
    exists f. split; [exact Hin |].
    split; intros Hf; [congruence |]. repeat split.
Qed.

End Display.

(** X4 exercised with the sample library on a catalog of two files, one of
    which is no longer there. *)
Lemma ShowRandomFlag_shows_a_catalogued_file_witness :
  let m := Sample.scanning_machine Sample.three_files
             ["C:\Temp\ws\a.png"; "C:\Temp\ws\gone.png"] in
  let done := ShowRandomFlag Sample.lcg_output Sample.one_draw m in
  fst done = Returned tt
  /\ (exists f,
        In f (flagFiles (this m))
        /\ (can_load (env m) f = true ->
            ImageFlag_Picture (this (snd done)) = Some f
            /\ LabelFlagName_Caption (this (snd done))
               = ("Flag: " ++ TPath.GetFileNameWithoutExtension f)%string
            /\ shown (env (snd done)) = shown (env m))
        /\ (can_load (env m) f = false ->
            ImageFlag_Picture (this (snd done)) = ImageFlag_Picture (this m)
            /\ LabelFlagName_Caption (this (snd done)) = "Image loading failed"
            /\ LabelStatus_Caption (this (snd done))
               = LabelStatus_Caption (this m)
            /\ shown (env (snd done))
               = shown (env m)
                 ++ [("Error displaying image: "
                      ++ load_failure (env m) f)%string]))
  /\ (forall f, graphic_extension f = "gif" -> can_load (env m) f = false).
Proof.
  intros m.
  apply (ShowRandomFlag_shows_a_catalogued_file Sample.lcg_output
           Sample.one_draw one_draw_in_range m).
  discriminate.
Defined.

(** ** The catalog, file by file *)

Lemma star_unfold p n :
  matches_pattern (String "*" p) n
  = (matches_pattern p n
     || match n with
        | EmptyString => false
        | String _ n' => matches_pattern (String "*" p) n'
        end)%bool.
Proof. destruct n; reflexivity. Qed.

Lemma star_skips p t pre :
  matches_pattern p t = true ->
  matches_pattern (String "*" p) (pre ++ t)%string = true.
Proof.
  intros H. induction pre as [| c pre IH].
  - rewrite star_unfold. cbn [String.append]. now rewrite H.
  - rewrite star_unfold. cbn [String.append]. rewrite IH. apply orb_true_r.
Qed.

Lemma literal_matches p :
  Str.contains_char is_wildcard p = false ->
  forall t, Str.lower t = Str.lower p -> matches_pattern p t = true.
Proof.
  induction p as [| c p IH]; intros Hlit t H.
  - destruct t; [reflexivity | discriminate].
  - cbn [Str.contains_char] in Hlit. apply orb_false_iff in Hlit as [Hc Hp].
    unfold is_wildcard in Hc. apply orb_false_iff in Hc as [Hstar Hq].
    destruct t as [| d t]; [discriminate |].
    cbn [Str.lower] in H. injection H as Hd Ht.
    cbn [matches_pattern]. rewrite Hstar, Hq.
    unfold Str.char_eqb_ci. rewrite Hd, Ascii.eqb_refl.
    cbn [orb andb]. now apply IH.
Qed.

Lemma extension_of_split s e :
  TPath.extension_of s = e -> e <> "" ->
  exists pre t, s = (pre ++ String TPath.dot t)%string /\ Str.lower t = e.
Proof.
  induction s as [| c s IH]; intros H Hne; cbn [TPath.extension_of] in H.
  - congruence.
  - destruct (Str.contains_char (Ascii.eqb TPath.dot) s).
    + destruct (IH H Hne) as (pre & t & -> & Ht).
      exists (String c pre), t. split; [reflexivity | exact Ht].
    + destruct (Ascii.eqb c TPath.dot) eqn:Hc; [| congruence].
      apply Ascii.eqb_eq in Hc. subst c.
      exists "", s. split; [reflexivity | exact H].
Qed.

(** A pattern [*.ext] selects the names whose extension is [ext]. *)
Lemma star_dot_pattern ext name :
  ext <> "" ->
  Str.lower ext = ext ->
  Str.contains_char is_wildcard ext = false ->
  Str.contains_char (Ascii.eqb TPath.dot) ext = false ->
  matches_pattern (String "*" (String TPath.dot ext)) name
  = String.eqb (TPath.extension_of name) ext.
Proof.
  intros Hne Hlow Hwild Hnodot.
  assert (Hlit : Str.contains_char is_wildcard (String TPath.dot ext) = false)
    by (cbn [Str.contains_char]; rewrite Hwild; reflexivity).
  destruct (String.eqb (TPath.extension_of name) ext) eqn:He.
  - apply String.eqb_eq in He.
    destruct (extension_of_split _ _ He Hne) as (pre & t & -> & Ht).
    apply star_skips, literal_matches; [exact Hlit |].
    cbn [Str.lower]. now rewrite Ht, Hlow.
  - apply String.eqb_neq in He.
    destruct (matches_pattern _ name) eqn:Hm; [| reflexivity].
    exfalso. apply He.
    destruct (matches_star _ _ Hm) as (pre & t & -> & Ht).
    pose proof (matches_literal _ Hlit _ Ht) as Hl.
    destruct t as [| c t]; [discriminate |].
    apply extension_of_suffix; [| exact Hnodot].
    rewrite Hl. cbn [Str.lower]. now rewrite Hlow.
Qed.

Lemma image_pattern ext name :
  In ext image_extensions ->
  matches_pattern (String "*" (String TPath.dot ext)) name
  = String.eqb (TPath.extension_of name) ext.
Proof.
  intros Hin. unfold image_extensions in Hin. simpl in Hin.
  destruct Hin as [<- | [<- | [<- | [<- | [<- | []]]]]];
    now apply star_dot_pattern.
Qed.

Lemma extensions_are_patterns :
  extensions = map (fun ext => String "*" (String TPath.dot ext)) image_extensions.
Proof. reflexivity. Qed.

(** What [TDirectory::GetFiles] reports for the pattern of one extension. *)
Lemma files_below_extension s td ext :
  In ext image_extensions ->
  TDirectory.files_below s td (String "*" (String TPath.dot ext))
  = map (reported_path td)
      (filter (file_with_extension (Loc.of_path td) ext) s).
Proof.
  intros Hin. unfold TDirectory.files_below. cbv zeta.
  induction s as [| [p n] s IH]; [reflexivity |].
  cbn [flat_map filter]. rewrite IH.
  change (file_with_extension (Loc.of_path td) ext (p, n))
    with (Store.is_file_node n && Loc.is_below (Loc.of_path td) p
          && String.eqb (TPath.extension_of (last p "")) ext)%bool.
  cbn [fst snd].
  destruct (Store.is_file_node n); [| reflexivity].
  destruct (Loc.is_below (Loc.of_path td) p) eqn:Hb; [| reflexivity].
  cbn [andb]. rewrite last_skipn by now apply is_below_longer.
  rewrite (image_pattern _ _ Hin).
  destruct (String.eqb _ ext); reflexivity.
Qed.

Lemma scan_by_extension s td :
  flat_map (TDirectory.files_below s td) extensions
  = flat_map
      (fun ext =>
         map (reported_path td)
           (filter (file_with_extension (Loc.of_path td) ext) s))
      image_extensions.
Proof.
  rewrite extensions_are_patterns.
  assert (H : forall l, incl l image_extensions ->
            flat_map (TDirectory.files_below s td)
              (map (fun ext => String "*" (String TPath.dot ext)) l)
            = flat_map
                (fun ext =>
                   map (reported_path td)
                     (filter (file_with_extension (Loc.of_path td) ext) s)) l).
  { induction l as [| x l IH]; intros Hincl; [reflexivity |].
    cbn [map flat_map]. rewrite files_below_extension, IH.
    - reflexivity.
    - intros y Hy. apply Hincl. now right.
    - apply Hincl. now left. }
  apply H, incl_refl.
Qed.

(** Every image file is counted under exactly one of the extensions. *)
Lemma image_files_counted root s :
  length
    (flat_map (fun ext => filter (file_with_extension root ext) s)
       image_extensions)
  = length (filter (image_file root) s).
Proof.
  unfold image_extensions. cbn [flat_map]. rewrite app_nil_r.
  rewrite !length_app.
  induction s as [| [p n] s IH]; [reflexivity |].
  cbn [filter].
  change (image_file root (p, n))
    with (Store.is_file_node n && Loc.is_below root p
          && existsb (String.eqb (TPath.extension_of (last p "")))
               ["png"; "jpg"; "jpeg"; "bmp"; "gif"])%bool.
  repeat
    match goal with
    | |- context [file_with_extension root ?e (p, n)] =>
        change (file_with_extension root e (p, n))
          with (Store.is_file_node n && Loc.is_below root p
                && String.eqb (TPath.extension_of (last p "")) e)%bool
    end.
  cbn [existsb].
  destruct (Store.is_file_node n && Loc.is_below root p)%bool;
    cbn [andb]; [| exact IH].
  set (x := TPath.extension_of (last p "")).
  destruct (String.eqb x "png") eqn:E1.
  { apply String.eqb_eq in E1. rewrite E1. cbn. rewrite <- IH. lia. }
  destruct (String.eqb x "jpg") eqn:E2.
  { apply String.eqb_eq in E2. rewrite E2. cbn. rewrite <- IH. lia. }
  destruct (String.eqb x "jpeg") eqn:E3.
  { apply String.eqb_eq in E3. rewrite E3. cbn. rewrite <- IH. lia. }
  destruct (String.eqb x "bmp") eqn:E4.
  { apply String.eqb_eq in E4. rewrite E4. cbn. rewrite <- IH. lia. }
  destruct (String.eqb x "gif") eqn:E5.
  { cbn. rewrite <- IH. lia. }
  cbn. exact IH.
Qed.

Lemma flat_map_of_map {A B C} (f : B -> C) (g : A -> list B) l :
  flat_map (fun x => map f (g x)) l = map f (flat_map g l).
Proof.
  induction l as [| x l IH]; [reflexivity |].
  cbn [flat_map]. now rewrite map_app, IH.
Qed.

Lemma image_file_extension root e :
  image_file root e = true
  <-> exists ext, In ext image_extensions
                  /\ file_with_extension root ext e = true.
Proof.
  unfold image_file, file_with_extension. split.
  - intros H. apply andb_true_iff in H as [H1 H2].
    apply existsb_exists in H2 as (ext & Hin & He).
    exists ext. split; [exact Hin |]. now rewrite H1, He.
  - intros (ext & Hin & H). apply andb_true_iff in H as [H1 H2].
    rewrite H1. cbn [andb]. apply existsb_exists. now exists ext.
Qed.

(** X5.  When the workspace exists, the catalog [LoadFlagImages] builds is,
    whatever the catalog held before, the files below the workspace that
    have one of the five extensions (compared without case), each reported
    as the workspace path combined with the names that lead to the file:
    first all [png] files, then [jpg], [jpeg], [bmp] and [gif], each group
    in directory order.  Every such file is catalogued, each exactly once,
    and nothing else is. *)
Theorem LoadFlagImages_catalogs_every_image (m : Machine) :
  workspace_present m = true ->
  let td := tempDirectory (this m) in
  let root := Loc.of_path td in
  let catalog := flagFiles (this (snd (LoadFlagImages m))) in
  catalog
  = flat_map
      (fun ext =>
         map (reported_path td)
           (filter (file_with_extension root ext) (fs (env m))))
      image_extensions
  /\ length catalog = length (filter (image_file root) (fs (env m)))
  /\ (forall path,
        In path catalog
        <-> exists e, In e (fs (env m)) /\ image_file root e = true
                      /\ path = reported_path td e).
Proof.
  intros Hp td root catalog.
  assert (Hcat :
    catalog
    = map (reported_path td)
        (flat_map (fun ext => filter (file_with_extension root ext) (fs (env m)))
           image_extensions)).
  { subst catalog. rewrite (LoadFlagImages_present m Hp). cbn [snd this].
    fold td. unfold with_flagFiles. cbn [flagFiles].
    rewrite scan_by_extension. apply flat_map_of_map. }
  split; [rewrite Hcat; symmetry; apply flat_map_of_map |].
  split.
  - rewrite Hcat, length_map. apply image_files_counted.
  - intros path. rewrite Hcat, in_map_iff. split.
    + intros (e & <- & Hin). apply in_flat_map in Hin as (ext & Hext & Hin).
      apply filter_In in Hin as [Hin He].
      exists e. split; [exact Hin |]. split; [| reflexivity].
      apply image_file_extension. now exists ext.
    + intros (e & Hin & Himg & ->).
      apply image_file_extension in Himg as (ext & Hext & He).
      exists e. split; [reflexivity |].
      apply in_flat_map. exists ext. split; [exact Hext |].
      apply filter_In. now split.
Qed.

(** X5 exercised on the workspace with [a.png], [b.PNG] and [c.txt] and a
    catalog left over from an earlier scan. *)
Lemma LoadFlagImages_catalogs_every_image_witness :
  let m := Sample.scanning_machine Sample.three_files ["old.png"] in
  let td := tempDirectory (this m) in
  let root := Loc.of_path td in
  let catalog := flagFiles (this (snd (LoadFlagImages m))) in
  catalog
  = flat_map
      (fun ext =>
         map (reported_path td)
           (filter (file_with_extension root ext) (fs (env m))))
      image_extensions
  /\ length catalog = length (filter (image_file root) (fs (env m)))
  /\ (forall path,
        In path catalog
        <-> exists e, In e (fs (env m)) /\ image_file root e = true
                      /\ path = reported_path td e).
Proof.
  intros m.
  apply (LoadFlagImages_catalogs_every_image m). reflexivity.
Defined.

(** ** An archive without directories *)

Lemma loc_eqb_snoc p a b : Loc.eqb (p ++ [a]) (p ++ [b]) = Str.same_text a b.
Proof.
  induction p as [| x p IH]; cbn [Datatypes.app Loc.eqb].
  - apply andb_true_r.
  - now rewrite same_text_refl.
Qed.

Lemma loc_eqb_longer p x : Loc.eqb p (p ++ [x]) = false.
Proof.
  destruct (Loc.eqb p (p ++ [x])) eqn:E; [| reflexivity].
  apply loc_eqb_length in E. rewrite length_app in E. cbn in E. lia.
Qed.

Lemma lookup_none_below W s p :
  (forall e, In e s -> Loc.is_prefix W (fst e) = false) ->
  Loc.is_prefix W p = true ->
  Store.lookup s p = None.
Proof.
  intros H Hp. unfold Store.lookup.
  induction s as [| e s IH]; [reflexivity |]. cbn [find].
  destruct (Loc.eqb (fst e) p) eqn:E.
  - pose proof (H e (or_introl eq_refl)) as He.
    rewrite (is_prefix_eqb W _ _ E) in He. congruence.
  - apply IH. intros x Hx. apply H. now right.
Qed.

Lemma filter_absent s p :
  Store.lookup s p = None ->
  filter (fun e => negb (Loc.eqb (fst e) p)) s = s.
Proof.
  unfold Store.lookup. induction s as [| e s IH]; [reflexivity |].
  cbn [find filter]. destruct (Loc.eqb (fst e) p); [discriminate |].
  cbn [negb]. intros H. f_equal. now apply IH.
Qed.

Lemma plain_not_rooted n : segment_name n -> TPath.IsPathRooted n = false.
Proof.
  intros (_ & H & _). unfold is_sep_or_colon in H.
  destruct n as [| c [| d n]]; cbn [Str.contains_char TPath.IsPathRooted] in *.
  - reflexivity.
  - rewrite orb_false_r in H. now apply orb_false_iff in H as [H _].
  - apply orb_false_iff in H as [Hc Hd].
    apply orb_false_iff in Hc as [Hc _].
    apply orb_false_iff in Hd as [Hd _].
    apply orb_false_iff in Hd as [_ Hd]. now rewrite Hc, Hd.
Qed.

Lemma find_first_named (done rest : list zip_entry) e :
  (forall x, In x done -> Str.lower (entry_name x) <> Str.lower (entry_name e)) ->
  find (fun x => String.eqb (entry_name x) (entry_name e)) (done ++ e :: rest)
  = Some e.
Proof.
  intros H. induction done as [| x done IH]; cbn [Datatypes.app find].
  - now rewrite String.eqb_refl.
  - destruct (String.eqb (entry_name x) (entry_name e)) eqn:E.
    + apply String.eqb_eq in E. exfalso.
      apply (H x (or_introl eq_refl)). now rewrite E.
    + apply IH. intros y Hy. apply H. now right.
Qed.

Lemma lookup_extracted_none W (done : list zip_entry) n :
  (forall x, In x done -> Str.lower (entry_name x) <> Str.lower n) ->
  Store.lookup (map (extracted_file W) done) (W ++ [n]) = None.
Proof.
  intros H. unfold Store.lookup.
  induction done as [| x done IH]; [reflexivity |].
  cbn [map find]. unfold extracted_file at 1. cbn [fst].
  rewrite loc_eqb_snoc. unfold Str.same_text.
  destruct (String.eqb _ _) eqn:E.
  - apply String.eqb_eq in E. exfalso. exact (H x (or_introl eq_refl) E).
  - apply IH. intros y Hy. apply H. now right.
Qed.

Lemma names_before_differ (done rest : list zip_entry) e :
  NoDup (map (fun x => Str.lower (entry_name x)) (done ++ e :: rest)) ->
  forall x, In x done -> Str.lower (entry_name x) <> Str.lower (entry_name e).
Proof.
  intros Hnd x Hx Heq. rewrite map_app in Hnd. cbn [map] in Hnd.
  apply NoDup_remove_2 in Hnd. apply Hnd. apply in_or_app. left.
  rewrite <- Heq. now apply (in_map (fun x => Str.lower (entry_name x))).
Qed.

Lemma for_loop_app a b body :
  forall i m m',
    for_loop a i body m = (Returned tt, m') ->
    for_loop (a + b) i body m = for_loop b (a + i) body m'.
Proof.
  induction a as [| a IH]; intros i m m' H.
  - cbn in H. injection H as <-. reflexivity.
  - cbn [for_loop Nat.add] in *. unfold bind in *.
    destruct (body i m) as [[[] | e] m1]; [| discriminate].
    rewrite (IH _ _ _ H). now rewrite Nat.add_succ_r.
Qed.

Section Workspace.

Variables (m : Machine) (r : string) (G : Loc.t) (leaf : string).

Let w := env m.
Let wsname := workspace_leaf (tick_reading w).
Let ws := (r ++ String TPath.backslash wsname)%string.
Let W := G ++ [leaf; wsname].

(** The temporary files root is [r\], an existing directory; nothing
    exists at or below the workspace path yet, and nothing at or below it
    is guarded. *)
Hypothesis temp_root : temp_path w = (r ++ String TPath.backslash "")%string.
Hypothesis temp_root_valid : TPath.HasValidPathChars r = true.
Hypothesis temp_root_loc : Loc.of_path r = G ++ [leaf].
Hypothesis temp_root_exists : reachable (fs w) (G ++ [leaf]).
Hypothesis nothing_below :
  forall e, In e (fs w) -> Loc.is_prefix W (fst e) = false.
Hypothesis unguarded :
  forall p, Loc.is_prefix W p = true ->
            Store.guarded (guarded_locs w) p = false.

Let s1 := fs w ++ [(W, Dir)].
Let M_of (s : store) := mk_machine (this (named_machine m)) (with_fs (tick_env w) s).

Lemma W_fresh : Store.lookup (fs w) W = None.
Proof.
  apply (lookup_none_below W); [exact nothing_below |].
  apply loc_eqb_is_prefix, loc_eqb_refl.
Qed.

Lemma W_free : Store.guarded (guarded_locs w) W = false.
Proof. apply unguarded, loc_eqb_is_prefix, loc_eqb_refl. Qed.

Lemma ws_named : tempDirectory (this (named_machine m)) = ws.
Proof. exact (ws_is_tempDirectory m r temp_root). Qed.

Lemma ws_at : Loc.of_path ws = W.
Proof. exact (ws_loc m r G leaf temp_root_loc). Qed.

Lemma ws_shape :
  Str.is_empty ws = false
  /\ TPath.ends_with_sep ws = false
  /\ TPath.ends_with_colon ws = false
  /\ exists y, Str.last_char ws = Some y /\ SysUtils.is_delim y = false.
Proof.
  destruct (ws_ends m r G leaf W_fresh W_free) as (H1 & H2 & H3).
  destruct (ws_last m r G leaf W_fresh W_free) as (y & Hy & Hp).
  repeat split; try assumption. exists y. split; [exact Hy |].
  unfold is_sep_or_colon, TPath.is_sep in Hp.
  apply orb_false_iff in Hp as [Hp Hcolon].
  apply orb_false_iff in Hp as [Hback _].
  unfold SysUtils.is_delim. now rewrite Hback, Hcolon.
Qed.

Lemma s1_reachable : reachable s1 W.
Proof.
  unfold W.
  replace (G ++ [leaf; wsname]) with ((G ++ [leaf]) ++ [wsname])
    by (now rewrite <- app_assoc).
  apply reachable_snoc.
  - apply reachable_app_store, temp_root_exists.
  - rewrite <- app_assoc. exact (workspace_made m G leaf W_fresh).
Qed.

Lemma workspace_created :
  create_temp_directory (named_machine m) = (Returned None, M_of s1).
Proof.
  exact (create_run m r G leaf temp_root temp_root_loc temp_root_exists
           W_fresh W_free).
Qed.

Lemma ws_valid_chars : TPath.HasValidPathChars ws = true.
Proof.
  apply valid_join;
    [exact temp_root_valid | reflexivity
    | apply plain_valid, workspace_leaf_plain].
Qed.

(** A turn of the loop for an entry with a plain name, up to the call of
    [Extract]: the path is accepted, and its directory is the workspace,
    which exists. *)
Lemma plain_entry_start (entries : list zip_entry) i n s :
  TZipFile.FileNames entries i = n ->
  segment_name n ->
  reachable s W ->
  extract_entry entries i (M_of s) = TZipFile.Extract entries n ws (M_of s).
Proof.
  intros Hname Hplain Hreach.
  destruct ws_shape as (Hne & Hsep & Hcolon & y & Hy & Hyd).
  pose proof Hplain as (Hn1 & Hn2 & _).
  assert (Hjoin : TPath.Combine ws n = (ws ++ String TPath.backslash n)%string).
  { apply Combine_join; try assumption. now apply plain_not_rooted. }
  assert (HW : Store.is_dir s W = true).
  { pose proof (Hreach (length W)) as H. rewrite firstn_all in H.
    apply H. unfold W. rewrite length_app. cbn. lia. }
  unfold extract_entry.
  rewrite (bind_returned _ _ (M_of s) (this (M_of s)) (M_of s)) by reflexivity.
  change (tempDirectory (this (M_of s)))
    with (tempDirectory (this (named_machine m))).
  rewrite ws_named, Hname.
  rewrite (bind_returned _ _ _ _ _
             (TPath_Combine_valid ws n (M_of s) ws_valid_chars
                (plain_valid n Hplain))).
  rewrite Hjoin.
  rewrite GetDirectoryName_join;
    [| reflexivity | now apply sep_or_colon_sep | exact Hne | exact Hcolon].
  rewrite (bind_returned _ _ (M_of s) true (M_of s)).
  2:{ unfold TDirectory.Exists, bind, get_env, ret, M_of. cbn [env fs with_fs].
      now rewrite Hne, ws_at, HW. }
  cbn [negb].
  rewrite (bind_returned _ _ (M_of s) tt (M_of s)) by reflexivity.
  reflexivity.
Qed.

(** [Extract] for an entry with a plain name whose local header can be
    read: the directory is there already, and the output file is created
    and filled with what can be decompressed. *)
Lemma plain_entry_written (entries : list zip_entry) e s :
  find (fun x => String.eqb (entry_name x) (entry_name e)) entries = Some e ->
  entry_data e <> BadHeader ->
  segment_name (entry_name e) ->
  reachable s W ->
  Store.lookup s (W ++ [entry_name e]) = None ->
  TZipFile.Extract entries (entry_name e) ws (M_of s)
  = TZipFile.decompress_to (ws ++ String TPath.backslash (entry_name e))
      (entry_data e) (M_of s)
  /\ TFileStream_Create_Write (ws ++ String TPath.backslash (entry_name e))
       (entry_bytes e) (M_of s)
     = (Returned tt, M_of (s ++ [extracted_file W e])).
Proof.
  intros Hfind Hdata Hplain Hreach Hnone.
  destruct ws_shape as (Hne & Hsep & Hcolon & y & Hy & Hyd).
  pose proof Hplain as (Hn1 & Hn2 & _).
  set (n := entry_name e) in *.
  assert (Hjoin : TPath.Combine ws n = (ws ++ String TPath.backslash n)%string).
  { apply Combine_join; try assumption. now apply plain_not_rooted. }
  assert (HW : Store.is_dir s W = true).
  { pose proof (Hreach (length W)) as H. rewrite firstn_all in H.
    apply H. unfold W. rewrite length_app. cbn. lia. }
  split.
  - unfold TZipFile.Extract. rewrite Hfind. fold n.
    rewrite replace_slash_none by now apply sep_or_colon_sep.
    rewrite Hjoin.
    rewrite (ExtractFileDir_join ws y n);
      [| now apply sep_or_colon_delim | exact Hy | exact Hyd].
    rewrite Hne.
    assert (Hlast : exists z, Str.last_char (ws ++ String TPath.backslash n)
                              = Some z
                              /\ Ascii.eqb z TPath.backslash = false).
    { destruct (last_char_some n Hn1) as [z Hz]. exists z. split.
      - rewrite last_char_app. destruct n; [discriminate | exact Hz].
      - pose proof (last_char_not _ _ _ (sep_or_colon_sep _ Hn2) Hz) as Hp.
        unfold TPath.is_sep in Hp. now apply orb_false_iff in Hp as [Hp _]. }
    destruct Hlast as (z & Hz & Hzb). rewrite Hz, Hzb.
    assert (Hdirs :
      TDirectory.CreateDirectory ws (M_of s) = (Returned tt, M_of s)).
    { unfold TDirectory.CreateDirectory. rewrite Hne.
      unfold update_env, M_of. cbn [this env fs with_fs guarded_locs].
      rewrite ws_at, force_dirs_present; [reflexivity |].
      intros k Hk. cbn [Datatypes.app]. now apply Hreach. }
    destruct (entry_data e) as [d | | d]; [| congruence |];
      now rewrite (bind_returned _ _ _ _ _ Hdirs).
  - unfold TFileStream_Create_Write, bind, get_env, M_of.
    cbn [env fs with_fs guarded_locs].
    rewrite of_path_plain by (reflexivity || exact Hplain).
    rewrite ws_at, guarded_locs_tick_env. fold w.
    rewrite write_file_new.
    + rewrite (filter_absent _ _ Hnone). reflexivity.
    + exact HW.
    + unfold Store.is_dir. now rewrite Hnone.
    + apply unguarded, is_prefix_app.
Qed.

(** One turn of the loop, for an entry with a plain name that can be
    decompressed and whose file does not exist yet. *)
Lemma plain_entry_run (entries : list zip_entry) i e s :
  TZipFile.FileNames entries i = entry_name e ->
  find (fun x => String.eqb (entry_name x) (entry_name e)) entries = Some e ->
  intact e ->
  segment_name (entry_name e) ->
  reachable s W ->
  Store.lookup s (W ++ [entry_name e]) = None ->
  extract_entry entries i (M_of s)
  = (Returned tt, M_of (s ++ [extracted_file W e])).
Proof.
  intros Hname Hfind [d Hdata] Hplain Hreach Hnone.
  rewrite (plain_entry_start entries i _ s Hname Hplain Hreach).
  destruct (plain_entry_written entries e s Hfind ltac:(congruence) Hplain
              Hreach Hnone) as [Hx Hw].
  rewrite Hx. unfold entry_bytes in Hw. rewrite Hdata in *. exact Hw.
Qed.

(** A turn of the loop for an entry whose local header cannot be read: the
    exception of [Extract] leaves the loop, nothing is written. *)
Lemma damaged_entry_run (entries : list zip_entry) i e s :
  TZipFile.FileNames entries i = entry_name e ->
  find (fun x => String.eqb (entry_name x) (entry_name e)) entries = Some e ->
  entry_data e = BadHeader ->
  segment_name (entry_name e) ->
  reachable s W ->
  extract_entry entries i (M_of s)
  = (Thrown "Invalid Zip Local Header signature", M_of s).
Proof.
  intros Hname Hfind Hdata Hplain Hreach.
  rewrite (plain_entry_start entries i _ s Hname Hplain Hreach).
  unfold TZipFile.Extract. now rewrite Hfind, Hdata.
Qed.

(** A turn of the loop for an entry whose data cannot be decompressed: the
    output file has been created when [Extract] raises its exception. *)
Lemma corrupt_entry_run (entries : list zip_entry) i e d s :
  TZipFile.FileNames entries i = entry_name e ->
  find (fun x => String.eqb (entry_name x) (entry_name e)) entries = Some e ->
  entry_data e = BadData d ->
  segment_name (entry_name e) ->
  reachable s W ->
  Store.lookup s (W ++ [entry_name e]) = None ->
  extract_entry entries i (M_of s)
  = (Thrown "Data error", M_of (s ++ [extracted_file W e])).
Proof.
  intros Hname Hfind Hdata Hplain Hreach Hnone.
  rewrite (plain_entry_start entries i _ s Hname Hplain Hreach).
  destruct (plain_entry_written entries e s Hfind ltac:(congruence) Hplain
              Hreach Hnone) as [Hx Hw].
  rewrite Hx. unfold entry_bytes in Hw. rewrite Hdata in *.
  cbn [TZipFile.decompress_to].
  now rewrite (bind_returned _ _ _ _ _ Hw).
Qed.

Lemma store_after_reachable (done : list zip_entry) :
  reachable (s1 ++ map (extracted_file W) done) W.
Proof. apply reachable_app_store, s1_reachable. Qed.

Lemma store_after_lookup (done : list zip_entry) n :
  (forall x, In x done -> Str.lower (entry_name x) <> Str.lower n) ->
  Store.lookup (s1 ++ map (extracted_file W) done) (W ++ [n]) = None.
Proof.
  intros H. unfold s1. rewrite !lookup_app.
  rewrite (lookup_none_below W (fs w) (W ++ [n]) nothing_below)
    by apply is_prefix_app.
  unfold Store.lookup at 1. cbn [find fst]. rewrite loc_eqb_longer.
  now apply lookup_extracted_none.
Qed.

Lemma workspace_stays (done : list zip_entry) text :
  workspace_present
    (after_message (M_of (s1 ++ map (extracted_file W) done)) text) = true
  /\ workspace_present (M_of (s1 ++ map (extracted_file W) done)) = true.
Proof.
  destruct ws_shape as (Hne & _).
  assert (HW : Store.is_dir (s1 ++ map (extracted_file W) done) W = true).
  { pose proof (store_after_reachable done (length W)) as H.
    rewrite firstn_all in H. apply H. unfold W. rewrite length_app. cbn. lia. }
  unfold workspace_present, after_message, M_of.
  cbn [this env fs with_fs with_shown].
  now rewrite ws_named, ws_at, Hne, HW.
Qed.

(** The loop over the first entries of an archive, when these have plain
    names, differ from one another and can be decompressed: they are
    written one after the other. *)
Lemma prefix_loop (entries good tail : list zip_entry) :
  entries = good ++ tail ->
  flat_archive good ->
  forall rest done,
    good = done ++ rest ->
    for_loop (length rest) (length done) (extract_entry entries)
      (M_of (s1 ++ map (extracted_file W) done))
    = (Returned tt, M_of (s1 ++ map (extracted_file W) good)).
Proof.
  intros Hentries [Hall Hnd].
  induction rest as [| e rest IH]; intros done Hsplit.
  - rewrite app_nil_r in Hsplit. subst done. reflexivity.
  - cbn [length for_loop].
    assert (He : plain_name (entry_name e) /\ intact e).
    { rewrite Forall_forall in Hall. apply Hall. rewrite Hsplit.
      apply in_or_app. right. now left. }
    destruct He as [[Hplain _] Hdata].
    assert (Hdiff := names_before_differ done rest e).
    rewrite <- Hsplit in Hdiff. specialize (Hdiff Hnd).
    assert (Hwhole : entries = done ++ e :: (rest ++ tail)).
    { rewrite Hentries, Hsplit, <- app_assoc. reflexivity. }
    rewrite (bind_returned _ _ _ tt
               (M_of ((s1 ++ map (extracted_file W) done)
                      ++ [extracted_file W e]))).
    2:{ apply plain_entry_run.
        - unfold TZipFile.FileNames. rewrite Hwhole. now rewrite nth_middle.
        - rewrite Hwhole. now apply find_first_named.
        - exact Hdata.
        - exact Hplain.
        - apply store_after_reachable.
        - now apply store_after_lookup. }
    replace ((s1 ++ map (extracted_file W) done) ++ [extracted_file W e])
      with (s1 ++ map (extracted_file W) (done ++ [e]))
      by (now rewrite map_app, app_assoc).
    replace (S (length done)) with (length (done ++ [e]))
      by (rewrite length_app; cbn; lia).
    apply IH. rewrite <- app_assoc. exact Hsplit.
Qed.

Lemma flat_run (entries : list zip_entry) :
  flat_archive entries ->
  ExtractZipToTemp (ZipArchive entries) m
  = (Returned true, M_of (s1 ++ map (extracted_file W) entries)).
Proof.
  intros Hflat. rewrite ExtractZipToTemp_unfold. unfold try_catch.
  rewrite (bind_returned _ _ _ _ _ workspace_created).
  rewrite extract_all_entries_archive. unfold TZipFile.FileCount.
  pose proof (prefix_loop entries entries [] (eq_sym (app_nil_r _)) Hflat
                entries [] eq_refl) as Hl.
  cbn [length map] in Hl. rewrite app_nil_r in Hl. now rewrite Hl.
Qed.

(** An entry whose local header cannot be read stops the loop: what was
    written before it stays, what follows it is not looked at. *)
Lemma damaged_run (good tail : list zip_entry) bad :
  flat_archive good ->
  segment_name (entry_name bad) ->
  entry_data bad = BadHeader ->
  (forall x, In x good ->
             Str.lower (entry_name x) <> Str.lower (entry_name bad)) ->
  ExtractZipToTemp (ZipArchive (good ++ bad :: tail)) m
  = (Returned false,
     after_message (M_of (s1 ++ map (extracted_file W) good))
       "Error extracting ZIP file: Invalid Zip Local Header signature").
Proof.
  intros Hflat Hplain Hdata Hdiff.
  rewrite ExtractZipToTemp_unfold. unfold try_catch.
  rewrite (bind_returned _ _ _ _ _ workspace_created).
  rewrite extract_all_entries_archive. unfold TZipFile.FileCount.
  rewrite length_app. cbn [length].
  rewrite (for_loop_app _ _ _ _ _
             (M_of (s1 ++ map (extracted_file W) good))).
  2:{ pose proof (prefix_loop (good ++ bad :: tail) good (bad :: tail)
                    eq_refl Hflat good [] eq_refl) as Hl.
      cbn [length map] in Hl. rewrite app_nil_r in Hl. exact Hl. }
  cbn [for_loop Nat.add].
  rewrite (bind_thrown _ _ _ "Invalid Zip Local Header signature"
             (M_of (s1 ++ map (extracted_file W) good))).
  - reflexivity.
  - rewrite Nat.add_0_r. apply (damaged_entry_run _ _ bad).
    + unfold TZipFile.FileNames. now rewrite nth_middle.
    + now apply find_first_named.
    + exact Hdata.
    + exact Hplain.
    + apply store_after_reachable.
Qed.

(** An entry whose data cannot be decompressed stops the loop as well, but
    its output file has been created by then. *)
Lemma corrupt_run (good tail : list zip_entry) bad d :
  flat_archive good ->
  segment_name (entry_name bad) ->
  entry_data bad = BadData d ->
  (forall x, In x good ->
             Str.lower (entry_name x) <> Str.lower (entry_name bad)) ->
  ExtractZipToTemp (ZipArchive (good ++ bad :: tail)) m
  = (Returned false,
     after_message (M_of (s1 ++ map (extracted_file W) (good ++ [bad])))
       "Error extracting ZIP file: Data error").
Proof.
  intros Hflat Hplain Hdata Hdiff.
  rewrite ExtractZipToTemp_unfold. unfold try_catch.
  rewrite (bind_returned _ _ _ _ _ workspace_created).
  rewrite extract_all_entries_archive. unfold TZipFile.FileCount.
  rewrite length_app. cbn [length].
  rewrite (for_loop_app _ _ _ _ _
             (M_of (s1 ++ map (extracted_file W) good))).
  2:{ pose proof (prefix_loop (good ++ bad :: tail) good (bad :: tail)
                    eq_refl Hflat good [] eq_refl) as Hl.
      cbn [length map] in Hl. rewrite app_nil_r in Hl. exact Hl. }
  cbn [for_loop Nat.add].
  rewrite (bind_thrown _ _ _ "Data error"
             (M_of (s1 ++ map (extracted_file W) (good ++ [bad])))).
  - reflexivity.
  - rewrite Nat.add_0_r, map_app, app_assoc. cbn [map].
    apply (corrupt_entry_run _ _ bad d).
    + unfold TZipFile.FileNames. now rewrite nth_middle.
    + now apply find_first_named.
    + exact Hdata.
    + exact Hplain.
    + apply store_after_reachable.
    + now apply store_after_lookup.
Qed.

(** A buffer that is no archive: [Open] throws once the directory has been
    made. *)
Lemma not_a_zip_run :
  ExtractZipToTemp NotAZip m
  = (Returned false,
     after_message (M_of s1) "Error extracting ZIP file: Invalid Zip File").
Proof.
  rewrite ExtractZipToTemp_unfold. unfold try_catch.
  rewrite (bind_returned _ _ _ _ _ workspace_created). reflexivity.
Qed.

End Workspace.

Lemma filter_nothing {A} (f : A -> bool) l :
  (forall x, In x l -> f x = false) -> filter f l = [].
Proof.
  induction l as [| x l IH]; intros H; [reflexivity |].
  cbn [filter]. rewrite (H x (or_introl eq_refl)).
  apply IH. intros y Hy. apply H. now right.
Qed.

Lemma filter_everything {A} (f : A -> bool) l :
  (forall x, In x l -> f x = true) -> filter f l = l.
Proof.
  induction l as [| x l IH]; intros H; [reflexivity |].
  cbn [filter]. rewrite (H x (or_introl eq_refl)). f_equal.
  apply IH. intros y Hy. apply H. now right.
Qed.

Lemma is_below_self p : Loc.is_below p p = false.
Proof. unfold Loc.is_below. rewrite loc_eqb_refl. apply andb_false_r. Qed.

Lemma is_below_snoc p x : Loc.is_below p (p ++ [x]) = true.
Proof.
  unfold Loc.is_below. now rewrite is_prefix_app, loc_eqb_longer.
Qed.

Lemma skipn_snoc {A} (p : list A) x : skipn (length p) (p ++ [x]) = [x].
Proof.
  rewrite skipn_app, skipn_all, Nat.sub_diag. reflexivity.
Qed.

(** What lies below the workspace once the entries are written. *)
Lemma content_below_extracted W s (entries : list zip_entry) :
  (forall e, In e s -> Loc.is_prefix W (fst e) = false) ->
  content_below (s ++ (W, Dir) :: map (extracted_file W) entries) W
  = map (fun e => ([entry_name e], true)) entries.
Proof.
  intros H. unfold content_below. rewrite filter_app.
  rewrite (filter_nothing _ s).
  2:{ intros e He. unfold Loc.is_below. now rewrite (H e He). }
  cbn [Datatypes.app filter fst]. rewrite is_below_self.
  induction entries as [| e entries IH]; [reflexivity |].
  cbn [map filter]. unfold extracted_file at 1. cbn [fst].
  rewrite is_below_snoc. cbn [map]. rewrite IH.
  unfold extracted_file. cbn [fst snd Store.is_file_node].
  now rewrite skipn_snoc.
Qed.

Lemma lookup_extracted W (entries : list zip_entry) e :
  NoDup (map (fun x => Str.lower (entry_name x)) entries) ->
  In e entries ->
  Store.lookup (map (extracted_file W) entries) (W ++ [entry_name e])
  = Some (File (entry_bytes e)).
Proof.
  intros Hnd Hin. unfold Store.lookup.
  induction entries as [| x entries IH]; [easy |].
  cbn [map] in Hnd. apply NoDup_cons_iff in Hnd as [Hx Hnd].
  cbn [map find]. unfold extracted_file at 1. cbn [fst].
  rewrite loc_eqb_snoc. unfold Str.same_text.
  destruct Hin as [-> | Hin].
  - now rewrite String.eqb_refl.
  - destruct (String.eqb _ _) eqn:E.
    + apply String.eqb_eq in E. exfalso. apply Hx. rewrite E.
      now apply (in_map (fun x => Str.lower (entry_name x))).
    + now apply IH.
Qed.


Lemma sample_fresh_workspace res :
  fresh_workspace (Sample.machine [1000] res) "C:\Temp" ["C:"] "Temp".
Proof.
  unfold fresh_workspace. split; [reflexivity |]. split; [reflexivity |].
  split; [| split].
  - intros k Hk. cbn in Hk. destruct k as [| [| [| k]]]; try lia; reflexivity.
  - intros e [<- | [<- | []]]; reflexivity.
  - intros p _. reflexivity.
Qed.

Lemma sample_usable_root : usable_root "C:\Temp".
Proof. split; [reflexivity | cbn; lia]. Qed.

(** Closes a goal [plain_name n] or [segment_name n] for a given [n]. *)
Ltac given_name :=
  lazymatch goal with
  | |- plain_name _ => split; [repeat split | cbn; lia]
  | |- segment_name _ => repeat split
  end.

Lemma sample_flat_archive :
  flat_archive
    [mk_entry "a.png" (Stored Sample.payload); mk_entry "b.JPG" (Stored [])].
Proof.
  split.
  - repeat (constructor; [split; [given_name | eexists; reflexivity] |]).
    constructor.
  - cbn. repeat constructor; cbn; intuition discriminate.
Qed.



Lemma sample_damaged_entry :
  forall x, In x [mk_entry "a.png" (Stored Sample.payload)] ->
            Str.lower (entry_name x) <> Str.lower "b.png".
Proof. intros x [<- | []]. discriminate. Qed.


(** X8.  A resource that is no ZIP archive is found out only after the
    workspace has been made: [ExtractZipToTemp] returns false after one
    message "Error extracting ZIP file: ...", and leaves the new, empty
    directory behind, named by [tempDirectory]; the file system has changed
    in nothing else. *)
Theorem not_an_archive_leaves_the_workspace
    (m : Machine) (r : string) (G : Loc.t) (leaf : string) :
  fresh_workspace m r G leaf ->
  let W := workspace_loc m G leaf in
  let done := ExtractZipToTemp NotAZip m in
  fst done = Returned false
  /\ (exists reason,
        shown (env (snd done))
        = shown (env m) ++ [("Error extracting ZIP file: " ++ reason)%string])
  /\ fs (env (snd done)) = fs (env m) ++ [(W, Dir)]
  /\ content_below (fs (env (snd done))) W = []
  /\ Loc.of_path (tempDirectory (this (snd done))) = W
  /\ workspace_present (snd done) = true.
Proof.
  intros (H1 & H2 & H3 & H4 & H5) W done. subst done W.
  rewrite (not_a_zip_run m r G leaf H1 H2 H3 H4 H5).
  unfold workspace_loc in *.
  set (W := G ++ [leaf; workspace_leaf (tick_reading (env m))]) in *.
  split; [reflexivity |].
  split.
  { eexists. unfold after_message. cbn [snd env shown with_shown with_fs].
    now rewrite shown_tick_env. }
  split; [reflexivity |].
  split.
  { unfold after_message. cbn [snd env fs with_shown with_fs].
    exact (content_below_extracted W (fs (env m)) [] H4). }
  split.
  { unfold after_message. cbn [snd this].
    rewrite (ws_named m r H1). exact (ws_at m r G leaf H2). }
  cbn [snd].
  pose proof (workspace_stays m r G leaf H1 H2 H3 H4 H5 []
                "Error extracting ZIP file: Invalid Zip File") as [Hw _].
  cbn [map] in Hw. now rewrite app_nil_r in Hw.
Qed.

(** X8 exercised on the sample disk. *)
Lemma not_an_archive_leaves_the_workspace_witness :
  let m := Sample.machine [1000] [] in
  let W := workspace_loc m ["C:"] "Temp" in
  let done := ExtractZipToTemp NotAZip m in
  fst done = Returned false
  /\ (exists reason,
        shown (env (snd done))
        = shown (env m) ++ [("Error extracting ZIP file: " ++ reason)%string])
  /\ fs (env (snd done)) = fs (env m) ++ [(W, Dir)]
  /\ content_below (fs (env (snd done))) W = []
  /\ Loc.of_path (tempDirectory (this (snd done))) = W
  /\ workspace_present (snd done) = true.
Proof.
  intros m.
  apply (not_an_archive_leaves_the_workspace m "C:\Temp" ["C:"] "Temp").
  apply sample_fresh_workspace.
Defined.

(** ** Directories outlast the extraction *)

Lemma keeps_directories_refl m : keeps_directories m m.
Proof. intros q H. exact H. Qed.

Lemma keeps_directories_trans a b c :
  keeps_directories a b -> keeps_directories b c -> keeps_directories a c.
Proof. intros H1 H2 q H. apply H2, H1, H. Qed.

Lemma keeps_directories_update_this f :
  stable keeps_directories (update_this f).
Proof. intros m q H. exact H. Qed.

Lemma keeps_directories_ShowMessage text :
  stable keeps_directories (ShowMessage text).
Proof. intros m q H. exact H. Qed.

Lemma keeps_directories_GetTickCount : stable keeps_directories GetTickCount.
Proof.
  intros m q H. unfold GetTickCount.
  destruct (tick_counts (env m)); exact H.
Qed.

Lemma keeps_directories_CreateDirectory path :
  stable keeps_directories (TDirectory.CreateDirectory path).
Proof.
  intros m q H. unfold TDirectory.CreateDirectory.
  destruct (Str.is_empty path); [exact H |].
  unfold update_env. cbn [snd env fs with_fs]. now apply force_dirs_keeps_dir.
Qed.

Lemma keeps_directories_Create_Write path data :
  stable keeps_directories (TFileStream_Create_Write path data).
Proof.
  intros m q H. unfold TFileStream_Create_Write, bind, get_env.
  destruct (Store.write_file _ _ _ _) as [s' |] eqn:E; [| exact H].
  unfold update_env. cbn [snd env fs with_fs].
  exact (write_file_keeps_dir _ _ _ _ _ _ E H).
Qed.

Lemma keeps_directories_Extract z name path :
  stable keeps_directories (TZipFile.Extract z name path).
Proof.
  unfold TZipFile.Extract.
  stable_walk keeps_directories_refl keeps_directories_trans
    ltac:(first [ apply keeps_directories_CreateDirectory
                | apply keeps_directories_Create_Write ]).
Qed.

Lemma keeps_directories_ExtractZipToTemp zs :
  stable keeps_directories (ExtractZipToTemp zs).
Proof.
  unfold ExtractZipToTemp, create_temp_directory, extract_all_entries,
    extract_entry.
  stable_walk keeps_directories_refl keeps_directories_trans
    ltac:(first [ apply keeps_directories_CreateDirectory
                | apply keeps_directories_Extract
                | apply keeps_directories_ShowMessage
                | apply keeps_directories_update_this
                | apply keeps_directories_GetTickCount
                | progress unfold TDirectory.Exists, GetTempPath,
                    TZipFile.Open ]).
Qed.

Lemma keeps_directories_ExtractResourceAsZip :
  stable keeps_directories ExtractResourceAsZip.
Proof.
  unfold ExtractResourceAsZip.
  stable_walk keeps_directories_refl keeps_directories_trans
    ltac:(first [ apply keeps_directories_ExtractZipToTemp
                | apply keeps_directories_ShowMessage
                | progress unfold FindResource, WriteBuffer ]).
Qed.

Lemma keeps_directories_extract_all_entries zs :
  stable keeps_directories (extract_all_entries zs).
Proof.
  unfold extract_all_entries, extract_entry.
  stable_walk keeps_directories_refl keeps_directories_trans
    ltac:(first [ apply keeps_directories_CreateDirectory
                | apply keeps_directories_Extract
                | apply keeps_directories_ShowMessage
                | progress unfold TDirectory.Exists, TZipFile.Open ]).
Qed.

(** ** What [ExtractResourceAsZip] comes to *)

(** The method, resource by resource: the four checks, then the
    extraction of the resource's bytes. *)
Lemma ExtractResourceAsZip_cases m :
  ExtractResourceAsZip m
  = match embedded_resource (env m) with
    | None =>
        (Returned false,
         after_message m "No suitable resource found in the executable")
    | Some h =>
        if res_loadable h then
          if (res_lockable h && negb (Z.eqb (res_size h) 0))%bool
          then ExtractZipToTemp (res_image h) m
          else (Returned false, after_message m "Invalid resource data")
        else (Returned false, after_message m "Unable to load resource")
    end.
Proof.
  unfold ExtractResourceAsZip, embedded_resource.
  unfold try_catch at 1. unfold bind at 1. unfold FindResource at 1.
  unfold bind at 1. unfold get_env at 1. unfold ret at 1.
  destruct (find _ (resources (env m))) as [h |]; [| reflexivity].
  unfold LoadResource, LockResource, SizeofResource.
  destruct (res_loadable h); [| reflexivity].
  destruct (res_lockable h); [| reflexivity].
  destruct (Z.eqb (res_size h) 0); [reflexivity |]. cbn [andb negb].
  unfold try_catch, bind, WriteBuffer, ret.
  destruct (ExtractZipToTemp_failure_is_reported (res_image h) m)
    as (b & m' & H & _).
  now rewrite H.
Qed.

Lemma create_temp_directory_made m m' :
  create_temp_directory m = (Returned None, m') ->
  workspace_present m' = true /\ this m' = this m.
Proof.
  unfold create_temp_directory, try_catch, bind, get_this,
    TDirectory.CreateDirectory, TDirectory.Exists, bind, get_env, ret,
    ShowMessage, update_env, throw, workspace_present.
  cbn [env this fs with_fs shown with_shown].
  destruct (Str.is_empty (tempDirectory (this m))) eqn:Hne; [discriminate |].
  cbn [negb andb fst snd this env fs with_fs].
  destruct (Store.is_dir _ _) eqn:Hd; cbn [negb]; [| discriminate].
  intros [= <-]. cbn [this env fs with_fs]. now rewrite Hne, Hd.
Qed.

(** A successful extraction leaves the workspace in place. *)
Lemma ExtractZipToTemp_true zs m m' :
  ExtractZipToTemp zs m = (Returned true, m') ->
  workspace_present m' = true.
Proof.
  rewrite ExtractZipToTemp_unfold. unfold try_catch.
  destruct (create_temp_directory_effect (named_machine m))
    as [m1 [[Hc _] | [Hc _]]]; rewrite (bind_returned _ _ _ _ _ Hc).
  - destruct (create_temp_directory_made _ _ Hc) as [Hp Hthis].
    pose proof (same_form_extract_all_entries zs m1) as Hform.
    pose proof (keeps_directories_extract_all_entries zs m1) as Hdirs.
    unfold same_form in Hform.
    destruct (extract_all_entries_effect zs m1)
      as [m2 [[Hx _] | [e [Hx _]]]]; rewrite Hx in *; [| discriminate].
    intros [= <-]. cbn [snd] in Hform, Hdirs.
    unfold workspace_present in *. rewrite Hform.
    apply andb_true_iff in Hp as [Hne Hd]. rewrite Hne.
    now rewrite (Hdirs _ Hd).
  - discriminate.
Qed.

(** However it ends, [ExtractResourceAsZip] returns, and it returns false
    only after a message. *)
Lemma ExtractResourceAsZip_reported (m : Machine) :
  exists b m',
    ExtractResourceAsZip m = (Returned b, m')
    /\ (b = true ->
        shown (env m') = shown (env m) /\ workspace_present m' = true)
    /\ (b = false ->
        exists text, shown (env m') = shown (env m) ++ [text]).
Proof.
  rewrite ExtractResourceAsZip_cases.
  assert (Hfail : forall text,
    exists b m',
      (Returned false, after_message m text) = (Returned b, m')
      /\ (b = true ->
          shown (env m') = shown (env m) /\ workspace_present m' = true)
      /\ (b = false ->
          exists text, shown (env m') = shown (env m) ++ [text])).
  { intros text. exists false, (after_message m text).
    split; [reflexivity |]. split; [discriminate |].
    intros _. now exists text. }
  destruct (embedded_resource (env m)) as [h |]; [| apply Hfail].
  destruct (res_loadable h); [| apply Hfail].
  destruct (res_lockable h && negb (Z.eqb (res_size h) 0))%bool;
    [| apply Hfail].
  destruct (ExtractZipToTemp_failure_is_reported (res_image h) m)
    as (b & m' & H & Htrue & Hfalse).
  exists b, m'. split; [exact H |]. split.
  - intros ->. split; [now apply Htrue |].
    exact (ExtractZipToTemp_true _ _ _ H).
  - intros Hb. destruct (Hfalse Hb) as [Hs | [e Hs]]; eexists; exact Hs.
Qed.

(** The only field of the form [ExtractResourceAsZip] changes is
    [tempDirectory]. *)
Lemma ExtractResourceAsZip_form m :
  this (snd (ExtractResourceAsZip m))
  = with_tempDirectory (this m)
      (tempDirectory (this (snd (ExtractResourceAsZip m)))).
Proof.
  assert (Hsame : this m = with_tempDirectory (this m) (tempDirectory (this m)))
    by (destruct (this m); reflexivity).
  rewrite ExtractResourceAsZip_cases.
  destruct (embedded_resource (env m)) as [h |]; [| exact Hsame].
  destruct (res_loadable h); [| exact Hsame].
  destruct (res_lockable h && negb (Z.eqb (res_size h) 0))%bool;
    [| exact Hsame].
  rewrite ExtractZipToTemp_form. reflexivity.
Qed.

(** X9.  [ExtractResourceAsZip] never lets an exception escape, never fails
    silently and changes no field of the form but [tempDirectory].  When
    it returns false it has shown exactly one message.  When it returns
    true it has shown none, and [tempDirectory] names a directory that
    exists: the one the scan is about to read. *)
Theorem ExtractResourceAsZip_outcome (m : Machine) :
  exists b m',
    ExtractResourceAsZip m = (Returned b, m')
    /\ this m' = with_tempDirectory (this m) (tempDirectory (this m'))
    /\ (b = true ->
        shown (env m') = shown (env m) /\ workspace_present m' = true)
    /\ (b = false ->
        exists text, shown (env m') = shown (env m) ++ [text]).
Proof.
  destruct (ExtractResourceAsZip_reported m) as (b & m' & Hx & Htrue & Hfalse).
  exists b, m'. split; [exact Hx |]. split.
  - pose proof (ExtractResourceAsZip_form m) as Hform.
    rewrite Hx in Hform. exact Hform.
  - split; assumption.
Qed.

(** X10.  The extraction never removes or replaces a directory: whatever
    the archive holds and however the call ends, every directory that
    existed before [ExtractZipToTemp], or [ExtractResourceAsZip], still
    exists after it. *)
Theorem extraction_keeps_directories
    (zs : TMemoryStream) (m : Machine) (q : Loc.t) :
  Store.is_dir (fs (env m)) q = true ->
  Store.is_dir (fs (env (snd (ExtractZipToTemp zs m)))) q = true
  /\ Store.is_dir (fs (env (snd (ExtractResourceAsZip m)))) q = true.
Proof.
  intros H. split.
  - exact (keeps_directories_ExtractZipToTemp zs m q H).
  - exact (keeps_directories_ExtractResourceAsZip m q H).
Qed.

(** X10 exercised: the temporary files root outlasts an entry that climbs
    out of the workspace. *)
Lemma extraction_keeps_directories_witness :
  let m := Sample.machine [1000] [Sample.rcdata (Sample.archive ["..\evil.txt"])] in
  Store.is_dir
    (fs (env (snd (ExtractZipToTemp (Sample.archive ["..\evil.txt"]) m))))
    ["C:"; "Temp"] = true
  /\ Store.is_dir (fs (env (snd (ExtractResourceAsZip m)))) ["C:"; "Temp"]
     = true.
Proof.
  intros m.
  apply (extraction_keeps_directories (Sample.archive ["..\evil.txt"]) m).
  reflexivity.
Defined.

(** ** A workspace that cannot be made *)

Lemma force_dirs_blocked prot rest :
  forall pre s x,
    (forall k, (0 < k <= length rest)%nat ->
               Store.is_dir s (pre ++ firstn k rest) = true) ->
    (exists d, Store.lookup s (pre ++ rest ++ [x]) = Some (File d))
    \/ (Store.lookup s (pre ++ rest ++ [x]) = None
        /\ Store.guarded prot (pre ++ rest ++ [x]) = true) ->
    Store.force_dirs prot pre (rest ++ [x]) s = s.
Proof.
  induction rest as [| seg rest IH]; intros pre s x H Hb.
  - cbn [Datatypes.app Store.force_dirs] in *.
    destruct Hb as [[d Hd] | [Hn Hg]].
    + now rewrite Hd.
    + now rewrite Hn, Hg.
  - cbn [Datatypes.app Store.force_dirs].
    rewrite (is_dir_lookup s (pre ++ [seg])) by (apply (H 1%nat); cbn; lia).
    cbn [Datatypes.app] in Hb.
    replace (pre ++ seg :: rest ++ [x]) with ((pre ++ [seg]) ++ rest ++ [x])
      in * by (rewrite <- app_assoc; reflexivity).
    apply IH; [| exact Hb].
    intros k Hk. rewrite <- app_assoc. apply (H (S k)). cbn [length]. lia.
Qed.

Lemma with_fs_same w : with_fs w (fs w) = w.
Proof. destruct w. reflexivity. Qed.

(** X11.  When the temporary files root exists but a file already bears
    the workspace's name, or the location is guarded, the directory cannot
    be made: [ExtractZipToTemp] shows "Unable to create temporary
    directory" and returns false without opening the archive, whatever it
    holds.  The file system is as before; [tempDirectory] keeps the name,
    which is no directory, so that a later [CleanupTempFiles] removes
    nothing. *)
Theorem ExtractZipToTemp_workspace_blocked
    (zs : TMemoryStream) (m : Machine) (r : string) (G : Loc.t)
    (leaf : string) :
  temp_path (env m) = (r ++ String TPath.backslash "")%string ->
  Loc.of_path r = G ++ [leaf] ->
  reachable (fs (env m)) (G ++ [leaf]) ->
  blocked (env m) (workspace_loc m G leaf) ->
  let done := ExtractZipToTemp zs m in
  done
  = (Returned false,
     after_message (named_machine m) "Unable to create temporary directory")
  /\ fs (env (snd done)) = fs (env m)
  /\ Loc.of_path (tempDirectory (this (snd done))) = workspace_loc m G leaf
  /\ workspace_present (snd done) = false
  /\ CleanupTempFiles (snd done) = (Returned tt, snd done).
Proof.
  intros H1 H2 H3 Hb done.
  pose proof (ws_is_tempDirectory m r H1) as Htd.
  pose proof (ws_loc m r G leaf H2) as Hloc.
  fold (workspace_leaf (tick_reading (env m))) in Htd, Hloc.
  fold (workspace_loc m G leaf) in Hloc.
  set (W := workspace_loc m G leaf) in *.
  set (ws := (r ++ String TPath.backslash
                     (workspace_leaf (tick_reading (env m))))%string) in *.
  assert (Hne : Str.is_empty ws = false) by apply is_empty_app.
  assert (Hnodir : Store.is_dir (fs (env m)) W = false).
  { unfold Store.is_dir. destruct Hb as [[d Hd] | [Hn _]].
    - now rewrite Hd.
    - now rewrite Hn. }
  assert (Hforce :
    Store.force_dirs (guarded_locs (env m)) [] W (fs (env m)) = fs (env m)).
  { unfold W, workspace_loc.
    replace (G ++ [leaf; workspace_leaf (tick_reading (env m))])
      with ([] ++ (G ++ [leaf]) ++ [workspace_leaf (tick_reading (env m))])
      by (cbn [Datatypes.app]; now rewrite <- app_assoc).
    cbn [Datatypes.app].
    apply (force_dirs_blocked _ (G ++ [leaf]) []).
    - exact H3.
    - cbn [Datatypes.app]. rewrite <- app_assoc. exact Hb. }
  assert (Hfs : fs (env (named_machine m)) = fs (env m))
    by (unfold named_machine; cbn [env]; apply fs_tick_env).
  assert (Hg : guarded_locs (env (named_machine m)) = guarded_locs (env m))
    by (unfold named_machine; cbn [env]; apply guarded_locs_tick_env).
  assert (Hrun : done
    = (Returned false,
       after_message (named_machine m) "Unable to create temporary directory")).
  { subst done. rewrite ExtractZipToTemp_unfold.
    unfold try_catch at 1. unfold bind at 1.
    unfold create_temp_directory, try_catch, bind, get_this,
      TDirectory.CreateDirectory, TDirectory.Exists, bind, get_env, ret,
      ShowMessage, update_env, throw.
    cbn [fst snd this env]. rewrite Htd, Hne.
    cbn [fst snd this env fs with_fs guarded_locs].
    rewrite Hloc, Hg, Hfs, Hforce, Hnodir.
    cbn [negb andb fst snd this env]. unfold after_message.
    rewrite <- Hfs, with_fs_same. reflexivity. }
  split; [exact Hrun |]. rewrite Hrun. cbn [snd].
  assert (Habsent : workspace_present
            (after_message (named_machine m)
               "Unable to create temporary directory") = false).
  { unfold workspace_present, after_message. cbn [this env fs with_shown].
    rewrite Htd, Hloc, Hfs, Hnodir. apply andb_false_r. }
  split; [unfold after_message; cbn [env fs with_shown]; exact Hfs |].
  split; [unfold after_message; cbn [this]; now rewrite Htd |].
  split; [exact Habsent |].
  now apply CleanupTempFiles_absent.
Qed.

(** X11 exercised: a file named like the workspace lies in the temporary
    files root. *)
Lemma ExtractZipToTemp_workspace_blocked_witness :
  let m :=
    mk_machine form_from_dfm
      (mk_world
         (Sample.disk ++ [(["C:"; "Temp"; "FlagImages_1000"], File [])])
         [] "C:\Temp\" [1000] [] [] Sample.decoder) in
  let done := ExtractZipToTemp (Sample.archive ["a.png"]) m in
  done
  = (Returned false,
     after_message (named_machine m) "Unable to create temporary directory")
  /\ fs (env (snd done)) = fs (env m)
  /\ Loc.of_path (tempDirectory (this (snd done)))
     = workspace_loc m ["C:"] "Temp"
  /\ workspace_present (snd done) = false
  /\ CleanupTempFiles (snd done) = (Returned tt, snd done).
Proof.
  intros m.
  apply (ExtractZipToTemp_workspace_blocked (Sample.archive ["a.png"]) m
           "C:\Temp" ["C:"] "Temp").
  - reflexivity.
  - reflexivity.
  - intros k Hk. cbn in Hk. destruct k as [| [| [| k]]]; try lia; reflexivity.
  - left. exists []. reflexivity.
Defined.

(** ** From the constructor to the destructor *)

Lemma resources_tick_env w : resources (tick_env w) = resources w.
Proof. unfold tick_env. destruct (tick_counts w); reflexivity. Qed.

Lemma GetTickCount_run m :
  GetTickCount m
  = (Returned (tick_reading (env m)), mk_machine (this m) (tick_env (env m))).
Proof.
  unfold GetTickCount, tick_reading, tick_env.
  destruct (tick_counts (env m)); [| reflexivity].
  now rewrite machine_eta.
Qed.

Lemma ExtractResourceAsZip_archive m entries :
  carries_archive (env m) entries ->
  ExtractResourceAsZip m = ExtractZipToTemp (ZipArchive entries) m.
Proof.
  intros (h & Hh & Hload & Hlock & Hsize & Himage).
  rewrite ExtractResourceAsZip_cases, Hh, Hload, Hlock, Himage.
  apply Z.eqb_neq in Hsize. now rewrite Hsize.
Qed.

Lemma carries_archive_constructing m0 entries :
  carries_archive (env m0) entries ->
  carries_archive (env (constructing m0)) entries.
Proof.
  unfold carries_archive, embedded_resource, constructing. cbn [env].
  now rewrite resources_tick_env.
Qed.

Lemma holds_guarded_free prot W s :
  (forall p, Loc.is_prefix W p = true -> Store.guarded prot p = false) ->
  Store.holds_guarded prot W s = false.
Proof.
  intros H. unfold Store.holds_guarded.
  induction s as [| e s IH]; [reflexivity |]. cbn [existsb]. rewrite IH.
  destruct (Loc.is_prefix W (fst e)) eqn:E; [| reflexivity].
  now rewrite (H _ E).
Qed.

(** Removing the workspace undoes the extraction of an archive without
    directories. *)
Lemma remove_tree_extracted W s (entries : list zip_entry) :
  (forall e, In e s -> Loc.is_prefix W (fst e) = false) ->
  Store.remove_tree W (s ++ (W, Dir) :: map (extracted_file W) entries) = s.
Proof.
  intros H. unfold Store.remove_tree. rewrite filter_app.
  rewrite (filter_everything _ s) by (intros e He; now rewrite (H e He)).
  cbn [filter fst]. rewrite (loc_eqb_is_prefix W W (loc_eqb_refl W)).
  cbn [negb]. rewrite filter_nothing; [apply app_nil_r |].
  intros e He. apply in_map_iff in He as (x & <- & _).
  unfold extracted_file. cbn [fst]. now rewrite is_prefix_app.
Qed.

Section Lifecycle.

Variable mt_output : Z -> nat -> Z.
Variable uniform_int_distribution : Z -> Z -> (nat -> Z) -> Z * nat.

Let ShowRandomFlag' := ShowRandomFlag mt_output uniform_int_distribution.
Let InitializeApplication' :=
  InitializeApplication mt_output uniform_int_distribution.
Let TForm1_create' := TForm1_create mt_output uniform_int_distribution.
Let press' := press mt_output uniform_int_distribution.
Let form_lifetime' := form_lifetime mt_output uniform_int_distribution.

Lemma TForm1_create_unfold m0 :
  TForm1_create' m0
  = InitializeApplication'
      (mk_machine
         (with_tempDirectory
            (with_randomGenerator (this m0) (mk_mt (tick_reading (env m0)) 0))
            "")
         (tick_env (env m0))).
Proof.
  unfold TForm1_create', TForm1_create.
  rewrite (bind_returned _ _ _ _ _ (GetTickCount_run m0)). reflexivity.
Qed.

(** The initialization, once the extraction has succeeded and the scan has
    found something. *)
Lemma InitializeApplication_loaded m m2 l :
  ExtractResourceAsZip (extracting m) = (Returned true, m2) ->
  LoadFlagImages m2
  = (Returned tt, mk_machine (with_flagFiles (this m2) l) (env m2)) ->
  l <> [] ->
  InitializeApplication' m
  = ShowRandomFlag'
      (mk_machine
         (with_Status (with_flagFiles (this m2) l)
            ("Status: Successfully loaded " ++ IntToStr (Z.of_nat (length l))
             ++ " flag images"))
         (env m2)).
Proof.
  intros Hx Hl Hne. unfold InitializeApplication', InitializeApplication.
  rewrite (bind_returned _ _ m tt (extracting m)) by reflexivity.
  rewrite (bind_returned _ _ _ _ _ Hx).
  rewrite (bind_returned _ _ _ _ _ Hl).
  unfold bind at 1. unfold get_this at 1. cbn [this flagFiles with_flagFiles].
  destruct l as [| x l]; [congruence |]. reflexivity.
Qed.

(** After the extraction the initialization touches neither the file
    system nor [tempDirectory]. *)
Lemma InitializeApplication_keeps_workspace m b m2 :
  ExtractResourceAsZip (extracting m) = (Returned b, m2) ->
  same_workspace m2 (snd (InitializeApplication' m)).
Proof.
  intros Hx. destruct b.
  - destruct (LoadFlagImages_effect m2) as [l Hl].
    destruct l as [| x l].
    + unfold InitializeApplication'.
      rewrite (InitializeApplication_empty _ _ m m2 [] Hx Hl eq_refl).
      repeat split.
    + rewrite (InitializeApplication_loaded m m2 (x :: l) Hx Hl)
        by discriminate.
      eapply same_workspace_trans;
        [| apply (same_workspace_ShowRandomFlag mt_output
                    uniform_int_distribution)].
      repeat split.
  - unfold InitializeApplication'.
    rewrite (InitializeApplication_failed _ _ m m2 Hx). repeat split.
Qed.

(** The constructor on an executable that carries an archive without
    directories. *)
Lemma TForm1_create_extracts m0 r G leaf entries :
  fresh_workspace (constructing m0) r G leaf ->
  usable_root r ->
  carries_archive (env m0) entries ->
  flat_archive entries ->
  let W := workspace_loc (constructing m0) G leaf in
  let m1 := snd (TForm1_create' m0) in
  fs (env m1) = fs (env m0) ++ (W, Dir) :: map (extracted_file W) entries
  /\ guarded_locs (env m1) = guarded_locs (env m0)
  /\ Loc.of_path (tempDirectory (this m1)) = W
  /\ workspace_present m1 = true.
Proof.
  intros Hfresh [Hv _] Hres Hflat W m1.
  pose proof Hfresh as (H1 & H2 & H3 & H4 & H5).
  set (ma := constructing m0) in *.
  assert (Hx : exists M1,
    ExtractResourceAsZip ma = (Returned true, M1)
    /\ fs (env M1) = fs (env m0) ++ (W, Dir) :: map (extracted_file W) entries
    /\ guarded_locs (env M1) = guarded_locs (env m0)
    /\ Loc.of_path (tempDirectory (this M1)) = W
    /\ workspace_present M1 = true).
  { rewrite (ExtractResourceAsZip_archive ma entries)
      by now apply carries_archive_constructing.
    rewrite (flat_run ma r G leaf H1 Hv H2 H3 H4 H5 entries Hflat).
    eexists. split; [reflexivity |].
    cbn [this env fs guarded_locs with_fs].
    split.
    { unfold ma at 1, constructing. cbn [env]. rewrite fs_tick_env.
      rewrite <- app_assoc. reflexivity. }
    split.
    { rewrite guarded_locs_tick_env. unfold ma, constructing. cbn [env].
      apply guarded_locs_tick_env. }
    split.
    { rewrite (ws_named ma r H1). exact (ws_at ma r G leaf H2). }
    exact (proj2 (workspace_stays ma r G leaf H1 H2 H3 H4 H5 entries "")). }
  destruct Hx as (M1 & Hx & Hfs & Hg & Htd & Hp).
  assert (Hsame : same_workspace M1 m1).
  { subst m1. rewrite TForm1_create_unfold.
    exact (InitializeApplication_keeps_workspace
             (mk_machine
                (with_tempDirectory
                   (with_randomGenerator (this m0)
                      (mk_mt (tick_reading (env m0)) 0)) "")
                (tick_env (env m0)))
             true M1 Hx). }
  pose proof (same_workspace_present _ _ Hsame) as Hp1.
  destruct Hsame as (Hfs1 & Hg1 & Htd1).
  rewrite Hfs1, Hg1, Htd1, Hp1. repeat split; assumption.
Qed.


End Lifecycle.

Lemma sample_carries_archive ticks entries :
  carries_archive
    (env (Sample.machine ticks [Sample.rcdata (ZipArchive entries)])) entries.
Proof.
  eexists. split; [reflexivity |]. repeat split. discriminate.
Qed.

Lemma sample_fresh_construction res :
  fresh_workspace (constructing (Sample.machine [7; 1000] res))
    "C:\Temp" ["C:"] "Temp".
Proof.
  unfold fresh_workspace. split; [reflexivity |]. split; [reflexivity |].
  split; [| split].
  - intros k Hk. cbn in Hk. destruct k as [| [| [| k]]]; try lia; reflexivity.
  - intros e [<- | [<- | []]]; reflexivity.
  - intros p _. reflexivity.
Qed.


(** ** What the form shows after its construction *)

Lemma GetFileName_plain n :
  Str.contains_char is_sep_or_colon n = false -> TPath.GetFileName n = n.
Proof.
  intros H. destruct n as [| c n]; [reflexivity |].
  cbn [TPath.GetFileName].
  change (fun x => (TPath.is_sep x || Ascii.eqb x TPath.colon)%bool)
    with is_sep_or_colon.
  now rewrite H.
Qed.

Lemma GetFileName_join x c n :
  TPath.is_sep c = true ->
  Str.contains_char is_sep_or_colon n = false ->
  TPath.GetFileName (x ++ String c n) = n.
Proof.
  intros Hc Hn.
  assert (Hhas : forall y,
            Str.contains_char is_sep_or_colon (y ++ String c n)%string = true).
  { intros y. rewrite contains_char_app. cbn [Str.contains_char].
    unfold is_sep_or_colon at 2. rewrite Hc. cbn [orb]. apply orb_true_r. }
  induction x as [| a x IH].
  - pose proof (Hhas "") as H0. cbn [String.append] in *.
    cbn [TPath.GetFileName].
    change (fun x => (TPath.is_sep x || Ascii.eqb x TPath.colon)%bool)
      with is_sep_or_colon.
    rewrite H0. now apply GetFileName_plain.
  - change ((String a x ++ String c n)%string)
      with (String a (x ++ String c n)%string).
    cbn [TPath.GetFileName].
    change (fun x => (TPath.is_sep x || Ascii.eqb x TPath.colon)%bool)
      with is_sep_or_colon.
    pose proof (Hhas (String a x)) as Ha.
    change (Str.contains_char is_sep_or_colon
              (String a (x ++ String c n)%string) = true) in Ha.
    rewrite Ha. exact IH.
Qed.

Lemma last_snoc {A} (l : list A) x d : last (l ++ [x]) d = x.
Proof. apply last_last. Qed.

(** The files of a given kind in the file system after the extraction of
    an archive without directories are the entries of that kind. *)
Lemma filter_extracted W s (entries : list zip_entry) (P : string -> bool) :
  (forall e, In e s -> Loc.is_prefix W (fst e) = false) ->
  filter
    (fun e => (Store.is_file_node (snd e) && Loc.is_below W (fst e)
               && P (TPath.extension_of (last (fst e) "")))%bool)
    (s ++ (W, Dir) :: map (extracted_file W) entries)
  = map (extracted_file W)
      (filter (fun e => P (TPath.extension_of (entry_name e))) entries).
Proof.
  intros H. rewrite filter_app.
  rewrite (filter_nothing _ s).
  2:{ intros e He. unfold Loc.is_below. rewrite (H e He).
      cbn [andb]. now rewrite andb_false_r. }
  cbn [Datatypes.app filter snd Store.is_file_node andb].
  induction entries as [| e entries IH]; [reflexivity |].
  cbn [map filter]. rewrite IH.
  unfold extracted_file at 1 2 3. cbn [fst snd Store.is_file_node].
  rewrite is_below_snoc, last_snoc. cbn [andb].
  destruct (P (TPath.extension_of (entry_name e))); reflexivity.
Qed.

(** Files (or entries) sorted by a key, one group per key, are the files
    whose key is among the keys, in another order. *)
Lemma filter_or_permutation {A} (p q : A -> bool) l :
  (forall e, p e = true -> q e = false) ->
  Permutation (filter p l ++ filter q l) (filter (fun e => (p e || q e)%bool) l).
Proof.
  intros Hpq. induction l as [| a l IH]; [constructor |].
  cbn [filter]. destruct (p a) eqn:Ep.
  - rewrite (Hpq a Ep). cbn [orb Datatypes.app]. now constructor.
  - destruct (q a); cbn [orb].
    + apply Permutation_sym. eapply Permutation_trans;
        [| apply Permutation_middle].
      constructor. now apply Permutation_sym.
    + exact IH.
Qed.

Lemma grouped_by_key_permutation {A} (key : A -> string) l keys :
  NoDup keys ->
  Permutation
    (flat_map (fun x => filter (fun e => String.eqb (key e) x) l) keys)
    (filter (fun e => existsb (String.eqb (key e)) keys) l).
Proof.
  induction keys as [| x keys IH]; intros Hnd.
  - cbn [flat_map existsb]. rewrite filter_nothing; [constructor | easy].
  - apply NoDup_cons_iff in Hnd as [Hx Hnd]. cbn [flat_map existsb].
    eapply Permutation_trans;
      [apply Permutation_app_head, (IH Hnd) |].
    apply (filter_or_permutation
             (fun e => String.eqb (key e) x)
             (fun e => existsb (String.eqb (key e)) keys)).
    intros e He. apply String.eqb_eq in He.
    destruct (existsb _ keys) eqn:E; [| reflexivity].
    apply existsb_exists in E as (k & Hk & Hek).
    apply String.eqb_eq in Hek. congruence.
Qed.

Lemma decodes_tick_env w : decodes (tick_env w) = decodes w.
Proof. unfold tick_env. destruct (tick_counts w); reflexivity. Qed.

Section Startup.

Variable mt_output : Z -> nat -> Z.
Variable uniform_int_distribution : Z -> Z -> (nat -> Z) -> Z * nat.

(** What the C++ standard promises of [uniform_int_distribution]: a value
    within the bounds. *)
Hypothesis distribution_in_range :
  forall a b outputs,
    a <= b -> a <= fst (uniform_int_distribution a b outputs) <= b.

Variables (m0 : Machine) (r : string) (G : Loc.t) (leaf : string).
Variable entries : list zip_entry.

Hypothesis workspace_is_fresh : fresh_workspace (constructing m0) r G leaf.
Hypothesis root_is_usable : usable_root r.
Hypothesis archive_is_carried : carries_archive (env m0) entries.
Hypothesis archive_is_flat : flat_archive entries.

Let ma := constructing m0.
Let W := workspace_loc ma G leaf.
Let ws := (r ++ String TPath.backslash (workspace_leaf (tick_reading (env ma))))%string.
Let S := fs (env m0) ++ (W, Dir) :: map (extracted_file W) entries.
Let M1 := mk_machine (this (named_machine ma)) (with_fs (tick_env (env ma)) S).
Let path_of (e : zip_entry) := (ws ++ String TPath.backslash (entry_name e))%string.
Let catalog :=
  flat_map (fun ext => map path_of (filter (entry_with_extension ext) entries))
    image_extensions.

Lemma startup_outside :
  forall e, In e (fs (env m0)) -> Loc.is_prefix W (fst e) = false.
Proof.
  destruct workspace_is_fresh as (_ & _ & _ & H4 & _).
  intros e He. apply H4. unfold constructing. cbn [env].
  now rewrite fs_tick_env.
Qed.

Lemma startup_ws : tempDirectory (this M1) = ws /\ Loc.of_path ws = W.
Proof.
  destruct workspace_is_fresh as (H1 & H2 & _).
  split; [exact (ws_named ma r H1) | exact (ws_at ma r G leaf H2)].
Qed.

Lemma startup_extraction : ExtractResourceAsZip ma = (Returned true, M1).
Proof.
  destruct workspace_is_fresh as (H1 & H2 & H3 & H4 & H5).
  destruct root_is_usable as [Hv _].
  rewrite (ExtractResourceAsZip_archive ma entries)
    by now apply carries_archive_constructing.
  rewrite (flat_run ma r G leaf H1 Hv H2 H3 H4 H5 entries archive_is_flat).
  unfold M1, S. do 3 f_equal.
  unfold ma at 1, constructing. cbn [env]. rewrite fs_tick_env.
  now rewrite <- app_assoc.
Qed.

Lemma startup_present : workspace_present M1 = true.
Proof.
  destruct (ExtractResourceAsZip_reported ma) as (b & m' & Hx & Htrue & _).
  rewrite startup_extraction in Hx. injection Hx as <- <-.
  now apply Htrue.
Qed.

Lemma startup_names e : In e entries -> segment_name (entry_name e).
Proof.
  intros He. destruct archive_is_flat as [Hall _].
  rewrite Forall_forall in Hall. apply (Hall e He).
Qed.

Lemma path_of_reported e :
  segment_name (entry_name e) ->
  reported_path ws (extracted_file W e) = path_of e.
Proof.
  intros Hplain. destruct startup_ws as [_ Hloc].
  destruct workspace_is_fresh as (H1 & H2 & H3 & H4 & H5).
  destruct (ws_shape ma r G leaf H4 H5) as (Hne & Hsep & Hcolon & _).
  unfold reported_path, extracted_file. cbn [fst]. rewrite Hloc.
  rewrite skipn_snoc. cbn [fold_left].
  apply Combine_join; try assumption.
  - apply Hplain.
  - now apply plain_not_rooted.
Qed.

Lemma startup_catalog :
  flat_map (TDirectory.files_below S ws) extensions = catalog.
Proof.
  destruct startup_ws as [_ Hloc].
  rewrite scan_by_extension, Hloc. unfold catalog.
  apply flat_map_ext. intros ext.
  assert (E : filter (file_with_extension W ext) S
              = map (extracted_file W)
                  (filter (entry_with_extension ext) entries))
    by exact (filter_extracted W _ entries (fun x => String.eqb x ext)
                startup_outside).
  rewrite E, map_map. apply map_ext_in. intros e He.
  apply path_of_reported.
  apply filter_In in He as [He _]. now apply startup_names.
Qed.

Lemma startup_scan :
  LoadFlagImages M1
  = (Returned tt, mk_machine (with_flagFiles (this M1) catalog) (env M1)).
Proof.
  rewrite (LoadFlagImages_present M1 startup_present).
  destruct startup_ws as [Htd _]. rewrite Htd.
  change (fs (env M1)) with S. now rewrite startup_catalog.
Qed.

(** The catalog holds the paths of the entries with a catalogued
    extension. *)
Lemma startup_permutation :
  Permutation catalog (map path_of (filter image_entry entries)).
Proof.
  unfold catalog. rewrite flat_map_of_map. apply Permutation_map.
  apply (grouped_by_key_permutation
           (fun e => TPath.extension_of (entry_name e)) entries
           image_extensions).
  unfold image_extensions.
  repeat (constructor; [cbn; intuition discriminate |]). constructor.
Qed.

Lemma startup_member f :
  In f catalog ->
  exists e,
    In e entries /\ image_entry e = true /\ f = path_of e
    /\ Store.lookup S (Loc.of_path f) = Some (File (entry_bytes e)).
Proof.
  intros Hin. unfold catalog in Hin.
  apply in_flat_map in Hin as (ext & Hext & Hin).
  apply in_map_iff in Hin as (e & <- & He).
  apply filter_In in He as [He Hx].
  exists e. split; [exact He |]. split.
  { unfold image_entry. apply existsb_exists. exists ext. now split. }
  split; [reflexivity |].
  destruct archive_is_flat as [_ Hnd].
  pose proof (startup_names e He) as Hplain.
  destruct startup_ws as [_ Hloc].
  unfold path_of. rewrite of_path_plain by (reflexivity || exact Hplain).
  rewrite Hloc. unfold S.
  replace (fs (env m0) ++ (W, Dir) :: map (extracted_file W) entries)
    with ((fs (env m0) ++ [(W, Dir)]) ++ map (extracted_file W) entries)
    by (now rewrite <- app_assoc).
  rewrite lookup_app.
  assert (Hs1 : Store.lookup (fs (env m0) ++ [(W, Dir)]) (W ++ [entry_name e])
                = None).
  { rewrite lookup_app.
    rewrite (lookup_none_below W _ _ startup_outside)
      by apply is_prefix_app.
    unfold Store.lookup. cbn [find fst]. now rewrite loc_eqb_longer. }
  rewrite Hs1. exact (lookup_extracted W entries e Hnd He).
Qed.

(** Whether the file of an entry can be loaded is a matter of the entry's
    name and bytes. *)
Lemma startup_loads e (this' : TForm1) :
  In e entries ->
  Store.lookup S (Loc.of_path (path_of e)) = Some (File (entry_bytes e)) ->
  can_load (env M1) (path_of e) = entry_loads (env m0) e.
Proof.
  intros He Hfile. unfold can_load, entry_loads, graphic_extension, path_of.
  destruct (startup_names e He) as (_ & Hsep & _).
  rewrite GetFileName_join by (reflexivity || exact Hsep).
  change (fs (env M1)) with S. fold (path_of e). rewrite Hfile.
  unfold M1. cbn [env decodes with_fs]. rewrite decodes_tick_env.
  unfold ma, constructing. cbn [env]. now rewrite decodes_tick_env.
Qed.

Lemma startup_result :
  let images := filter image_entry entries in
  let N := Z.of_nat (length images) in
  let m1 := snd (TForm1_create mt_output uniform_int_distribution m0) in
  fst (TForm1_create mt_output uniform_int_distribution m0) = Returned tt
  /\ tempDirectory (this m1) = ws
  /\ fs (env m1) = S
  /\ Permutation (flagFiles (this m1)) (map path_of images)
  /\ mt_seed (randomGenerator (this m1)) = tick_reading (env m0)
  /\ (images = [] ->
      LabelStatus_Caption (this m1) = "Status: No image files found"
      /\ LabelStatus_Font_Color (this m1) = clRed
      /\ shown (env m1) = shown (env m0))
  /\ (images <> [] ->
      exists e,
        In e images
        /\ LabelStatus_Font_Color (this m1) = LabelStatus_Font_Color (this m0)
        /\ (entry_loads (env m0) e = true ->
            ImageFlag_Picture (this m1) = Some (path_of e)
            /\ LabelFlagName_Caption (this m1)
               = ("Flag: " ++ TPath.strip_extension (entry_name e))%string
            /\ (exists k,
                  1 <= k <= N
                  /\ LabelStatus_Caption (this m1)
                     = ("Status: Displaying " ++ IntToStr k ++ "/"
                        ++ IntToStr N ++ " flag")%string)
            /\ shown (env m1) = shown (env m0))
        /\ (entry_loads (env m0) e = false ->
            ImageFlag_Picture (this m1) = ImageFlag_Picture (this m0)
            /\ LabelFlagName_Caption (this m1) = "Image loading failed"
            /\ LabelStatus_Caption (this m1)
               = ("Status: Successfully loaded " ++ IntToStr N
                  ++ " flag images")%string
            /\ exists reason,
                 shown (env m1)
                 = shown (env m0)
                   ++ [("Error displaying image: " ++ reason)%string])).
Proof.
  intros images N m1. subst m1.
  pose proof startup_permutation as Hperm. fold images in Hperm.
  assert (Hcount : length catalog = length images).
  { rewrite (Permutation_length Hperm). apply length_map. }
  destruct startup_ws as [Htd _].
  assert (Hshown : shown (env M1) = shown (env m0)).
  { unfold M1. cbn [env shown with_fs]. rewrite shown_tick_env.
    unfold ma, constructing. cbn [env]. apply shown_tick_env. }
  pose (mpre := mk_machine
                  (with_tempDirectory
                     (with_randomGenerator (this m0)
                        (mk_mt (tick_reading (env m0)) 0)) "")
                  (tick_env (env m0))).
  assert (Hx : ExtractResourceAsZip (extracting mpre) = (Returned true, M1))
    by exact startup_extraction.
  rewrite (TForm1_create_unfold mt_output uniform_int_distribution m0).
  fold mpre.
  pose proof startup_scan as Hscan. pose proof startup_member as Hmember.
  revert Hperm Hcount Hscan Hmember.
  generalize catalog. intros cat Hperm Hcount Hscan Hmember.
  destruct cat as [| c0 rest].
  - rewrite (InitializeApplication_empty mt_output uniform_int_distribution
               mpre M1 [] Hx Hscan eq_refl).
    cbn [fst snd this env flagFiles tempDirectory randomGenerator
         LabelStatus_Caption LabelStatus_Font_Color with_Status
         with_Status_Color with_flagFiles].
    assert (Hnone : images = [])
      by (destruct images; [reflexivity | discriminate]).
    split; [reflexivity |]. split; [exact Htd |]. split; [reflexivity |].
    split; [exact Hperm |]. split; [reflexivity |].
    split; [intros _; repeat split; exact Hshown | congruence].
  - rewrite (InitializeApplication_loaded mt_output uniform_int_distribution
               mpre M1 (c0 :: rest) Hx Hscan) by discriminate.
    set (M2 := mk_machine
                 (with_Status (with_flagFiles (this M1) (c0 :: rest))
                    ("Status: Successfully loaded "
                     ++ IntToStr (Z.of_nat (length (c0 :: rest)))
                     ++ " flag images"))
                 (env M1)).
    assert (Hne : flagFiles (this M2) <> []) by discriminate.
    destruct (ShowRandomFlag_run mt_output uniform_int_distribution
                distribution_in_range M2 Hne)
      as (index & used & Hrange & Hin & Hrun).
    cbv zeta in Hin, Hrun.
    change (flagFiles (this M2)) with (c0 :: rest) in Hrange, Hin, Hrun.
    set (f := nth (Z.to_nat index) (c0 :: rest) "") in *.
    destruct (Hmember f Hin) as (e & He & Himg & Hf & Hfile).
    assert (Hload : can_load (env M2) f = entry_loads (env m0) e).
    { rewrite Hf. rewrite Hf in Hfile.
      exact (startup_loads e (this M2) He Hfile). }
    assert (HN : Z.of_nat (length (c0 :: rest)) = N)
      by (unfold N; now rewrite <- Hcount).
    rewrite Hload, HN in Hrun. rewrite Hrun.
    split; [now destruct (entry_loads (env m0) e) |].
    split; [destruct (entry_loads (env m0) e); exact Htd |].
    split; [now destruct (entry_loads (env m0) e) |].
    split; [destruct (entry_loads (env m0) e); exact Hperm |].
    split; [now destruct (entry_loads (env m0) e) |].
    split.
    { intros Hnone. rewrite Hnone in Hcount. discriminate. }
    intros _. exists e.
    split; [apply filter_In; now split |].
    split; [now destruct (entry_loads (env m0) e) |].
    destruct (entry_loads (env m0) e); split; intros Hl; try discriminate.
    + cbn [fst snd this env flagFiles tempDirectory randomGenerator mt_seed
           LabelStatus_Caption LabelStatus_Font_Color LabelFlagName_Caption
           ImageFlag_Picture with_Status with_FlagName with_Picture
           with_randomGenerator with_flagFiles fs with_fs].
      split; [now rewrite Hf |].
      split.
      { rewrite Hf. unfold TPath.GetFileNameWithoutExtension, path_of.
        rewrite GetFileName_join; [reflexivity | reflexivity |].
        apply (startup_names e He). }
      split; [| exact Hshown].
      exists (index + 1). split; [| reflexivity].
      rewrite HN in Hrange. lia.
    + cbn [fst snd this env flagFiles tempDirectory randomGenerator mt_seed
           LabelStatus_Caption LabelStatus_Font_Color LabelFlagName_Caption
           ImageFlag_Picture with_Status with_FlagName with_Picture
           with_randomGenerator with_flagFiles fs with_fs shown with_shown].
      split; [reflexivity |]. split; [reflexivity |].
      split.
      { unfold M2. cbn [this LabelStatus_Caption with_Status]. now rewrite HN. }
      eexists. change (env M2) with (env M1). now rewrite Hshown.
Qed.

End Startup.



(** ** Pressing the button on a catalog that can be shown *)

Section Presses.

Variable mt_output : Z -> nat -> Z.
Variable uniform_int_distribution : Z -> Z -> (nat -> Z) -> Z * nat.

(** What the C++ standard promises of [uniform_int_distribution]: a value
    within the bounds. *)
Hypothesis distribution_in_range :
  forall a b outputs,
    a <= b -> a <= fst (uniform_int_distribution a b outputs) <= b.

Let ButtonRandomClick' := ButtonRandomClick mt_output uniform_int_distribution.
Let press' := press mt_output uniform_int_distribution.

(** One press: the environment and the catalog are as before, and one of
    the catalogued files is shown. *)
Lemma click_on_disk m :
  catalog_on_disk m ->
  exists m1 f k,
    ButtonRandomClick' m = (Returned tt, m1)
    /\ env m1 = env m
    /\ flagFiles (this m1) = flagFiles (this m)
    /\ In f (flagFiles (this m))
    /\ 1 <= k <= Z.of_nat (length (flagFiles (this m)))
    /\ nth (Z.to_nat (k - 1)) (flagFiles (this m)) "" = f
    /\ displays m1 f k (Z.of_nat (length (flagFiles (this m)))).
Proof.
  intros [Hne Hfiles].
  set (mb := mk_machine
               (with_Status
                  (with_FlagName (with_Picture (this m) None) "Loading...")
                  "Status: Refreshing...")
               (env m)).
  assert (Hclick : ButtonRandomClick' m
                   = ShowRandomFlag mt_output uniform_int_distribution mb)
    by reflexivity.
  assert (Hfl : flagFiles (this mb) = flagFiles (this m)) by reflexivity.
  assert (Hneb : flagFiles (this mb) <> []) by (rewrite Hfl; exact Hne).
  destruct (ShowRandomFlag_run mt_output uniform_int_distribution
              distribution_in_range mb Hneb)
    as (index & used & Hrange & Hin & Hrun).
  cbv zeta in Hin, Hrun. rewrite Hfl in Hrange, Hin, Hrun.
  set (f := nth (Z.to_nat index) (flagFiles (this m)) "") in *.
  change (env mb) with (env m) in Hrun.
  rewrite (Hfiles f Hin) in Hrun.
  eexists. exists f, (index + 1).
  split; [rewrite Hclick; exact Hrun |].
  cbn [this env flagFiles with_Status with_FlagName with_Picture
       with_randomGenerator].
  split; [reflexivity |]. split; [reflexivity |]. split; [exact Hin |].
  split; [lia |].
  split; [subst f; f_equal; f_equal; lia |].
  repeat split.
Qed.

(** X14.  When the catalog is not empty and every catalogued file can be
    loaded as a picture (a graphic class is registered for its extension,
    the file exists and the class decodes it), each press of the button ends
    with one of the catalogued files shown: after any number of presses, at
    least one, the handler has
    returned normally, the catalog is as it was, no message has been shown,
    the picture is the file at some position [k] of the catalog, the
    caption is "Flag: " followed by its name without directory and
    extension, and the status is "Status: Displaying k/N flag". *)
Theorem every_press_shows_a_catalogued_file (clicks : nat) (m : Machine) :
  catalog_on_disk m ->
  let done := press' (S clicks) m in
  let N := Z.of_nat (length (flagFiles (this m))) in
  fst done = Returned tt
  /\ flagFiles (this (snd done)) = flagFiles (this m)
  /\ shown (env (snd done)) = shown (env m)
  /\ exists f k,
       In f (flagFiles (this m))
       /\ 1 <= k <= N
       /\ nth (Z.to_nat (k - 1)) (flagFiles (this m)) "" = f
       /\ displays (snd done) f k N.
Proof.
  revert m. induction clicks as [| n IH]; intros m Hdisk done N; subst done N.
  - destruct (click_on_disk m Hdisk)
      as (m1 & f & k & Hrun & Henv & Hfl & Hin & Hk & Hnth & Hshow).
    unfold press'. cbn [press]. fold ButtonRandomClick'.
    rewrite (bind_returned _ _ _ _ _ Hrun). cbn [ret fst snd].
    split; [reflexivity |]. split; [exact Hfl |].
    split; [now rewrite Henv |]. now exists f, k.
  - destruct (click_on_disk m Hdisk)
      as (m1 & f & k & Hrun & Henv & Hfl & _).
    assert (Hdisk1 : catalog_on_disk m1).
    { destruct Hdisk as [Hne Hfiles]. split; [now rewrite Hfl |].
      intros x Hx. rewrite Henv. apply Hfiles. now rewrite <- Hfl. }
    specialize (IH m1 Hdisk1). cbv zeta in IH.
    rewrite Hfl, Henv in IH.
    replace (press' (S (S n)) m) with (press' (S n) m1); [exact IH |].
    unfold press'.
    change (press mt_output uniform_int_distribution (S (S n)))
      with (ButtonRandomClick' ;; press mt_output uniform_int_distribution (S n)).
    now rewrite (bind_returned _ _ _ _ _ Hrun).
Qed.

End Presses.

(** X14 exercised with the sample library: two files, three presses. *)
Lemma every_press_shows_a_catalogued_file_witness :
  let m := Sample.scanning_machine Sample.three_files
             ["C:\Temp\ws\a.png"; "C:\Temp\ws\b.PNG"] in
  let done := press Sample.lcg_output Sample.one_draw 3 m in
  let N := Z.of_nat (length (flagFiles (this m))) in
  fst done = Returned tt
  /\ flagFiles (this (snd done)) = flagFiles (this m)
  /\ shown (env (snd done)) = shown (env m)
  /\ exists f k,
       In f (flagFiles (this m))
       /\ 1 <= k <= N
       /\ nth (Z.to_nat (k - 1)) (flagFiles (this m)) "" = f
       /\ displays (snd done) f k N.
Proof.
  intros m.
  apply (every_press_shows_a_catalogued_file Sample.lcg_output Sample.one_draw
           one_draw_in_range 2 m).
  split; [discriminate |].
  intros f [<- | [<- | []]]; reflexivity.
Defined.

(** ** The scan, whatever the state *)

Lemma LoadFlagImages_run m :
  LoadFlagImages m
  = (Returned tt,
     mk_machine
       (with_flagFiles (this m)
          (if workspace_present m
           then flat_map
                  (TDirectory.files_below (fs (env m)) (tempDirectory (this m)))
                  extensions
           else []))
       (env m)).
Proof.
  destruct (workspace_present m) eqn:Hp.
  - now apply LoadFlagImages_present.
  - apply LoadFlagImages_without_directory_gen.
    unfold workspace_present in Hp.
    destruct (tempDirectory (this m)); [now left | right]. exact Hp.
Qed.

(** X15.  [LoadFlagImages] always returns normally, leaves the environment
    alone and changes no field of the form but the catalog.  The catalog it
    builds does not depend on the catalog it finds, and a second scan right
    after the first changes nothing. *)
Theorem LoadFlagImages_changes_the_catalog_only (m : Machine) :
  let done := LoadFlagImages m in
  fst done = Returned tt
  /\ env (snd done) = env m
  /\ with_flagFiles (this (snd done)) (flagFiles (this m)) = this m
  /\ (forall previous,
        flagFiles
          (this (snd (LoadFlagImages
                        (mk_machine (with_flagFiles (this m) previous) (env m)))))
        = flagFiles (this (snd done)))
  /\ LoadFlagImages (snd done) = done.
Proof.
  intros done. subst done. rewrite (LoadFlagImages_run m).
  cbn [fst snd this env].
  split; [reflexivity |]. split; [reflexivity |].
  split; [destruct (this m); reflexivity |].
  split.
  - intros previous. rewrite LoadFlagImages_run. reflexivity.
  - rewrite LoadFlagImages_run. reflexivity.
Qed.

(** ** What the constructor can end with *)

Section Construction.

Variable mt_output : Z -> nat -> Z.
Variable uniform_int_distribution : Z -> Z -> (nat -> Z) -> Z * nat.

(** What the C++ standard promises of [uniform_int_distribution]: a value
    within the bounds. *)
Hypothesis distribution_in_range :
  forall a b outputs,
    a <= b -> a <= fst (uniform_int_distribution a b outputs) <= b.

Let TForm1_create' := TForm1_create mt_output uniform_int_distribution.

(** X16.  The constructor never lets an exception escape and seeds the
    generator with the tick count.  It ends in one of three ways.  The
    extraction failed: the status is "Status: Resource extraction failed",
    in red, and one message was shown.  The extraction succeeded but the
    scan found nothing: the status is "Status: No image files found", in
    red, the catalog is empty, nothing was shown, and the workspace exists.
    Or the catalog is not empty, the status line keeps its colour and the
    workspace exists; then either one of the catalogued files is shown,
    with its position in the status line and without a message, or that
    file could not be loaded: one message was shown, the caption is "Image
    loading failed" and the status still reads "Status: Successfully loaded
    N flag images". *)
Theorem TForm1_create_outcome (m0 : Machine) :
  let done := TForm1_create' m0 in
  let m1 := snd done in
  let N := Z.of_nat (length (flagFiles (this m1))) in
  fst done = Returned tt
  /\ mt_seed (randomGenerator (this m1)) = tick_reading (env m0)
  /\ ((LabelStatus_Caption (this m1) = "Status: Resource extraction failed"
       /\ LabelStatus_Font_Color (this m1) = clRed
       /\ exists text, shown (env m1) = shown (env m0) ++ [text])
      \/ (LabelStatus_Caption (this m1) = "Status: No image files found"
          /\ LabelStatus_Font_Color (this m1) = clRed
          /\ flagFiles (this m1) = []
          /\ shown (env m1) = shown (env m0)
          /\ workspace_present m1 = true)
      \/ (flagFiles (this m1) <> []
          /\ LabelStatus_Font_Color (this m1) = LabelStatus_Font_Color (this m0)
          /\ workspace_present m1 = true
          /\ exists f k,
               In f (flagFiles (this m1))
               /\ 1 <= k <= N
               /\ ((displays m1 f k N /\ shown (env m1) = shown (env m0))
                   \/ (LabelFlagName_Caption (this m1) = "Image loading failed"
                       /\ LabelStatus_Caption (this m1)
                          = ("Status: Successfully loaded " ++ IntToStr N
                             ++ " flag images")%string
                       /\ exists text,
                            shown (env m1) = shown (env m0) ++ [text])))).
Proof.
  intros done m1 N. subst N m1 done. unfold TForm1_create'.
  rewrite (TForm1_create_unfold mt_output uniform_int_distribution m0).
  set (mpre := mk_machine
                 (with_tempDirectory
                    (with_randomGenerator (this m0)
                       (mk_mt (tick_reading (env m0)) 0)) "")
                 (tick_env (env m0))).
  assert (Hshown0 : shown (env (extracting mpre)) = shown (env m0))
    by apply shown_tick_env.
  destruct (ExtractResourceAsZip_reported (extracting mpre))
    as (b & M1 & Hx & Htrue & Hfalse).
  pose proof (ExtractResourceAsZip_form (extracting mpre)) as Hform.
  rewrite Hx in Hform. cbn [snd] in Hform.
  rewrite Hshown0 in Htrue, Hfalse.
  destruct b.
  - destruct (Htrue eq_refl) as [Hs Hp]. clear Htrue Hfalse.
    pose proof (LoadFlagImages_run M1) as Hl. rewrite Hp in Hl.
    set (l := flat_map _ extensions) in Hl.
    destruct l as [| c0 rest] eqn:El.
    + rewrite (InitializeApplication_empty mt_output uniform_int_distribution
                 mpre M1 [] Hx Hl eq_refl).
      cbn [fst snd this env]. rewrite Hform.
      split; [reflexivity |]. split; [reflexivity |].
      right; left. repeat split; assumption.
    + rewrite (InitializeApplication_loaded mt_output uniform_int_distribution
                 mpre M1 (c0 :: rest) Hx Hl) by discriminate.
      set (M2 := mk_machine
                   (with_Status (with_flagFiles (this M1) (c0 :: rest))
                      ("Status: Successfully loaded "
                       ++ IntToStr (Z.of_nat (length (c0 :: rest)))
                       ++ " flag images"))
                   (env M1)).
      assert (Hne : flagFiles (this M2) <> []) by discriminate.
      destruct (ShowRandomFlag_run mt_output uniform_int_distribution
                  distribution_in_range M2 Hne)
        as (index & used & Hrange & Hin & Hrun).
      cbv zeta in Hin, Hrun.
      change (flagFiles (this M2)) with (c0 :: rest) in Hrange, Hin, Hrun.
      set (f := nth (Z.to_nat index) (c0 :: rest) "") in *.
      rewrite Hrun.
      destruct (can_load (env M2) f).
      * cbn [fst snd this env]. unfold M2. cbn [this env]. rewrite Hform.
        split; [reflexivity |]. split; [reflexivity |].
        right; right.
        split; [discriminate |]. split; [reflexivity |].
        split; [exact Hp |].
        exists f, (index + 1). split; [exact Hin |].
        split; [cbn [flagFiles with_Status with_FlagName with_Picture
                       with_randomGenerator with_flagFiles with_tempDirectory];
                lia |].
        left. split; [| exact Hs]. repeat split.
      * cbn [fst snd this env]. unfold M2. cbn [this env]. rewrite Hform.
        split; [reflexivity |]. split; [reflexivity |].
        right; right.
        split; [discriminate |]. split; [reflexivity |].
        split.
        { unfold workspace_present in *. cbn [this env fs with_shown]. exact Hp. }
        exists f, (index + 1). split; [exact Hin |].
        split; [cbn [flagFiles with_Status with_FlagName with_Picture
                       with_randomGenerator with_flagFiles with_tempDirectory];
                lia |].
        right. split; [reflexivity |]. split; [reflexivity |].
        eexists. cbn [shown with_shown]. now rewrite Hs.
  - destruct (Hfalse eq_refl) as [text Hs]. clear Htrue Hfalse.
    rewrite (InitializeApplication_failed mt_output uniform_int_distribution
               mpre M1 Hx).
    cbn [fst snd this env]. rewrite Hform.
    split; [reflexivity |]. split; [reflexivity |].
    left. split; [reflexivity |]. split; [reflexivity |]. now exists text.
Qed.

End Construction.

(** X16 exercised with the sample library on an executable without any
    resource. *)
Lemma TForm1_create_outcome_witness :
  let done := TForm1_create Sample.lcg_output Sample.one_draw
                (Sample.machine [7; 1000] []) in
  let m0 := Sample.machine [7; 1000] [] in
  let m1 := snd done in
  let N := Z.of_nat (length (flagFiles (this m1))) in
  fst done = Returned tt
  /\ mt_seed (randomGenerator (this m1)) = tick_reading (env m0)
  /\ ((LabelStatus_Caption (this m1) = "Status: Resource extraction failed"
       /\ LabelStatus_Font_Color (this m1) = clRed
       /\ exists text, shown (env m1) = shown (env m0) ++ [text])
      \/ (LabelStatus_Caption (this m1) = "Status: No image files found"
          /\ LabelStatus_Font_Color (this m1) = clRed
          /\ flagFiles (this m1) = []
          /\ shown (env m1) = shown (env m0)
          /\ workspace_present m1 = true)
      \/ (flagFiles (this m1) <> []
          /\ LabelStatus_Font_Color (this m1) = LabelStatus_Font_Color (this m0)
          /\ workspace_present m1 = true
          /\ exists f k,
               In f (flagFiles (this m1))
               /\ 1 <= k <= N
               /\ ((displays m1 f k N /\ shown (env m1) = shown (env m0))
                   \/ (LabelFlagName_Caption (this m1) = "Image loading failed"
                       /\ LabelStatus_Caption (this m1)
                          = ("Status: Successfully loaded " ++ IntToStr N
                             ++ " flag images")%string
                       /\ exists text,
                            shown (env m1) = shown (env m0) ++ [text])))).
Proof.
  exact (TForm1_create_outcome Sample.lcg_output Sample.one_draw
           one_draw_in_range (Sample.machine [7; 1000] [])).
Defined.

(** ** What the cleanup does not find *)

Lemma CleanupTempFiles_returns m : fst (CleanupTempFiles m) = Returned tt.
Proof.
  destruct (workspace_present m) eqn:Hp.
  - rewrite (CleanupTempFiles_present m Hp). unfold try_catch.
    pose proof (Delete_present m Hp) as Hd. cbv zeta in Hd. rewrite Hd.
    destruct (Store.holds_guarded _ _ _); reflexivity.
  - now rewrite (CleanupTempFiles_absent m Hp).
Qed.

(** X17.  A file that the extraction wrote outside the workspace is never
    cleaned up.  After an archive whose entry is named [..\n], for a plain
    name [n], has been extracted, the workspace exists and the file lies
    above the temporary files root; [CleanupTempFiles] returns normally,
    and afterwards the workspace is gone (unless something in it refuses
    removal) while the file above the root is still there with the entry's
    bytes. *)
Theorem escaped_file_survives_cleanup
    (m : Machine) (r : string) (G : Loc.t) (leaf n : string)
    (data : list Byte.byte) :
  open_above m r G leaf n ->
  let name := String "." (String "." (String TPath.backslash n)) in
  let m1 := snd (ExtractZipToTemp (ZipArchive [mk_entry name (Stored data)]) m) in
  let done := CleanupTempFiles m1 in
  workspace_present m1 = true
  /\ Loc.of_path (tempDirectory (this m1)) = workspace_loc m G leaf
  /\ fst done = Returned tt
  /\ (Store.holds_guarded (guarded_locs (env m1)) (workspace_loc m G leaf)
        (fs (env m1)) = false ->
      Store.is_dir (fs (env (snd done))) (workspace_loc m G leaf) = false)
  /\ Store.lookup (fs (env (snd done))) (G ++ [n]) = Some (File data).
Proof.
  intros (H1 & [Hv _] & H2 & H3 & H4 & H5 & H6 & H7 & H8 & H9 & [H10 _])
    name m1 done.
  unfold workspace_loc in *.
  destruct (dotdot_entry_lands_above m r G leaf n data
              H1 Hv H2 H3 H4 H5 H6 H7 H8 H9 H10)
    as (_ & Hret & _ & Hws & Hfile & Hout).
  fold name in Hret, Hws, Hfile, Hout. fold m1 in Hws, Hfile, Hout.
  assert (Hp : workspace_present m1 = true).
  { apply (ExtractZipToTemp_true (ZipArchive [mk_entry name (Stored data)]) m).
    subst m1. destruct (ExtractZipToTemp _ m) as [o m']. cbn [fst snd] in *.
    now rewrite Hret. }
  split; [exact Hp |]. split; [exact Hws |].
  split; [apply CleanupTempFiles_returns |].
  pose proof (CleanupTempFiles_fs m1) as Hfs. cbv zeta in Hfs.
  fold done in Hfs. rewrite Hp, Hws in Hfs. rewrite Hws in Hout.
  rewrite Hfs. destruct (Store.holds_guarded _ _ _) eqn:E; split.
  - discriminate.
  - rewrite lookup_remove_files_outside; [exact Hfile | exact Hout].
  - intros _. apply is_dir_remove_tree.
  - rewrite lookup_remove_tree_outside; [exact Hfile | exact Hout].
Qed.

(** X17 exercised: [..\evil.txt] on the sample disk. *)
Lemma escaped_file_survives_cleanup_witness :
  let m := Sample.machine [1000] [] in
  let name := String "." (String "." (String TPath.backslash "evil.txt")) in
  let m1 :=
    snd (ExtractZipToTemp (ZipArchive [mk_entry name (Stored Sample.payload)]) m) in
  let done := CleanupTempFiles m1 in
  workspace_present m1 = true
  /\ Loc.of_path (tempDirectory (this m1)) = workspace_loc m ["C:"] "Temp"
  /\ fst done = Returned tt
  /\ (Store.holds_guarded (guarded_locs (env m1)) (workspace_loc m ["C:"] "Temp")
        (fs (env m1)) = false ->
      Store.is_dir (fs (env (snd done))) (workspace_loc m ["C:"] "Temp") = false)
  /\ Store.lookup (fs (env (snd done))) (["C:"] ++ ["evil.txt"])
     = Some (File Sample.payload).
Proof.
  intros m.
  apply (escaped_file_survives_cleanup m "C:\Temp" ["C:"] "Temp" "evil.txt"
           Sample.payload).
  unfold open_above. split; [reflexivity |].
  split; [apply sample_usable_root |]. split; [reflexivity |].
  split; [reflexivity |]. split.
  { intros k Hk. cbn in Hk. destruct k as [| [| [| k]]]; try lia; reflexivity. }
  repeat (split; [reflexivity |]). given_name.
Defined.

(** ** An entry in a subdirectory, in general *)

Lemma rooted_join d c n :
  segment_name d -> TPath.is_sep c = true ->
  TPath.IsPathRooted (d ++ String c n) = false.
Proof.
  intros (Hne & H & _) Hc. unfold is_sep_or_colon in H.
  destruct d as [| a [| b d]]; [discriminate | |];
    cbn [String.append TPath.IsPathRooted Str.contains_char] in *.
  - rewrite orb_false_r in H. apply orb_false_iff in H as [Ha _].
    rewrite Ha. cbn [orb].
    unfold TPath.is_sep in Hc.
    destruct (Ascii.eqb c TPath.colon) eqn:E; [| reflexivity].
    apply Ascii.eqb_eq in E. subst c. discriminate.
  - apply orb_false_iff in H as [Ha Hb].
    apply orb_false_iff in Ha as [Ha _].
    apply orb_false_iff in Hb as [Hb _].
    apply orb_false_iff in Hb as [_ Hb]. now rewrite Ha, Hb.
Qed.

Lemma replace_join d c n :
  Str.contains_char TPath.is_sep d = false ->
  Str.contains_char TPath.is_sep n = false ->
  TPath.is_sep c = true ->
  Str.replace_char TPath.slash TPath.backslash (d ++ String c n)
  = (d ++ String TPath.backslash n)%string.
Proof.
  intros Hd Hn Hc. induction d as [| a d IH].
  - cbn [String.append Str.replace_char]. rewrite (replace_slash_none n Hn).
    f_equal. unfold TPath.is_sep in Hc.
    destruct (Ascii.eqb c TPath.slash) eqn:E; [reflexivity |].
    rewrite orb_false_r in Hc. now apply Ascii.eqb_eq in Hc.
  - cbn [String.append Str.replace_char Str.contains_char] in *.
    apply orb_false_iff in Hd as [Ha Hd]. rewrite (IH Hd).
    unfold TPath.is_sep in Ha. apply orb_false_iff in Ha as [_ Ha].
    now rewrite Ha.
Qed.

Lemma plain_last d :
  segment_name d ->
  exists y, Str.last_char d = Some y /\ is_sep_or_colon y = false.
Proof.
  intros (Hne & H & _). destruct (last_char_some d Hne) as [y Hy].
  exists y. split; [exact Hy |]. exact (last_char_not _ _ _ H Hy).
Qed.

(** A path that ends with a plain name. *)
Lemma join_shape x d :
  segment_name d ->
  let xd := (x ++ String TPath.backslash d)%string in
  Str.is_empty xd = false
  /\ TPath.ends_with_sep xd = false
  /\ TPath.ends_with_colon xd = false
  /\ exists y, Str.last_char xd = Some y /\ SysUtils.is_delim y = false.
Proof.
  intros Hd xd. destruct (plain_last d Hd) as (y & Hy & Hp).
  assert (Hlast : Str.last_char xd = Some y).
  { unfold xd. rewrite last_char_app.
    destruct Hd as (Hne & _). destruct d; [discriminate | exact Hy]. }
  unfold is_sep_or_colon, TPath.is_sep in Hp.
  apply orb_false_iff in Hp as [Hsep Hcolon].
  pose proof Hsep as Hsep'. apply orb_false_iff in Hsep' as [Hback _].
  split; [apply is_empty_app |].
  unfold TPath.ends_with_sep, TPath.ends_with_colon. rewrite Hlast.
  split; [exact Hsep |]. split; [exact Hcolon |].
  exists y. split; [reflexivity |].
  unfold SysUtils.is_delim. now rewrite Hback, Hcolon.
Qed.

Lemma is_below_app p l : l <> [] -> Loc.is_below p (p ++ l) = true.
Proof.
  intros Hl. unfold Loc.is_below. rewrite is_prefix_app.
  destruct (Loc.eqb p (p ++ l)) eqn:E; [| reflexivity].
  apply loc_eqb_length in E. rewrite length_app in E.
  destruct l; [congruence | cbn in E; lia].
Qed.

Lemma skipn_exact {A} (p l : list A) : skipn (length p) (p ++ l) = l.
Proof. now rewrite skipn_app, skipn_all, Nat.sub_diag. Qed.

Section Nested.

Variables (m : Machine) (r : string) (G : Loc.t) (leaf : string).
Variables (d n : string) (c : ascii) (data : list Byte.byte).

Let w := env m.
Let wsname := workspace_leaf (tick_reading w).
Let ws := (r ++ String TPath.backslash wsname)%string.
Let W := G ++ [leaf; wsname].

Hypothesis workspace_is_fresh : fresh_workspace m r G leaf.
Hypothesis root_is_valid : TPath.HasValidPathChars r = true.
Hypothesis d_plain : segment_name d.
Hypothesis n_plain : segment_name n.
Hypothesis c_sep : TPath.is_sep c = true.

Let name := (d ++ String c n)%string.
Let wd := (ws ++ String TPath.backslash d)%string.
Let wdd := (wd ++ String TPath.backslash d)%string.
Let s1 := fs w ++ [(W, Dir)].
Let s2 := s1 ++ [(W ++ [d], Dir)].
Let s3 := s2 ++ [((W ++ [d]) ++ [d], Dir)].
Let s4 := s3 ++ [(((W ++ [d]) ++ [d]) ++ [n], File data)].
Let M_of (s : store) :=
  mk_machine (this (named_machine m)) (with_fs (tick_env w) s).

Lemma nested_free p :
  Loc.is_prefix W p = true -> Store.guarded (guarded_locs w) p = false.
Proof. destruct workspace_is_fresh as (_ & _ & _ & _ & H5). apply H5. Qed.

Lemma nested_s1_below l :
  l <> [] -> Store.lookup s1 (W ++ l) = None.
Proof.
  intros Hl. destruct workspace_is_fresh as (_ & _ & _ & H4 & _).
  unfold s1. rewrite lookup_app.
  rewrite (lookup_none_below W (fs w) (W ++ l) H4) by apply is_prefix_app.
  unfold Store.lookup. cbn [find fst].
  destruct (Loc.eqb W (W ++ l)) eqn:E; [| reflexivity].
  apply loc_eqb_length in E. rewrite length_app in E.
  destruct l; [congruence | cbn in E; lia].
Qed.

Lemma nested_paths :
  TPath.Combine ws name = (wd ++ String c n)%string
  /\ TPath.GetDirectoryName (wd ++ String c n) = wd
  /\ TPath.Combine wd (Str.replace_char TPath.slash TPath.backslash name)
     = (wdd ++ String TPath.backslash n)%string
  /\ SysUtils.ExtractFileDir (wdd ++ String TPath.backslash n) = wdd
  /\ Loc.of_path wd = W ++ [d]
  /\ Loc.of_path wdd = (W ++ [d]) ++ [d]
  /\ Loc.of_path (wdd ++ String TPath.backslash n) = ((W ++ [d]) ++ [d]) ++ [n].
Proof.
  destruct workspace_is_fresh as (H1 & H2 & H3 & H4 & H5).
  destruct (ws_shape m r G leaf H4 H5) as (Hne & Hsep & Hcolon & _).
  destruct (join_shape ws d d_plain) as (Hne1 & Hsep1 & Hcolon1 & _).
  destruct (join_shape wd d d_plain) as (_ & _ & _ & y & Hy & Hyd).
  fold wd in Hne1, Hsep1, Hcolon1. fold wdd in Hy.
  pose proof d_plain as (_ & Hd & _). pose proof n_plain as (_ & Hn & _).
  assert (Hloc1 : Loc.of_path wd = W ++ [d]).
  { pose proof (ws_at m r G leaf H2) as Hat.
    change (Loc.of_path ws = W) in Hat.
    unfold wd. rewrite of_path_plain by (reflexivity || exact d_plain).
    now rewrite Hat. }
  assert (Hloc2 : Loc.of_path wdd = (W ++ [d]) ++ [d]).
  { unfold wdd. rewrite of_path_plain by (reflexivity || exact d_plain).
    now rewrite Hloc1. }
  split.
  { unfold name, wd. rewrite Combine_join; try assumption.
    - now rewrite append_assoc.
    - apply is_empty_app.
    - now apply rooted_join. }
  split.
  { apply GetDirectoryName_join; try assumption.
    now apply sep_or_colon_sep. }
  split.
  { unfold name. rewrite replace_join;
      [| now apply sep_or_colon_sep | now apply sep_or_colon_sep | exact c_sep].
    unfold wdd. rewrite Combine_join; try assumption.
    - now rewrite append_assoc.
    - apply is_empty_app.
    - now apply rooted_join. }
  split.
  { apply (ExtractFileDir_join wdd y n);
      [now apply sep_or_colon_delim | exact Hy | exact Hyd]. }
  split; [exact Hloc1 |]. split; [exact Hloc2 |].
  rewrite of_path_plain by (reflexivity || exact n_plain).
  now rewrite Hloc2.
Qed.

Lemma nested_dirs :
  reachable s1 W
  /\ Store.is_dir s1 (W ++ [d]) = false
  /\ reachable s2 (W ++ [d])
  /\ reachable s3 ((W ++ [d]) ++ [d])
  /\ Store.lookup s2 ((W ++ [d]) ++ [d]) = None
  /\ Store.lookup s3 (((W ++ [d]) ++ [d]) ++ [n]) = None.
Proof.
  destruct workspace_is_fresh as (H1 & H2 & H3 & H4 & H5).
  pose proof (s1_reachable m G leaf H3 H4) as Hr1.
  change (reachable s1 W) in Hr1.
  assert (Hn1 : Store.lookup s1 (W ++ [d]) = None)
    by (apply nested_s1_below; discriminate).
  assert (Hn2 : Store.lookup s1 ((W ++ [d]) ++ [d]) = None)
    by (rewrite <- app_assoc; apply nested_s1_below; discriminate).
  assert (Hn3 : Store.lookup s1 (((W ++ [d]) ++ [d]) ++ [n]) = None)
    by (rewrite <- !app_assoc; apply nested_s1_below; discriminate).
  assert (Hd2 : Store.is_dir s2 (W ++ [d]) = true).
  { unfold s2, Store.is_dir. rewrite lookup_app, Hn1.
    unfold Store.lookup. cbn [find fst snd]. now rewrite loc_eqb_refl. }
  assert (Hr2 : reachable s2 (W ++ [d])).
  { apply reachable_snoc; [| exact Hd2].
    unfold s2. now apply reachable_app_store. }
  assert (Hl2 : Store.lookup s2 ((W ++ [d]) ++ [d]) = None).
  { unfold s2. rewrite lookup_app, Hn2.
    unfold Store.lookup. cbn [find fst]. now rewrite loc_eqb_longer. }
  assert (Hd3 : Store.is_dir s3 ((W ++ [d]) ++ [d]) = true).
  { unfold s3, Store.is_dir. rewrite lookup_app, Hl2.
    unfold Store.lookup. cbn [find fst snd]. now rewrite loc_eqb_refl. }
  split; [exact Hr1 |].
  split; [unfold Store.is_dir; now rewrite Hn1 |].
  split; [exact Hr2 |].
  split.
  { apply reachable_snoc; [| exact Hd3].
    unfold s3. now apply reachable_app_store. }
  split; [exact Hl2 |].
  unfold s3, s2. rewrite !lookup_app, Hn3.
  unfold Store.lookup. cbn [find fst].
  rewrite loc_eqb_longer.
  destruct (Loc.eqb (W ++ [d]) (((W ++ [d]) ++ [d]) ++ [n])) eqn:E;
    [| reflexivity].
  apply loc_eqb_length in E. rewrite !length_app in E. cbn in E. lia.
Qed.

Lemma nested_name_valid : TPath.HasValidPathChars name = true.
Proof.
  apply valid_join; [now apply plain_valid | | now apply plain_valid].
  unfold TPath.is_sep in c_sep. apply orb_true_iff in c_sep as [H | H];
    apply Ascii.eqb_eq in H; now subst c.
Qed.

Lemma nested_entry_run :
  extract_entry [mk_entry name (Stored data)] 0 (M_of s1)
  = (Returned tt, M_of s4).
Proof.
  destruct nested_paths as (P1 & P2 & P3 & P4 & L1 & L2 & L3).
  destruct nested_dirs as (Hr1 & Hnd & Hr2 & Hr3 & Hl2 & Hl3).
  destruct workspace_is_fresh as (H1 & H2 & H3 & H4 & H5).
  destruct (join_shape ws d d_plain) as (Hne1 & _).
  destruct (join_shape wd d d_plain) as (Hne2 & _).
  fold wd in Hne1. fold wdd in Hne2.
  pose proof (ws_named m r H1) as Htd.
  change (tempDirectory (this (named_machine m)) = ws) in Htd.
  unfold extract_entry.
  rewrite (bind_returned _ _ (M_of s1) (this (M_of s1)) (M_of s1))
    by reflexivity.
  change (tempDirectory (this (M_of s1)))
    with (tempDirectory (this (named_machine m))).
  rewrite Htd.
  change (TZipFile.FileNames [mk_entry name (Stored data)] 0) with name.
  rewrite (bind_returned _ _ _ _ _
             (TPath_Combine_valid ws name (M_of s1)
                (ws_valid_chars m r root_is_valid) nested_name_valid)).
  rewrite P1, P2.
  rewrite (bind_returned _ _ (M_of s1) false (M_of s1)).
  2:{ unfold TDirectory.Exists, bind, get_env, ret, M_of. cbn [env fs with_fs].
      now rewrite Hne1, L1, Hnd. }
  cbn [negb].
  rewrite (bind_returned _ _ (M_of s1) tt (M_of s2)).
  2:{ unfold TDirectory.CreateDirectory. rewrite Hne1.
      unfold update_env, M_of. cbn [this env fs with_fs guarded_locs].
      rewrite L1, guarded_locs_tick_env. fold w.
      rewrite (force_dirs_new (guarded_locs w) W [] s1 d);
        [reflexivity | exact Hr1 | |].
      - cbn [Datatypes.app]. apply nested_s1_below. discriminate.
      - cbn [Datatypes.app]. apply nested_free, is_prefix_app. }
  unfold TZipFile.Extract. cbn [find entry_name]. rewrite String.eqb_refl.
  cbn [entry_data entry_name]. rewrite P3, P4, Hne2.
  rewrite (bind_returned _ _ (M_of s2) tt (M_of s3)).
  2:{ unfold TDirectory.CreateDirectory. rewrite Hne2.
      unfold update_env, M_of. cbn [this env fs with_fs guarded_locs].
      rewrite L2, guarded_locs_tick_env. fold w.
      rewrite (force_dirs_new (guarded_locs w) (W ++ [d]) [] s2 d);
        [reflexivity | exact Hr2 | |].
      - cbn [Datatypes.app]. exact Hl2.
      - cbn [Datatypes.app]. rewrite <- app_assoc.
        apply nested_free, is_prefix_app. }
  assert (Hlast : exists z, Str.last_char (wdd ++ String TPath.backslash n)
                            = Some z
                            /\ Ascii.eqb z TPath.backslash = false).
  { destruct (plain_last n n_plain) as (z & Hz & Hp). exists z. split.
    - rewrite last_char_app.
      destruct n_plain as (Hne & _). destruct n; [discriminate | exact Hz].
    - unfold is_sep_or_colon, TPath.is_sep in Hp.
      apply orb_false_iff in Hp as [Hp _].
      now apply orb_false_iff in Hp as [Hp _]. }
  destruct Hlast as (z & Hz & Hzb). rewrite Hz, Hzb.
  unfold TZipFile.decompress_to, TFileStream_Create_Write, bind, get_env, M_of.
  cbn [env fs with_fs guarded_locs].
  rewrite L3, guarded_locs_tick_env. fold w.
  rewrite write_file_new.
  - rewrite (filter_absent _ _ Hl3). reflexivity.
  - pose proof (Hr3 (length ((W ++ [d]) ++ [d]))) as H.
    rewrite firstn_all in H. apply H. rewrite !length_app. cbn. lia.
  - unfold Store.is_dir. now rewrite Hl3.
  - rewrite <- !app_assoc. apply nested_free, is_prefix_app.
Qed.

Lemma nested_run :
  ExtractZipToTemp (ZipArchive [mk_entry name (Stored data)]) m
  = (Returned true, M_of s4).
Proof.
  destruct workspace_is_fresh as (H1 & H2 & H3 & H4 & H5).
  rewrite ExtractZipToTemp_unfold. unfold try_catch.
  rewrite (bind_returned _ _ _ _ _
             (workspace_created m r G leaf H1 H2 H3 H4 H5)).
  rewrite extract_all_entries_archive.
  change (TZipFile.FileCount [mk_entry name (Stored data)]) with 1%nat.
  cbn [for_loop].
  change (extract_entry [mk_entry name (Stored data)] 0
            (mk_machine (this (named_machine m))
               (with_fs (tick_env (env m))
                  (fs (env m)
                   ++ [(G ++ [leaf; workspace_leaf (tick_reading (env m))],
                        Dir)]))))
    with (extract_entry [mk_entry name (Stored data)] 0 (M_of s1)).
  rewrite (bind_returned _ _ _ _ _ nested_entry_run). reflexivity.
Qed.

Lemma nested_store :
  s4 = fs w ++ [(W, Dir); (W ++ [d], Dir); (W ++ [d; d], Dir);
                (W ++ [d; d; n], File data)]
  /\ content_below s4 W = [([d], false); ([d; d], false); ([d; d; n], true)]
  /\ Store.is_file s4 (W ++ [d; n]) = false
  /\ Store.lookup s4 (W ++ [d; d; n]) = Some (File data).
Proof.
  destruct nested_dirs as (_ & _ & _ & _ & _ & Hl3).
  destruct workspace_is_fresh as (_ & _ & _ & H4 & _).
  assert (Hs4 : s4 = fs w ++ [(W, Dir); (W ++ [d], Dir); (W ++ [d; d], Dir);
                               (W ++ [d; d; n], File data)]).
  { unfold s4, s3, s2, s1. rewrite <- !app_assoc. reflexivity. }
  split; [exact Hs4 |]. split; [| split].
  - rewrite Hs4. unfold content_below. rewrite filter_app.
    rewrite (filter_nothing _ (fs w)).
    2:{ intros e He. pose proof (H4 e He) as Hout.
        change (Loc.is_prefix W (fst e) = false) in Hout.
        unfold Loc.is_below. now rewrite Hout. }
    cbn [Datatypes.app filter fst]. rewrite is_below_self.
    rewrite !is_below_app by discriminate.
    cbn [map fst snd Store.is_file_node]. now rewrite !skipn_exact.
  - unfold Store.is_file.
    replace (W ++ [d; n]) with ((W ++ [d]) ++ [n])
      by (now rewrite <- app_assoc).
    unfold s4, s3, s2. rewrite !lookup_app.
    rewrite <- app_assoc. rewrite nested_s1_below by discriminate.
    rewrite app_assoc.
    unfold Store.lookup at 1. cbn [find fst]. rewrite loc_eqb_longer.
    unfold Store.lookup at 1. cbn [find fst snd].
    destruct (Loc.eqb ((W ++ [d]) ++ [d]) ((W ++ [d]) ++ [n]));
      [reflexivity |].
    unfold Store.lookup. cbn [find fst].
    destruct (Loc.eqb (((W ++ [d]) ++ [d]) ++ [n]) ((W ++ [d]) ++ [n])) eqn:E;
      [| reflexivity].
    apply loc_eqb_length in E. rewrite !length_app in E. cbn in E. lia.
  - replace (W ++ [d; d; n]) with (((W ++ [d]) ++ [d]) ++ [n])
      by (now rewrite <- !app_assoc).
    unfold s4. rewrite lookup_app, Hl3.
    unfold Store.lookup. cbn [find fst snd]. now rewrite loc_eqb_refl.
Qed.

End Nested.

(** X18.  An entry stored in a subdirectory is written one level too deep,
    whatever its names.  For plain names [d] and [n], an archive whose
    entry is stored as [d\n] is extracted without a message and with the
    result true; the workspace then holds the directories [d] and [d\d]
    and the file [d\d\n] with the entry's bytes, and nothing else: there is
    no file at [d\n], the place the entry's name says. *)
Theorem subdirectory_entry_is_nested_twice
    (m : Machine) (r : string) (G : Loc.t) (leaf d n : string)
    (data : list Byte.byte) :
  fresh_workspace m r G leaf ->
  usable_root r ->
  plain_name d ->
  plain_name n ->
  let W := workspace_loc m G leaf in
  let done :=
    ExtractZipToTemp
      (ZipArchive [mk_entry (d ++ String TPath.backslash n) (Stored data)]) m in
  fst done = Returned true
  /\ shown (env (snd done)) = shown (env m)
  /\ Loc.of_path (tempDirectory (this (snd done))) = W
  /\ fs (env (snd done))
     = fs (env m) ++ [(W, Dir); (W ++ [d], Dir); (W ++ [d; d], Dir);
                      (W ++ [d; d; n], File data)]
  /\ content_below (fs (env (snd done))) W
     = [([d], false); ([d; d], false); ([d; d; n], true)]
  /\ Store.is_file (fs (env (snd done))) (W ++ [d; n]) = false
  /\ Store.lookup (fs (env (snd done))) (W ++ [d; d; n]) = Some (File data).
Proof.
  intros Hfresh [Hv _] [Hd _] [Hn _] W done. subst done W.
  rewrite (nested_run m r G leaf d n TPath.backslash data Hfresh Hv Hd Hn
             eq_refl).
  destruct (nested_store m r G leaf d n data Hfresh) as (S1 & S2 & S3 & S4).
  pose proof Hfresh as (H1 & H2 & _).
  unfold workspace_loc in *.
  cbn [fst snd this env fs with_fs shown].
  split; [reflexivity |].
  split; [apply shown_tick_env |].
  split; [rewrite (ws_named m r H1); exact (ws_at m r G leaf H2) |].
  split; [exact S1 |].
  split; [exact S2 |].
  split; [exact S3 | exact S4].
Qed.

(** X18 exercised: [sub\flag2.jpg] on the sample disk. *)
Lemma subdirectory_entry_is_nested_twice_witness :
  let m := Sample.machine [1000] [] in
  let W := workspace_loc m ["C:"] "Temp" in
  let done :=
    ExtractZipToTemp
      (ZipArchive [mk_entry ("sub" ++ String TPath.backslash "flag2.jpg")
                     (Stored Sample.payload)]) m in
  fst done = Returned true
  /\ shown (env (snd done)) = shown (env m)
  /\ Loc.of_path (tempDirectory (this (snd done))) = W
  /\ fs (env (snd done))
     = fs (env m) ++ [(W, Dir); (W ++ ["sub"], Dir); (W ++ ["sub"; "sub"], Dir);
                      (W ++ ["sub"; "sub"; "flag2.jpg"], File Sample.payload)]
  /\ content_below (fs (env (snd done))) W
     = [(["sub"], false); (["sub"; "sub"], false);
        (["sub"; "sub"; "flag2.jpg"], true)]
  /\ Store.is_file (fs (env (snd done))) (W ++ ["sub"; "flag2.jpg"]) = false
  /\ Store.lookup (fs (env (snd done))) (W ++ ["sub"; "sub"; "flag2.jpg"])
     = Some (File Sample.payload).
Proof.
  intros m.
  apply (subdirectory_entry_is_nested_twice m "C:\Temp" ["C:"] "Temp"
           "sub" "flag2.jpg" Sample.payload).
  - apply sample_fresh_workspace.
  - apply sample_usable_root.
  - given_name.
  - given_name.
Defined.
